(** * api4LLM diagnostics server: a shallow embedding of [diagnostics/server.mjs]

    The development follows the server file function by function.  Pure
    helpers ([normalizeProviderName], [evaluateOAuthFileFreshness],
    [buildProviderHealth], ...) are Rocq functions; the functions that start
    a subprocess or read the clock are programs of a small free monad
    ([Proc]); the log stream, which is a set of event handlers over a shared
    buffer, is a step function on an explicit state.

    Conventions.
    - A JavaScript string is a [string] whose characters are its UTF-16 code
      units; the embedding covers the code units below 256 (Latin-1), on
      which [trim], [toLowerCase] and the regular expressions of the source
      are defined here exactly as ECMAScript defines them.
    - A field that the source reads as [x || ""] is a [string], the empty
      string standing for an absent (or otherwise falsy) value.
    - Time values (milliseconds since the epoch) are integers of magnitude at
      most 8.64e15.  Rounding to a double is monotone and leaves 0 and the
      day constants as they are, so the comparisons the source performs on
      time values and on their differences come out as they do over [Z],
      where they are written; the differences themselves, and the rounded
      quotients of [humanizeDurationMs], are exact below 2^53.
    - Builtins of the runtime that are not defined here (the date grammar of
      [Date.parse], [toISOString], [localeCompare], [JSON.parse]) are the
      fields of a [Host] record.
    - A chunk of a child's output is a list of bytes; the decoder the log
      stream applies to every chunk is a parameter of its functions, and
      what is proved of the stream holds for every decoder. *)

From Stdlib Require Import ZArith List String Ascii Bool Lia.
From Stdlib Require Import Sorted Permutation DecimalString.
Import ListNotations.

Open Scope string_scope.
Open Scope Z_scope.

(* ================================================================== *)
(** * Definitions *)
(* ================================================================== *)

(** ** String builtins *)

Module JsString.

Definition LF : ascii := "010"%char.
Definition CR : ascii := "013"%char.

(** ECMAScript WhiteSpace and LineTerminator code points below 256:
    TAB, LF, VT, FF, CR, SP and NBSP. *)
Definition isWhiteSpace (c : ascii) : bool :=
  let n := N_of_ascii c in
  ((n =? 9) || (n =? 10) || (n =? 11) || (n =? 12) || (n =? 13)
   || (n =? 32) || (n =? 160))%N.

Fixpoint trimStart (s : string) : string :=
  match s with
  | EmptyString => EmptyString
  | String c s' => if isWhiteSpace c then trimStart s' else s
  end.

Fixpoint trimEnd (s : string) : string :=
  match s with
  | EmptyString => EmptyString
  | String c s' =>
      match trimEnd s' with
      | EmptyString => if isWhiteSpace c then EmptyString else String c EmptyString
      | t => String c t
      end
  end.

(** [s.trim()] *)
Definition trim (s : string) : string := trimEnd (trimStart s).

(** The characters below 256 that have a lower-case mapping: A-Z, and the
    Latin-1 capitals U+00C0..U+00DE except the multiplication sign. *)
Definition lowerChar (c : ascii) : ascii :=
  let n := N_of_ascii c in
  if ((65 <=? n) && (n <=? 90)
      || (192 <=? n) && (n <=? 222) && negb (n =? 215))%N
  then ascii_of_N (n + 32) else c.

Fixpoint map (f : ascii -> ascii) (s : string) : string :=
  match s with
  | EmptyString => EmptyString
  | String c s' => String (f c) (map f s')
  end.

(** [s.toLowerCase()] *)
Definition toLowerCase (s : string) : string := map lowerChar s.

(** [s.startsWith(p)] *)
Definition startsWith (s p : string) : bool := String.prefix p s.

(** [s.includes(sub)] *)
Fixpoint includes (s sub : string) : bool :=
  String.prefix sub s
  || match s with
     | EmptyString => false
     | String _ s' => includes s' sub
     end.

(** [s.slice(n)] for [0 <= n]. *)
Fixpoint slice (n : nat) (s : string) : string :=
  match n, s with
  | O, _ => s
  | S n', String _ s' => slice n' s'
  | S _, EmptyString => EmptyString
  end.

(** Truthiness of a string: [Boolean(s)]. *)
Definition truthy (s : string) : bool := negb (s =? "")%string.

(** [a || b] on strings. *)
Definition or (a b : string) : string := if truthy a then a else b.

Fixpoint filter (p : ascii -> bool) (s : string) : string :=
  match s with
  | EmptyString => EmptyString
  | String c s' => if p c then String c (filter p s') else filter p s'
  end.

Fixpoint forallb (p : ascii -> bool) (s : string) : bool :=
  match s with
  | EmptyString => true
  | String c s' => p c && forallb p s'
  end.

(** [s.split("\n")]: the pieces between line feeds, at least one. *)
Fixpoint splitLF (s : string) : list string :=
  match s with
  | EmptyString => [EmptyString]
  | String c s' =>
      if Ascii.eqb c LF then EmptyString :: splitLF s'
      else match splitLF s' with
           | p :: ps => String c p :: ps
           | [] => [String c EmptyString]
           end
  end.

(** Removes one carriage return from the end of [s], if there is one. *)
Fixpoint stripCR (s : string) : string :=
  match s with
  | EmptyString => EmptyString
  | String c EmptyString => if Ascii.eqb c CR then EmptyString else s
  | String c s' => String c (stripCR s')
  end.

Fixpoint mapInit {A : Type} (f : A -> A) (l : list A) : list A :=
  match l with
  | [] => []
  | [x] => [x]
  | x :: l' => f x :: mapInit f l'
  end.

(** [s.split(/\r?\n/)]: a separator is a line feed together with the
    carriage return right before it, if any; the piece after the last
    separator keeps its characters. *)
Definition splitLines (s : string) : list string := mapInit stripCR (splitLF s).

(** Decimal rendering of an integer, as a template literal renders an
    integral number (below 1e21 in magnitude). *)
Definition ofZ (z : Z) : string := NilZero.string_of_int (Z.to_int z).

(** Comparison by code units, the order of the default [Array.prototype.sort]
    and of [<] on strings. *)
Definition codeUnitCompare (a b : string) : Z :=
  match String.compare a b with
  | Lt => -1
  | Eq => 0
  | Gt => 1
  end.

End JsString.

Infix "|||" := JsString.or (at level 50, left associativity).

(** ** Objects, arrays *)

Module Js.

(** The property names every plain object inherits from [Object.prototype].
    A lookup [obj[key]] that finds no own property continues there. *)
Inductive Inherited : Type :=
| InheritedFunction (name : string)  (* [constructor], [toString], ... *)
| InheritedProto.                    (* [__proto__]: [Object.prototype] itself *)

Definition Object_prototype_functions : list string :=
  [ "constructor"; "hasOwnProperty"; "isPrototypeOf"; "propertyIsEnumerable";
    "toLocaleString"; "toString"; "valueOf";
    "__defineGetter__"; "__defineSetter__"; "__lookupGetter__"; "__lookupSetter__" ].

Definition Object_prototype_get (key : string) : option Inherited :=
  if (key =? "__proto__")%string then Some InheritedProto
  else if existsb (String.eqb key) Object_prototype_functions
       then Some (InheritedFunction key)
       else None.

(** The result of [obj[key]] on an object literal whose own properties are
    the association list [own]. *)
Inductive Lookup (A : Type) : Type :=
| Own (a : A)
| FromPrototype (i : Inherited)
| Undefined.
Arguments Own {A} a.
Arguments FromPrototype {A} i.
Arguments Undefined {A}.

Fixpoint assoc {A : Type} (own : list (string * A)) (key : string) : option A :=
  match own with
  | [] => None
  | (k, a) :: rest => if (k =? key)%string then Some a else assoc rest key
  end.

Definition get {A : Type} (own : list (string * A)) (key : string) : Lookup A :=
  match assoc own key with
  | Some a => Own a
  | None =>
      match Object_prototype_get key with
      | Some i => FromPrototype i
      | None => Undefined
      end
  end.

(** [arr.indexOf(x)] on an array of strings; -1 when absent. *)
Fixpoint indexOf (arr : list string) (x : string) : Z :=
  match arr with
  | [] => -1
  | y :: rest =>
      if (y =? x)%string then 0
      else let i := indexOf rest x in if i <? 0 then -1 else i + 1
  end.

(** [Array.prototype.sort(cmp)].  ECMAScript requires the sort to be stable;
    for a consistent comparator its result is therefore determined, and is
    the one this insertion sort computes: [x] goes in front of the first
    element it does not compare greater than. *)
Section Sort.
Context {A : Type} (cmp : A -> A -> Z).

Fixpoint insert (x : A) (l : list A) : list A :=
  match l with
  | [] => [x]
  | y :: l' => if cmp x y <=? 0 then x :: y :: l' else y :: insert x l'
  end.

Fixpoint sort (l : list A) : list A :=
  match l with
  | [] => []
  | x :: l' => insert x (sort l')
  end.
End Sort.

(** [new Set(arr)] and [set.add(x)]: a set keeps its members in insertion
    order. *)
Definition setAdd (s : list string) (x : string) : list string :=
  if existsb (String.eqb x) s then s else s ++ [x].

Definition newSet (arr : list string) : list string :=
  fold_left setAdd arr [].

(** A [Map] with string keys, in insertion order. *)
Definition mapGet {A : Type} (m : list (string * A)) (key : string) : option A :=
  assoc m key.

Fixpoint mapSet {A : Type} (m : list (string * A)) (key : string) (a : A)
  : list (string * A) :=
  match m with
  | [] => [(key, a)]
  | (k, b) :: rest =>
      if (k =? key)%string then (k, a) :: rest else (k, b) :: mapSet rest key a
  end.

End Js.

(** ** Provider normalization *)

Module Provider.
Import JsString.

Definition PROVIDER_ORDER : list string :=
  [ "proxy-access"; "claude"; "codex"; "gemini"; "qwen"; "iflow";
    "openai-compat"; "unknown" ].

(** [normalizeProviderName(raw)], lines 139-166. *)
Definition normalizeProviderName (raw : string) : string :=
  let value := toLowerCase (trim (raw ||| "")) in
  if negb (truthy value) then "unknown"
  else if includes value "proxy" || (value =? "api-keys")%string
          || (value =? "api_keys")%string then "proxy-access"
  else if includes value "claude" || includes value "anthropic" then "claude"
  else if includes value "codex" || includes value "openai"
          || (value =? "gpt")%string then "codex"
  else if includes value "gemini" then "gemini"
  else if includes value "qwen" then "qwen"
  else if includes value "iflow" then "iflow"
  else if includes value "compat" || includes value "openrouter" then "openai-compat"
  else value.

(** [inferProviderFromFileName(fileName)], lines 486-488. *)
Definition inferProviderFromFileName (fileName : string) : string :=
  normalizeProviderName fileName.

(** The rules of [normalizeProviderName] as the table the specification
    describes: (predicate, result) pairs tried in order. *)
Definition provider_rules : list ((string -> bool) * string) :=
  [ (fun v => includes v "proxy" || (v =? "api-keys")%string || (v =? "api_keys")%string,
     "proxy-access");
    (fun v => includes v "claude" || includes v "anthropic", "claude");
    (fun v => includes v "codex" || includes v "openai" || (v =? "gpt")%string, "codex");
    (fun v => includes v "gemini", "gemini");
    (fun v => includes v "qwen", "qwen");
    (fun v => includes v "iflow", "iflow");
    (fun v => includes v "compat" || includes v "openrouter", "openai-compat") ].

Fixpoint first_match (rules : list ((string -> bool) * string)) (v : string)
  : option string :=
  match rules with
  | [] => None
  | (p, r) :: rest => if p v then Some r else first_match rest v
  end.

End Provider.

(** ** The runtime *)

(** What [JSON.parse] yields for the records the docker CLI prints, read
    field by field as the source reads them. *)
Module DockerJson.

(** One line of [docker compose ps --format json] or of
    [docker ps --format {{json .}}].  [ExitCode] is [Some n] when the field
    is a number ([typeof service.ExitCode === "number"]). *)
Record Row : Type := {
  Service : string;
  Name : string;
  Names : string;
  State : string;
  Status : string;
  Image : string;
  CreatedAt : string;
  RunningFor : string;
  ExitCode : option Z;
  ID : string
}.

(** The [.State] object of [docker inspect]: [Running] is
    [Boolean(parsed.Running)], [ExitCode] is [Some n] when the field is an
    integer, the two dates are the results of [parseTimestamp]. *)
Record ContainerState : Type := {
  StateStatus : string;
  Running : bool;
  StateExitCode : option Z;
  StartedAt : string;
  FinishedAt : string
}.

End DockerJson.

Record Host : Type := {
  (** [Date.parse(s)] for a non-empty [s]; [None] is NaN. *)
  parseDateString : string -> option Z;
  (** [new Date(t).toISOString()] *)
  toISOString : Z -> string;
  (** [a.localeCompare(b)] *)
  localeCompare : string -> string -> Z;
  (** [JSON.parse(line)] of a docker row; [None] when it throws or the value
      is falsy (such lines are dropped by [splitJSONLines]). *)
  JSON_parse_row : string -> option DockerJson.Row;
  (** [JSON.parse(payload)] of an inspected state; [None] when it throws or
      the value has no properties to read ([null]). *)
  JSON_parse_state : string -> option DockerJson.ContainerState
}.

(** [Date.parse(s)]: the empty string is not a date. *)
Definition Date_parse (h : Host) (s : string) : option Z :=
  if (s =? "")%string then None else parseDateString h s.

(** ** Credential freshness *)

Module Freshness.
Import JsString.

Inductive Level : Type :=
| missing | configured | fresh | unknown | warning | stale | expired | error.

(** The keys of [FRESHNESS_SEVERITY] as the strings the server sends. *)
Definition levelName (l : Level) : string :=
  match l with
  | missing => "missing" | configured => "configured" | fresh => "fresh"
  | unknown => "unknown" | warning => "warning" | stale => "stale"
  | expired => "expired" | error => "error"
  end.

(** [FRESHNESS_SEVERITY], lines 56-65.  Every level is a key of the table,
    so the [|| 0] the source puts after each lookup changes nothing. *)
Definition FRESHNESS_SEVERITY (l : Level) : Z :=
  match l with
  | missing => 0 | configured => 1 | fresh => 2 | unknown => 3
  | warning => 4 | stale => 5 | expired => 6 | error => 7
  end.

(** An entry of the list [readAuthFiles] returns. *)
Record AuthFile : Type := {
  file : string;
  provider : string;
  email : string;
  expiresAt : string;
  lastRefresh : string;
  modifiedAt : string;
  size : Z;
  parseError : string
}.

Record Evaluation : Type := {
  level : Level;
  message : string;
  expiresInMs : option Z
}.

(** [Math.round(a / b)] for integers [0 <= a], [0 < b]: halves round up. *)
Definition Math_round_div (a b : Z) : Z := (2 * a + b) / (2 * b).

(** [humanizeDurationMs(ms)], lines 490-508. *)
Definition humanizeDurationMs (ms : Z) : string :=
  let abs := Z.abs ms in
  let totalMinutes := Math_round_div abs 60000 in
  let days := totalMinutes / 1440 in
  let hours := (totalMinutes mod 1440) / 60 in
  let minutes := totalMinutes mod 60 in
  if 0 <? days then ofZ days ++ "d " ++ ofZ hours ++ "h"
  else if 0 <? hours then ofZ hours ++ "h " ++ ofZ minutes ++ "m"
  else if 0 <? minutes then ofZ minutes ++ "m"
  else
    let seconds := Z.max 1 (Math_round_div abs 1000) in
    ofZ seconds ++ "s".

Definition DAY_MS : Z := 24 * 60 * 60 * 1000.

(** [evaluateOAuthFileFreshness(file, nowMs)], lines 510-589. *)
Definition evaluateOAuthFileFreshness (h : Host) (f : AuthFile) (nowMs : Z)
  : Evaluation :=
  if truthy (parseError f) then
    {| level := error; message := "Token file cannot be parsed"; expiresInMs := None |}
  else
    match (if truthy (expiresAt f) then Date_parse h (expiresAt f) else None) with
    | Some expiryMs =>
        let delta := expiryMs - nowMs in
        if delta <=? 0 then
          {| level := expired;
             message := "Expired " ++ humanizeDurationMs delta ++ " ago";
             expiresInMs := Some delta |}
        else if delta <=? DAY_MS then
          {| level := warning;
             message := "Expires in " ++ humanizeDurationMs delta;
             expiresInMs := Some delta |}
        else
          {| level := fresh;
             message := "Valid for " ++ humanizeDurationMs delta;
             expiresInMs := Some delta |}
    | None =>
        match (if truthy (lastRefresh f) then Date_parse h (lastRefresh f) else None) with
        | Some refreshMs =>
            let age := nowMs - refreshMs in
            if age <=? 7 * DAY_MS then
              {| level := fresh;
                 message := "Refreshed " ++ humanizeDurationMs age ++ " ago";
                 expiresInMs := None |}
            else if age <=? 30 * DAY_MS then
              {| level := warning;
                 message := "Refresh is " ++ humanizeDurationMs age ++ " old";
                 expiresInMs := None |}
            else
              {| level := stale;
                 message := "Refresh is stale (" ++ humanizeDurationMs age ++ " old)";
                 expiresInMs := None |}
        | None =>
            match (if truthy (modifiedAt f) then Date_parse h (modifiedAt f) else None) with
            | Some modifiedMs =>
                let age := nowMs - modifiedMs in
                if age <=? 30 * DAY_MS then
                  {| level := unknown;
                     message := "No expiry metadata, file updated "
                                ++ humanizeDurationMs age ++ " ago";
                     expiresInMs := None |}
                else
                  {| level := stale;
                     message := "No expiry metadata and file is old ("
                                ++ humanizeDurationMs age ++ ")";
                     expiresInMs := None |}
            | None =>
                {| level := unknown; message := "No expiry metadata";
                   expiresInMs := None |}
            end
        end
    end.

End Freshness.

(** ** Provider health *)

Module Health.
Import JsString Js Provider Freshness.

(** A JavaScript number that is an integer or NaN. *)
Inductive JsNumber : Type :=
| Num (z : Z)
| NaN.

(** [n > 0] *)
Definition positive (n : JsNumber) : bool :=
  match n with
  | Num z => 0 <? z
  | NaN => false
  end.

(** The number in a template literal. *)
Definition showNumber (n : JsNumber) : string :=
  match n with
  | Num z => ofZ z
  | NaN => "NaN"
  end.

Record ProviderHealth : Type := {
  provider : string;
  status : Level;
  statusMessage : string;
  authMode : string;
  oauthCount : Z;
  staticKeyCount : JsNumber;
  expiredCount : Z;
  expiringSoonCount : Z;
  parseErrors : Z;
  soonestExpiry : string;
  latestRefresh : string
}.

(** The comparator of [sortProviders] (lines 696-709), which
    [buildProviderHealth] repeats inline (lines 826-839). *)
Definition sortProviders (h : Host) (a b : string) : Z :=
  let idxA := indexOf PROVIDER_ORDER a in
  let idxB := indexOf PROVIDER_ORDER b in
  if (0 <=? idxA) && (0 <=? idxB) then idxA - idxB
  else if 0 <=? idxA then -1
  else if 0 <=? idxB then 1
  else localeCompare h a b.

(** The key a file is grouped under (line 818). *)
Definition groupKey (f : AuthFile) : string :=
  normalizeProviderName (Freshness.provider f ||| "unknown").

(** Lines 816-822: the [grouped] map after the loop over [oauthFiles]. *)
Definition groupFiles (oauthFiles : list AuthFile) : list (string * list AuthFile) :=
  fold_left
    (fun grouped f =>
       let items := match mapGet grouped (groupKey f) with
                    | Some l => l
                    | None => []
                    end in
       mapSet grouped (groupKey f) (items ++ [f])%list)
    oauthFiles [].

(** [Number(staticCounts[provider] || 0)] (line 845).  [staticCounts] is an
    object literal: a provider that is none of its own keys but names a
    member of [Object.prototype] reads that member, which [Number] turns
    into NaN. *)
Definition staticKeyCountOf (staticCounts : list (string * Z)) (p : string)
  : JsNumber :=
  match get staticCounts p with
  | Own n => Num n
  | FromPrototype _ => NaN
  | Undefined => Num 0
  end.

(** Lines 852-857: the evaluation with the highest severity, the first one
    among equals. *)
Definition worstOf (evaluations : list Evaluation) : Evaluation :=
  fold_left
    (fun worst candidate =>
       if FRESHNESS_SEVERITY (level worst) <? FRESHNESS_SEVERITY (level candidate)
       then candidate else worst)
    evaluations
    (hd {| level := unknown; message := "No health data"; expiresInMs := None |}
        evaluations).

(** The finite values among [Date.parse] of the given strings. *)
Definition finiteDates (h : Host) (l : list string) : list Z :=
  flat_map (fun s => match Date_parse h s with Some t => [t] | None => [] end) l.

(** [Math.min(...l)] and [Math.max(...l)] of a non-empty list of integers. *)
Definition Math_min (l : list Z) : Z := fold_left Z.min (tl l) (hd 0 l).
Definition Math_max (l : list Z) : Z := fold_left Z.max (tl l) (hd 0 l).

Definition count {A : Type} (p : A -> bool) (l : list A) : Z :=
  Z.of_nat (List.length (List.filter p l)).

(** The body of the loop over [orderedProviders] (lines 843-916): the entry
    pushed for [provider]. *)
Definition providerEntry (h : Host) (grouped : list (string * list AuthFile))
    (staticCounts : list (string * Z)) (nowMs : Z) (p : string)
  : ProviderHealth :=
  let oauthEntries := match mapGet grouped p with Some l => l | None => [] end in
  let staticKeyCount := staticKeyCountOf staticCounts p in
  let evaluations :=
    List.map (fun entry => evaluateOAuthFileFreshness h entry nowMs) oauthEntries in
  let '(status, statusMessage) :=
    if (0 <? Z.of_nat (List.length oauthEntries)) then
      let worst := worstOf evaluations in
      (level worst, message worst)
    else if positive staticKeyCount then
      (configured, showNumber staticKeyCount ++ " static API key(s) configured")
    else (missing, "No credentials configured") in
  let expiryValues :=
    finiteDates h (List.map (fun entry => expiresAt entry ||| "") oauthEntries) in
  let soonestExpiry :=
    match expiryValues with
    | [] => ""
    | _ => toISOString h (Math_min expiryValues)
    end in
  let refreshValues :=
    finiteDates h
      (List.map (fun entry => lastRefresh entry ||| modifiedAt entry ||| "")
                oauthEntries) in
  let latestRefresh :=
    match refreshValues with
    | [] => ""
    | _ => toISOString h (Math_max refreshValues)
    end in
  let expiredCount := count (fun ts => ts <=? nowMs) expiryValues in
  let expiringSoonCount :=
    count (fun ts => (nowMs <? ts) && (ts <=? nowMs + DAY_MS)) expiryValues in
  let parseErrors := count (fun entry => truthy (parseError entry)) oauthEntries in
  let authMode :=
    if (0 <? Z.of_nat (List.length oauthEntries)) && positive staticKeyCount then "mixed"
    else if 0 <? Z.of_nat (List.length oauthEntries) then "oauth"
    else if positive staticKeyCount then "api-keys"
    else "none" in
  {| provider := p;
     status := status;
     statusMessage := statusMessage;
     authMode := authMode;
     oauthCount := Z.of_nat (List.length oauthEntries);
     staticKeyCount := staticKeyCount;
     expiredCount := expiredCount;
     expiringSoonCount := expiringSoonCount;
     parseErrors := parseErrors;
     soonestExpiry := soonestExpiry;
     latestRefresh := latestRefresh |}.

(** The files of [oauthFiles] that are grouped under provider [p], in the
    order of the list. *)
Definition filesOf (oauthFiles : list AuthFile) (p : string) : list AuthFile :=
  List.filter (fun f => (groupKey f =? p)%string) oauthFiles.

(** Lines 824-839: the providers in output order.  [staticCounts] lists the
    object's own keys in the order [Object.keys] enumerates them. *)
Definition orderedProviders (h : Host) (grouped : list (string * list AuthFile))
    (staticCounts : list (string * Z)) : list string :=
  let providers :=
    newSet (PROVIDER_ORDER ++ List.map fst staticCounts ++ List.map fst grouped)%list in
  sort (sortProviders h) providers.

(** [buildProviderHealth(oauthFiles, staticCounts)], lines 814-919, with the
    value [Date.now()] returns at line 815 as [nowMs].  The [label] field,
    which no function of the server reads back, is not part of the entry. *)
Definition buildProviderHealth (h : Host) (oauthFiles : list AuthFile)
    (staticCounts : list (string * Z)) (nowMs : Z) : list ProviderHealth :=
  let grouped := groupFiles oauthFiles in
  List.map (providerEntry h grouped staticCounts nowMs)
           (orderedProviders h grouped staticCounts).

End Health.

(** ** Subprocesses and the clock *)

Module Proc.

(** What [runCommand] resolves to (lines 92-137). *)
Record CommandResult : Type := {
  code : Z;
  signal : option string;
  timedOut : bool;
  stdout : string;
  stderr : string
}.

(** The second argument of [runCommand(cmd, args, timeoutMs)]: an array of
    strings, or whatever else a caller hands over. *)
Inductive SpawnArgs : Type :=
| ArgsArray (args : list string)
| ArgsNotArray (v : Js.Inherited).

(** A program of the server: it returns, or calls [runCommand] and goes on
    with what the call resolves to, or reads [new Date().toISOString()]. *)
Inductive Proc (A : Type) : Type :=
| Ret (a : A)
| RunCommand (cmd : string) (args : SpawnArgs) (timeoutMs : Z)
             (k : CommandResult -> Proc A)
| NewDate (k : string -> Proc A).
Arguments Ret {A} a.
Arguments RunCommand {A} cmd args timeoutMs k.
Arguments NewDate {A} k.

Fixpoint bind {A B : Type} (p : Proc A) (f : A -> Proc B) : Proc B :=
  match p with
  | Ret a => f a
  | RunCommand cmd args t k => RunCommand cmd args t (fun r => bind (k r) f)
  | NewDate k => NewDate (fun s => bind (k s) f)
  end.

Definition runCommand (cmd : string) (args : list string) (timeoutMs : Z)
  : Proc CommandResult :=
  RunCommand cmd (ArgsArray args) timeoutMs Ret.

Definition newDateISO : Proc string := NewDate Ret.

(** The machine the server runs on: it answers a [runCommand] call with the
    record the promise resolves to, or with [None] when the promise rejects,
    and tells the time; both may change its state [W]. *)
Record Machine (W : Type) : Type := {
  exec : W -> string -> SpawnArgs -> Z -> option CommandResult * W;
  clock : W -> string * W
}.
Arguments exec {W} m.
Arguments clock {W} m.

(** Running a program: [None] is a rejected promise, which none of the
    functions embedded here catches. *)
Fixpoint run {W A : Type} (m : Machine W) (p : Proc A) (w : W) : option A * W :=
  match p with
  | Ret a => (Some a, w)
  | RunCommand cmd args t k =>
      match exec m w cmd args t with
      | (Some r, w') => run m (k r) w'
      | (None, w') => (None, w')
      end
  | NewDate k => let (s, w') := clock m w in run m (k s) w'
  end.

(** The first [runCommand] call a program makes before it returns, if it
    makes one without reading the clock first. *)
Definition firstCall {A : Type} (p : Proc A) : option (string * SpawnArgs * Z) :=
  match p with
  | RunCommand cmd args t _ => Some (cmd, args, t)
  | _ => None
  end.

End Proc.

Notation "x <- p ;; q" := (Proc.bind p (fun x => q))
  (at level 61, p at next level, right associativity).

(** The settings read from the environment at start-up (lines 17-22). *)
Record Config : Type := {
  COMPOSE_FILE : string;
  DEFAULT_SERVICE : string;
  TARGET_CONTAINER : string;
  DOCKER_MODE : string
}.

(** ** Service state *)

Module Service.
Import JsString Proc DockerJson.

Record ServiceState : Type := {
  service : string;
  container : string;
  state : string;
  status : string;
  image : string;
  createdAt : string;
  runningFor : string;
  exitCode : option Z;
  id : string;
  running : bool;
  exited : bool
}.

Record Summary : Type := {
  generatedAt : string;
  backend : string;
  dockerMode : string;
  dockerAvailable : bool;
  composeFile : string;
  defaultService : string;
  defaultContainer : string;
  overallState : string;
  services : list ServiceState;
  commandError : string
}.

(** [container.commandError = e] (line 381). *)
Definition setCommandError (s : Summary) (e : string) : Summary :=
  {| generatedAt := generatedAt s; backend := backend s; dockerMode := dockerMode s;
     dockerAvailable := dockerAvailable s; composeFile := composeFile s;
     defaultService := defaultService s; defaultContainer := defaultContainer s;
     overallState := overallState s; services := services s;
     commandError := e |}.

(** What [inspectContainerState] returns when it does not return [null]. *)
Record InspectState : Type := {
  inspectStatus : string;
  inspectRunning : bool;
  inspectExitCode : option Z;
  startedAt : string;
  finishedAt : string
}.

(** [splitJSONLines(raw)], lines 77-90. *)
Definition splitJSONLines (h : Host) (raw : string) : list Row :=
  flat_map
    (fun line => match JSON_parse_row h line with
                 | Some row => [row]
                 | None => []
                 end)
    (List.filter truthy (List.map trim (splitLines raw))).

(** [deriveStateFromStatus(statusRaw)], lines 168-186. *)
Definition deriveStateFromStatus (statusRaw : string) : string :=
  let status := toLowerCase (trim (statusRaw ||| "")) in
  if negb (truthy status) then "unknown"
  else if startsWith status "up" || startsWith status "running" then "running"
  else if startsWith status "exited" || includes status "dead" then "exited"
  else if includes status "restart" then "restarting"
  else if includes status "created" then "created"
  else "unknown".

Section WithConfig.
Variable cfg : Config.
Variable h : Host.

(** [normalizeComposeServiceState(service)], lines 188-209. *)
Definition normalizeComposeServiceState (svc : Row) : ServiceState :=
  let status := Status svc ||| "" in
  let inferred := deriveStateFromStatus status in
  let composeState := toLowerCase (State svc ||| "") in
  let state := composeState ||| inferred in
  let running := (state =? "running")%string in
  let exited := (state =? "exited")%string in
  {| service := Service svc ||| Name svc ||| DEFAULT_SERVICE cfg;
     container := Name svc ||| Names svc ||| TARGET_CONTAINER cfg;
     state := state ||| "unknown";
     status := status;
     image := Image svc ||| "";
     createdAt := CreatedAt svc ||| "";
     runningFor := RunningFor svc ||| "";
     exitCode := ExitCode svc;
     id := ID svc ||| "";
     running := running;
     exited := exited |}.

(** [inspectContainerState(containerName)], lines 211-236. *)
Definition inspectContainerState (containerName : string)
  : Proc (option InspectState) :=
  let safeName := trim (containerName ||| "") in
  if negb (truthy safeName) then Ret None
  else
    result <- runCommand "docker"
                ["inspect"; safeName; "--format"; "{{json .State}}"] 10000 ;;
    if negb (code result =? 0) then Ret None
    else
      let payload := trim (stdout result ||| "") in
      if negb (truthy payload) then Ret None
      else
        match JSON_parse_state h payload with
        | Some parsed =>
            Ret (Some {| inspectStatus := toLowerCase (StateStatus parsed ||| "");
                         inspectRunning := Running parsed;
                         inspectExitCode := StateExitCode parsed;
                         startedAt := StartedAt parsed;
                         finishedAt := FinishedAt parsed |})
        | None => Ret None
        end.

(** [normalizeContainerState(row, inspectState)], lines 238-259. *)
Definition normalizeContainerState (row : Row) (inspectState : option InspectState)
  : ServiceState :=
  let status := Status row ||| "" in
  let inferred := deriveStateFromStatus status in
  let inspectStatus :=
    match inspectState with Some i => inspectStatus i | None => "" end ||| "" in
  let state := inspectStatus ||| inferred in
  let running :=
    match inspectState with
    | Some i => inspectRunning i
    | None => (state =? "running")%string
    end in
  let exited := (state =? "exited")%string in
  {| service := DEFAULT_SERVICE cfg;
     container := Names row ||| TARGET_CONTAINER cfg;
     state := state ||| "unknown";
     status := status;
     image := Image row ||| "";
     createdAt := CreatedAt row ||| "";
     runningFor := RunningFor row ||| "";
     exitCode := match inspectState with Some i => inspectExitCode i | None => None end;
     id := ID row ||| "";
     running := running;
     exited := exited |}.

(** The placeholder row of lines 267-279 and 330-342. *)
Definition notCreated : ServiceState :=
  {| service := DEFAULT_SERVICE cfg;
     container := TARGET_CONTAINER cfg;
     state := "not-created";
     status := "Container not created yet";
     image := ""; createdAt := ""; runningFor := "";
     exitCode := None; id := "";
     running := false; exited := false |}.

(** [getComposeServiceSummary()], lines 261-297. *)
Definition getComposeServiceSummary : Proc Summary :=
  composeResult <- runCommand "docker"
    ["compose"; "-f"; COMPOSE_FILE cfg; "ps"; "--all"; "--format"; "json"] 15000 ;;
  let dockerOk := code composeResult =? 0 in
  let services0 :=
    if dockerOk
    then List.map normalizeComposeServiceState (splitJSONLines h (stdout composeResult))
    else [] in
  let services :=
    match services0 with
    | [] => if dockerOk then [notCreated] else []
    | _ => services0
    end in
  let primary :=
    match List.find (fun svc => (service svc =? DEFAULT_SERVICE cfg)%string) services with
    | Some svc => Some svc
    | None => List.hd_error services
    end in
  let overallState :=
    match primary with
    | None => "unknown"
    | Some svc => if running svc then "running" else state svc
    end in
  now <- newDateISO ;;
  Ret {| generatedAt := now;
         backend := "compose";
         dockerMode := DOCKER_MODE cfg;
         dockerAvailable := dockerOk;
         composeFile := COMPOSE_FILE cfg;
         defaultService := DEFAULT_SERVICE cfg;
         defaultContainer := TARGET_CONTAINER cfg;
         overallState := overallState;
         services := services;
         commandError :=
           if dockerOk then ""
           else trim (stderr composeResult ||| stdout composeResult
                      ||| "docker compose command failed") |}.

(** [getContainerServiceSummary()], lines 299-364. *)
Definition getContainerServiceSummary : Proc Summary :=
  result <- runCommand "docker"
    ["ps"; "-a"; "--filter"; "name=^/" ++ TARGET_CONTAINER cfg ++ "$";
     "--format"; "{{json .}}"] 15000 ;;
  let dockerOk := code result =? 0 in
  let summary (available : bool) (overall : string) (svcs : list ServiceState)
              (err : string) : Proc Summary :=
    now <- newDateISO ;;
    Ret {| generatedAt := now;
           backend := "container";
           dockerMode := DOCKER_MODE cfg;
           dockerAvailable := available;
           composeFile := COMPOSE_FILE cfg;
           defaultService := DEFAULT_SERVICE cfg;
           defaultContainer := TARGET_CONTAINER cfg;
           overallState := overall;
           services := svcs;
           commandError := err |} in
  if negb dockerOk then
    summary false "unknown" []
            (trim (stderr result ||| stdout result ||| "docker ps command failed"))
  else
    match splitJSONLines h (stdout result) with
    | [] => summary true "not-created" [notCreated] ""
    | row :: _ =>
        inspect <- inspectContainerState (Names row ||| TARGET_CONTAINER cfg) ;;
        let primary := normalizeContainerState row inspect in
        summary true (if running primary then "running" else state primary)
                [primary] ""
    end.

(** The automatic mode: [DOCKER_MODE] is neither of the two forced
    modes. *)
Definition DOCKER_MODE_is_automatic : Prop :=
  DOCKER_MODE cfg <> "compose" /\ DOCKER_MODE cfg <> "container".

(** [getServiceSummary()], lines 366-386. *)
Definition getServiceSummary : Proc Summary :=
  if (DOCKER_MODE cfg =? "compose")%string then getComposeServiceSummary
  else if (DOCKER_MODE cfg =? "container")%string then getContainerServiceSummary
  else
    compose <- getComposeServiceSummary ;;
    if dockerAvailable compose then Ret compose
    else
      container <- getContainerServiceSummary ;;
      if dockerAvailable container then
        if negb (truthy (commandError container)) && truthy (commandError compose)
        then Ret (setCommandError container (commandError compose))
        else Ret container
      else Ret compose.

End WithConfig.

End Service.

(** ** Actions *)

Module Action.
Import JsString Js Proc.

(** The object an action resolves to; a field the object does not have is
    [None]. *)
Record ActionResult : Type := {
  ok : bool;
  error : option string;
  backend : string;
  exitCode : option Z;
  out : option string;
  err : option string;
  fallbackFrom : option string;
  fallbackTried : option string;
  fallbackError : option string
}.

Definition unsupported (backend : string) : ActionResult :=
  {| ok := false; error := Some "unsupported action"; backend := backend;
     exitCode := None; out := None; err := None;
     fallbackFrom := None; fallbackTried := None; fallbackError := None |}.

Definition completed (backend : string) (result : CommandResult) : ActionResult :=
  {| ok := code result =? 0; error := None; backend := backend;
     exitCode := Some (code result);
     out := Some (trim (stdout result));
     err := Some (trim (stderr result));
     fallbackFrom := None; fallbackTried := None; fallbackError := None |}.

(** [a || b] where [a] may be undefined. *)
Definition orElse (a : option string) (b : string) : string :=
  match a with
  | Some s => s ||| b
  | None => b
  end.

(** Lines 1088-1099 and 1108-1119: [const args = actions[action]], the test
    [if (!args)], and the call.  Arrays, functions and objects are truthy,
    so only an undefined [args] is turned away. *)
Definition dispatch (backend : string) (actions : list (string * list string))
    (action : string) : Proc ActionResult :=
  match get actions action with
  | Undefined => Ret (unsupported backend)
  | Own args =>
      RunCommand "docker" (ArgsArray args) 120000
                 (fun result => Ret (completed backend result))
  | FromPrototype v =>
      RunCommand "docker" (ArgsNotArray v) 120000
                 (fun result => Ret (completed backend result))
  end.

Section WithConfig.
Variable cfg : Config.

(** [runComposeAction(action)], lines 1082-1100. *)
Definition runComposeAction (action : string) : Proc ActionResult :=
  dispatch "compose"
    [ ("start", ["compose"; "-f"; COMPOSE_FILE cfg; "up"; "-d"; DEFAULT_SERVICE cfg]);
      ("stop", ["compose"; "-f"; COMPOSE_FILE cfg; "stop"; DEFAULT_SERVICE cfg]);
      ("restart", ["compose"; "-f"; COMPOSE_FILE cfg; "restart"; DEFAULT_SERVICE cfg]) ]
    action.

(** [runDirectContainerAction(action)], lines 1102-1120. *)
Definition runDirectContainerAction (action : string) : Proc ActionResult :=
  dispatch "container"
    [ ("start", ["start"; TARGET_CONTAINER cfg]);
      ("stop", ["stop"; TARGET_CONTAINER cfg]);
      ("restart", ["restart"; TARGET_CONTAINER cfg]) ]
    action.

(** [runContainerAction(action)], lines 1122-1149. *)
Definition runContainerAction (action : string) : Proc ActionResult :=
  if (DOCKER_MODE cfg =? "compose")%string then runComposeAction action
  else if (DOCKER_MODE cfg =? "container")%string then runDirectContainerAction action
  else
    compose <- runComposeAction action ;;
    if ok compose then Ret compose
    else
      direct <- runDirectContainerAction action ;;
      if ok direct then
        Ret {| ok := ok direct; error := error direct; backend := backend direct;
               exitCode := exitCode direct; out := out direct; err := err direct;
               fallbackFrom := Some "compose";
               fallbackTried := fallbackTried direct;
               fallbackError :=
                 Some (orElse (err compose)
                              (orElse (out compose) "compose action failed")) |}
      else
        Ret {| ok := ok compose; error := error compose; backend := backend compose;
               exitCode := exitCode compose; out := out compose; err := err compose;
               fallbackFrom := fallbackFrom compose;
               fallbackTried := Some "container";
               fallbackError :=
                 Some (orElse (err direct)
                              (orElse (out direct) "container action failed")) |}.

End WithConfig.

(** The route [POST /api/container/<action>], lines 1273-1278: the action
    is the rest of the path, trimmed and lower-cased. *)
Definition containerRoute (cfg : Config) (rest : string) : Proc ActionResult :=
  runContainerAction cfg (toLowerCase (trim rest)).

End Action.

(** ** Log stream *)

Module Logs.
Import JsString.

Inductive Kind : Type := log | error | status.

(** What [res.write] sends: a comment frame ([": connected"], [": ping"])
    or a [data:] frame whose payload has a kind and a line.  The [ts] field
    of the payload, the wall-clock time of the write, is not recorded. *)
Inductive Frame : Type :=
| Comment (text : string)
| Data (kind : Kind) (line : string).

Record Stream : Type := {
  buffer : string;
  written : list Frame;
  ended : bool
}.

(** The character class [[a-zA-Z0-9_.-]] of line 1160. *)
Definition allowedChar (c : ascii) : bool :=
  let n := N_of_ascii c in
  ((97 <=? n) && (n <=? 122) || (65 <=? n) && (n <=? 90)
   || (48 <=? n) && (n <=? 57) || (n =? 95) || (n =? 46) || (n =? 45))%N.

(** Line 1160: [(containerName || TARGET_CONTAINER).replace(/[^a-zA-Z0-9_.-]/g, "")]. *)
Definition safeContainer (cfg : Config) (containerName : string) : string :=
  filter allowedChar (containerName ||| TARGET_CONTAINER cfg).

(** Line 1161: the arguments [docker] is started with. *)
Definition logsArgs (cfg : Config) (containerName : string) : list string :=
  ["logs"; "--timestamps"; "--tail"; "200"; "--follow"; safeContainer cfg containerName].

(** [streamLogs(req, res, containerName)] up to the point where the
    handlers are installed: the command it spawns and the stream it has
    opened. *)
Definition streamLogs (cfg : Config) (containerName : string)
  : (string * list string) * Stream :=
  (("docker", logsArgs cfg containerName),
   {| buffer := ""; written := [Comment "connected"]; ended := false |}).

(** The route [GET /api/logs/stream], lines 1267-1271; [query] is
    [searchParams.get("container")]. *)
Definition logsRoute (cfg : Config) (query : option string)
  : (string * list string) * Stream :=
  streamLogs cfg (match query with
                  | Some name => name ||| TARGET_CONTAINER cfg
                  | None => TARGET_CONTAINER cfg
                  end).

(** [writeLine(line, kind)], lines 1168-1171. *)
Definition writeLine (st : Stream) (line : string) (kind : Kind) : Stream :=
  {| buffer := buffer st; written := written st ++ [Data kind line]; ended := ended st |}.

(** A chunk of the child's output: the bytes of a [Buffer], cut wherever the
    pipe happened to deliver them. *)
Definition Buffer : Type := list Byte.byte.

(** What the child process and the timer deliver. *)
Inductive Event : Type :=
| StdoutData (chunk : Buffer)
| StderrData (chunk : Buffer)
| ChildClose (code : option Z)
| ChildError (msg : string)
| Heartbeat.

Section Decoding.

(** [chunk.toString("utf8")] of the runtime.  Line 1174 applies it to every
    chunk by itself, so a character whose bytes arrive in two chunks is not
    decoded as it would be in one piece. *)
Variable toString_utf8 : Buffer -> string.

(** [flushChunk(chunk, kind)], lines 1173-1183. *)
Definition flushChunk (st : Stream) (chunk : Buffer) (kind : Kind) : Stream :=
  let parts := splitLines (buffer st ++ toString_utf8 chunk) in
  let st' := {| buffer := List.last parts "" ||| "";
                written := written st; ended := ended st |} in
  fold_left (fun s line => if negb (truthy line) then s else writeLine s line kind)
            (List.removelast parts) st'.

(** The [close] handler, lines 1188-1195. *)
Definition onClose (st : Stream) (code : option Z) : Stream :=
  let st1 :=
    if truthy (trim (buffer st)) then
      let s := writeLine st (trim (buffer st)) log in
      {| buffer := ""; written := written s; ended := ended s |}
    else st in
  let st2 :=
    writeLine st1
      ("log stream ended (exit code "
       ++ match code with Some c => ofZ c | None => "unknown" end ++ ")")
      status in
  {| buffer := buffer st2; written := written st2; ended := true |}.

(** The [error] handler, lines 1197-1200. *)
Definition onError (st : Stream) (msg : string) : Stream :=
  let s := writeLine st ("failed to start docker logs stream: " ++ msg) error in
  {| buffer := buffer s; written := written s; ended := true |}.

(** One handler run.  Once [res.end()] has been called nothing more reaches
    the consumer, so an ended stream stays as it is. *)
Definition step (st : Stream) (e : Event) : Stream :=
  if ended st then st
  else
    match e with
    | StdoutData chunk => flushChunk st chunk log
    | StderrData chunk => flushChunk st chunk error
    | ChildClose code => onClose st code
    | ChildError msg => onError st msg
    | Heartbeat =>
        {| buffer := buffer st; written := (written st ++ [Comment "ping"])%list;
           ended := ended st |}
    end.

Definition steps (st : Stream) (es : list Event) : Stream := fold_left step es st.

(** The lines of the [data:] frames among [fs], in order. *)
Definition linesOf (fs : list Frame) : list string :=
  flat_map (fun f => match f with Data _ l => [l] | Comment _ => [] end) fs.

(** The text an event adds to the buffer: the chunk as decoded by itself. *)
Definition chunkText (e : Event) : string :=
  match e with
  | StdoutData chunk | StderrData chunk => toString_utf8 chunk
  | _ => ""
  end.

(** The text received with a sequence of events: the decoded chunks one
    after the other. *)
Definition textOf (es : list Event) : string :=
  fold_right (fun e t => chunkText e ++ t) "" es.

End Decoding.

(** The events that leave the stream open. *)
Definition keepsOpen (e : Event) : bool :=
  match e with
  | ChildClose _ | ChildError _ => false
  | _ => true
  end.

(** The terminated, non-empty lines of a text, and what follows its last
    line boundary. *)
Definition completeLines (text : string) : list string :=
  List.filter truthy (List.removelast (splitLines text)).

Definition pendingText (text : string) : string :=
  List.last (splitLines text) "".

(** The stream of a request, right after [streamLogs] has opened it. *)
Definition opened : Stream :=
  {| buffer := ""; written := [Comment "connected"]; ended := false |}.

End Logs.

(** ** Model catalogue *)

Module Models.
Import JsString Js Provider.

(** A record of either listing, with the fields the aggregator reads. *)
Record ModelJson : Type := {
  id : string;
  name : string;
  owned_by : string;
  display_name : string;
  displayName : string
}.

(** The parsed body: [data] is [Some l] when [payload.data] is an array,
    [models] is [Some l] when [payload.models] is an array. *)
Record Payload : Type := {
  data : option (list ModelJson);
  models : option (list ModelJson)
}.

(** What [fetchProxyJSON] returns; [body] is [None] for a [null] payload. *)
Record Response : Type := {
  ok : bool;
  status : Z;
  error : string;
  body : option Payload
}.

Record Entry : Type := {
  provider : string;
  entryId : string;
  entryDisplayName : string;
  ownedBy : string;
  sources : list string
}.

(** [normalizeModelID(raw)], lines 595-604. *)
Definition normalizeModelID (raw : string) : string :=
  let trimmed := trim (raw ||| "") in
  if negb (truthy trimmed) then ""
  else if startsWith trimmed "models/" then slice 7 trimmed
  else trimmed.

(** [inferProviderFromModel(modelID, ownedBy)], lines 606-639. *)
Definition inferProviderFromModel (modelID ownedBy : string) : string :=
  let owner := normalizeProviderName (ownedBy ||| "") in
  if negb (owner =? "unknown")%string && negb (owner =? "proxy-access")%string
     && negb (owner =? "openai-compat")%string
  then owner
  else
    let i := toLowerCase (trim (modelID ||| "")) in
    if negb (truthy i) then "unknown"
    else if includes i "claude" then "claude"
    else if includes i "gemini" then "gemini"
    else if includes i "qwen" then "qwen"
    else if includes i "iflow" then "iflow"
    else if includes i "gpt" || includes i "o1" || includes i "o3" || includes i "o4"
            || includes i "codex" || includes i "chatgpt" then "codex"
    else if negb (owner =? "unknown")%string then owner else "unknown".

(** The key of line 723. *)
Definition entryKey (provider normalizedID : string) : string :=
  provider ++ "::" ++ normalizedID.

(** [collect(provider, modelID, displayName, source, ownedBy)], lines
    718-739, as a function of the [entries] map it updates. *)
Definition collect (entries : list (string * Entry))
    (provider modelID displayName source ownedBy : string)
  : list (string * Entry) :=
  let normalizedID := normalizeModelID modelID in
  if negb (truthy normalizedID) then entries
  else
    let key := entryKey provider normalizedID in
    match mapGet entries key with
    | Some existing =>
        mapSet entries key
          {| provider := Models.provider existing;
             entryId := entryId existing;
             entryDisplayName :=
               if negb (truthy (entryDisplayName existing)) && truthy displayName
               then displayName else entryDisplayName existing;
             ownedBy := Models.ownedBy existing;
             sources := setAdd (sources existing) source |}
    | None =>
        mapSet entries key
          {| provider := provider;
             entryId := normalizedID;
             entryDisplayName := trim (displayName ||| "");
             ownedBy := trim (ownedBy ||| "");
             sources := newSet [source] |}
    end.

(** The body of the loop of lines 742-747. *)
Definition collectOpenAI (entries : list (string * Entry)) (model : ModelJson)
  : list (string * Entry) :=
  let i := id model in
  let ownedBy := owned_by model ||| "" in
  let provider := inferProviderFromModel i ownedBy in
  collect entries provider i (display_name model ||| "") "openai" ownedBy.

(** The body of the loop of lines 751-755. *)
Definition collectGemini (entries : list (string * Entry)) (model : ModelJson)
  : list (string * Entry) :=
  let i := name model ||| id model in
  let provider := inferProviderFromModel i (owned_by model ||| "") in
  collect entries provider i (displayName model ||| display_name model ||| "")
          "gemini" (owned_by model ||| "").

(** The array the first loop runs over, empty when the guard of line 741
    fails. *)
Definition openaiList (r : Response) : list ModelJson :=
  if ok r then
    match body r with
    | Some p => match data p with Some l => l | None => [] end
    | None => []
    end
  else [].

(** The array the second loop runs over (line 750). *)
Definition geminiList (r : Response) : list ModelJson :=
  if ok r then
    match body r with
    | Some p => match models p with Some l => l | None => [] end
    | None => []
    end
  else [].

(** Lines 717-756: the [entries] map after both loops. *)
Definition collectAll (openaiModelsResp geminiModelsResp : Response)
  : list (string * Entry) :=
  fold_left collectGemini (geminiList geminiModelsResp)
            (fold_left collectOpenAI (openaiList openaiModelsResp) []).

(** The arguments of one call of [collect]. *)
Record Call : Type := {
  callProvider : string;
  callModelID : string;
  callDisplayName : string;
  callSource : string;
  callOwnedBy : string
}.

Definition collectCall (entries : list (string * Entry)) (c : Call)
  : list (string * Entry) :=
  collect entries (callProvider c) (callModelID c) (callDisplayName c)
          (callSource c) (callOwnedBy c).

(** The call the first loop makes for a record, and the call the second
    loop makes. *)
Definition openaiCall (model : ModelJson) : Call :=
  {| callProvider := inferProviderFromModel (id model) (owned_by model ||| "");
     callModelID := id model;
     callDisplayName := display_name model ||| "";
     callSource := "openai";
     callOwnedBy := owned_by model ||| "" |}.

Definition geminiCall (model : ModelJson) : Call :=
  {| callProvider := inferProviderFromModel (name model ||| id model)
                                            (owned_by model ||| "");
     callModelID := name model ||| id model;
     callDisplayName := displayName model ||| display_name model ||| "";
     callSource := "gemini";
     callOwnedBy := owned_by model ||| "" |}.

(** All calls of [collect] for two responses, in the order in which they
    are made. *)
Definition callsOf (openaiModelsResp geminiModelsResp : Response) : list Call :=
  (List.map openaiCall (openaiList openaiModelsResp)
   ++ List.map geminiCall (geminiList geminiModelsResp))%list.

(** The key a call files its record under, and the calls that are not
    skipped and file under a given key. *)
Definition callKey (c : Call) : string :=
  entryKey (callProvider c) (normalizeModelID (callModelID c)).

Definition callsFor (key : string) (cs : list Call) : list Call :=
  List.filter
    (fun c => truthy (normalizeModelID (callModelID c)) && (callKey c =? key)%string)
    cs.

(** The entry a call creates when its key is new (lines 732-738), and the
    entry a later call with the same key leaves (lines 726-729). *)
Definition freshEntry (c : Call) : Entry :=
  {| provider := callProvider c;
     entryId := normalizeModelID (callModelID c);
     entryDisplayName := trim (callDisplayName c ||| "");
     ownedBy := trim (callOwnedBy c ||| "");
     sources := newSet [callSource c] |}.

Definition absorb (existing : Entry) (c : Call) : Entry :=
  {| provider := provider existing;
     entryId := entryId existing;
     entryDisplayName :=
       if negb (truthy (entryDisplayName existing)) && truthy (callDisplayName c)
       then callDisplayName c else entryDisplayName existing;
     ownedBy := ownedBy existing;
     sources := setAdd (sources existing) (callSource c) |}.

(** "The first non-empty display name wins": the name of the first record,
    trimmed, unless that is empty; otherwise the first name among the later
    records that is not empty, as it is. *)
Definition firstTruthy (l : list string) : string :=
  match List.filter truthy l with
  | x :: _ => x
  | [] => ""
  end.


Record ModelOut : Type := {
  outId : string;
  outDisplayName : string;
  outOwnedBy : string;
  outSources : list string
}.

Record ProviderModels : Type := {
  groupProvider : string;
  count : Z;
  groupModels : list ModelOut
}.

Record EndpointStatus : Type := {
  endpointOk : bool;
  endpointStatusCode : Z;
  endpointCount : Z;
  endpointError : string
}.

Record Catalogue : Type := {
  openaiStatus : EndpointStatus;
  geminiStatus : EndpointStatus;
  totalModels : Z;
  providerModels : list ProviderModels
}.

(** Lines 761-766: the object pushed for an entry. *)
Definition modelOut (item : Entry) : ModelOut :=
  {| outId := entryId item;
     outDisplayName := entryDisplayName item;
     outOwnedBy := ownedBy item;
     outSources := sort codeUnitCompare (sources item) |}.

(** Lines 758-768: the lists of models by provider. *)
Definition groupByProvider (entries : list (string * Entry))
  : list (string * list ModelOut) :=
  fold_left
    (fun byProvider item =>
       let list := match mapGet byProvider (provider item) with
                   | Some l => l
                   | None => []
                   end in
       mapSet byProvider (provider item) (list ++ [modelOut item])%list)
    (List.map snd entries) [].

(** The models of a catalogue, each with the provider of its group. *)
Definition listed (groups : list ProviderModels) : list (string * ModelOut) :=
  flat_map (fun grp => List.map (pair (groupProvider grp)) (groupModels grp)) groups.

Definition endpointStatus (r : Response) (listed : option (list ModelJson))
  : EndpointStatus :=
  {| endpointOk := ok r;
     endpointStatusCode := status r;
     endpointCount :=
       if ok r then match listed with
                    | Some l => Z.of_nat (List.length l)
                    | None => 0
                    end
       else 0;
     endpointError := error r |}.

(** Lines 717-812 of [getProviderModels()]: what it returns for the two
    responses.  The fields that echo the clock and the start-up settings
    ([generatedAt], [proxyBase], [authorization]) and the [label] of a group
    are not part of the record. *)
Definition aggregate (h : Host) (openaiModelsResp geminiModelsResp : Response)
  : Catalogue :=
  let entries := collectAll openaiModelsResp geminiModelsResp in
  let byProvider := groupByProvider entries in
  let providerModels :=
    List.map
      (fun provider =>
         let models :=
           sort (fun a b => localeCompare h (outId a) (outId b))
                (match mapGet byProvider provider with Some l => l | None => [] end) in
         {| groupProvider := provider;
            count := Z.of_nat (List.length models);
            groupModels := models |})
      (sort (Health.sortProviders h) (List.map fst byProvider)) in
  {| openaiStatus :=
       endpointStatus openaiModelsResp
         (match body openaiModelsResp with Some p => data p | None => None end);
     geminiStatus :=
       endpointStatus geminiModelsResp
         (match body geminiModelsResp with Some p => models p | None => None end);
     totalModels := fold_left (fun sum item => sum + count item) providerModels 0;
     providerModels := providerModels |}.

(** [Promise.all] over an array of [n] promises: when promise [i] settles
    with [v], [v] is stored at index [i]; the array is handed over once
    every index is filled.  [settlements] lists the promises in the order
    in which they settle. *)
Definition Promise_all {A : Type} (n : nat) (settlements : list (nat * A))
  : option (list A) :=
  let slots :=
    fold_left
      (fun slots '(i, v) =>
         (firstn i slots ++ match skipn i slots with
                            | [] => []
                            | _ :: rest => Some v :: rest
                            end)%list)
      settlements (repeat None n) in
  fold_right
    (fun slot acc => match slot, acc with
                     | Some v, Some l => Some (v :: l)
                     | _, _ => None
                     end)
    (Some []) slots.


End Models.

(** ** A sample runtime *)

(** A runtime and settings to evaluate the definitions on: its [Date.parse]
    knows the timestamps of [dates], its [localeCompare] orders strings by
    code units, and its [JSON.parse] accepts nothing. *)
Module Sample.

Definition dates : list (string * Z) :=
  [ ("2026-10-30T12:00:00.000Z", 1793361600000);
    ("2026-11-01T00:00:00.000Z", 1793491200000);
    ("2026-11-03T00:00:00.000Z", 1793664000000);
    ("2026-11-03T10:00:00.000Z", 1793700000000);
    ("2026-11-05T00:00:00.000Z", 1793836800000) ].

Definition host : Host :=
  {| parseDateString := Js.assoc dates;
     toISOString :=
       fun t => match List.find (fun d => snd d =? t) dates with
                | Some d => fst d
                | None => ""
                end;
     localeCompare := JsString.codeUnitCompare;
     JSON_parse_row := fun _ => None;
     JSON_parse_state := fun _ => None |}.

Definition cfg : Config :=
  {| COMPOSE_FILE := "/app/docker-compose.yml";
     DEFAULT_SERVICE := "api4llm";
     TARGET_CONTAINER := "api4llm";
     DOCKER_MODE := "auto" |}.

(** A token file that expires at 2026-11-03T10:00:00Z. *)
Definition claudeFile : Freshness.AuthFile :=
  {| Freshness.file := "claude.json";
     Freshness.provider := "claude";
     Freshness.email := "dev@example.com";
     Freshness.expiresAt := "2026-11-03T10:00:00.000Z";
     Freshness.lastRefresh := "";
     Freshness.modifiedAt := "2026-11-01T00:00:00.000Z";
     Freshness.size := 512;
     Freshness.parseError := "" |}.

(** A machine on which [docker compose] fails and plain [docker] answers
    with no output; its clock stands still. *)
Definition machine : Proc.Machine unit :=
  {| Proc.exec :=
       fun w cmd args timeoutMs =>
         match args with
         | Proc.ArgsArray ("compose" :: _) =>
             (Some {| Proc.code := 1; Proc.signal := None; Proc.timedOut := false;
                      Proc.stdout := "";
                      Proc.stderr := "no configuration file provided: not found" |}, w)
         | _ =>
             (Some {| Proc.code := 0; Proc.signal := None; Proc.timedOut := false;
                      Proc.stdout := ""; Proc.stderr := "" |}, w)
         end;
     Proc.clock := fun w => ("2026-11-03T00:00:00.000Z", w) |}.

(** A paused container as [docker ps] and [docker inspect] report it. *)
Definition pausedRow : DockerJson.Row :=
  {| DockerJson.Service := ""; DockerJson.Name := ""; DockerJson.Names := "api4llm";
     DockerJson.State := "paused"; DockerJson.Status := "Up 2 minutes (Paused)";
     DockerJson.Image := "api4llm:latest"; DockerJson.CreatedAt := "";
     DockerJson.RunningFor := "3 minutes ago"; DockerJson.ExitCode := None;
     DockerJson.ID := "0123456789ab" |}.

Definition pausedInspect : Service.InspectState :=
  {| Service.inspectStatus := "paused"; Service.inspectRunning := true;
     Service.inspectExitCode := Some 0;
     Service.startedAt := "2026-11-03T00:00:00.000Z";
     Service.finishedAt := "" |}.

(** The buffer that holds the bytes of an ASCII text, and the decoder of
    the sample runtime: buffers of ASCII bytes, which are all the samples
    use, decode to the characters with the same codes. *)
Definition bytes (text : string) : Logs.Buffer := String.list_byte_of_string text.

Definition toString_utf8 (chunk : Logs.Buffer) : string :=
  String.string_of_list_byte chunk.

Definition chunk2 : Logs.Buffer := bytes ("f" ++ String JsString.LF "").
Definition chunkPadded : Logs.Buffer := bytes ("abc" ++ String JsString.LF " de ").

(** A second token file of the same provider, expired on 2026-10-30, and
    one of a provider outside the canonical list. *)
Definition claudeOldFile : Freshness.AuthFile :=
  {| Freshness.file := "claude-old.json";
     Freshness.provider := "claude";
     Freshness.email := "";
     Freshness.expiresAt := "2026-10-30T12:00:00.000Z";
     Freshness.lastRefresh := "";
     Freshness.modifiedAt := "2026-10-30T12:00:00.000Z";
     Freshness.size := 498;
     Freshness.parseError := "" |}.

Definition mistralFile : Freshness.AuthFile :=
  {| Freshness.file := "mistral.json";
     Freshness.provider := "Mistral";
     Freshness.email := "";
     Freshness.expiresAt := "2026-11-05T00:00:00.000Z";
     Freshness.lastRefresh := "";
     Freshness.modifiedAt := "";
     Freshness.size := 300;
     Freshness.parseError := "" |}.

Definition files : list Freshness.AuthFile := [claudeFile; claudeOldFile; mistralFile].

(** The static counts [getAuthMechanisms] passes (lines 1060-1068), for a
    configuration with two proxy keys and one Gemini key. *)
Definition staticCounts : list (string * Z) :=
  [ ("proxy-access", 2); ("gemini", 1); ("claude", 0); ("codex", 0);
    ("openai-compat", 0); ("qwen", 0); ("iflow", 0) ].

(** 2026-11-03T00:00:00Z *)
Definition nowMs : Z := 1793664000000.

(** The model "gpt-4o" as the two listings report it, a pair of records
    without an id, and the first record with a blank display name. *)
Definition gpt4oA : Models.ModelJson :=
  {| Models.id := "gpt-4o"; Models.name := ""; Models.owned_by := "openai";
     Models.display_name := ""; Models.displayName := "" |}.

Definition gpt4oB : Models.ModelJson :=
  {| Models.id := ""; Models.name := "models/gpt-4o"; Models.owned_by := "";
     Models.display_name := ""; Models.displayName := "GPT-4o" |}.




Definition openaiResponse (l : list Models.ModelJson) : Models.Response :=
  {| Models.ok := true; Models.status := 200; Models.error := "";
     Models.body := Some {| Models.data := Some l; Models.models := None |} |}.

Definition geminiResponse (l : list Models.ModelJson) : Models.Response :=
  {| Models.ok := true; Models.status := 200; Models.error := "";
     Models.body := Some {| Models.data := None; Models.models := Some l |} |}.

End Sample.

(** ** The commands a program runs *)

Module Trace.
Import Proc.

(** The [runCommand] calls a program makes on a machine, in order, up to its
    return or to the first call whose promise rejects. *)
Fixpoint calls {W A : Type} (m : Machine W) (p : Proc A) (w : W)
  : list (string * SpawnArgs * Z) :=
  match p with
  | Ret _ => []
  | RunCommand cmd args t k =>
      (cmd, args, t)
      :: match exec m w cmd args t with
         | (Some r, w') => calls m (k r) w'
         | (None, _) => []
         end
  | NewDate k => let (s, w') := clock m w in calls m (k s) w'
  end.

(** The command of [getComposeServiceSummary], line 262. *)
Definition composePsCall (cfg : Config) : string * SpawnArgs * Z :=
  ("docker",
   ArgsArray ["compose"; "-f"; COMPOSE_FILE cfg; "ps"; "--all"; "--format"; "json"],
   15000).

End Trace.

(** ** Labels *)

Module Labels.
Import JsString Js.

(** [PROVIDER_LABELS], lines 43-52. *)
Definition PROVIDER_LABELS : list (string * string) :=
  [ ("proxy-access", "Proxy Access"); ("claude", "Claude"); ("codex", "Codex/OpenAI");
    ("gemini", "Gemini"); ("qwen", "Qwen"); ("iflow", "iFlow");
    ("openai-compat", "OpenAI-Compatible"); ("unknown", "Unknown") ].

(** The class [\w] of a regular expression without flags: [[A-Za-z0-9_]]. *)
Definition isWordChar (c : ascii) : bool :=
  let n := N_of_ascii c in
  ((97 <=? n) && (n <=? 122) || (65 <=? n) && (n <=? 90)
   || (48 <=? n) && (n <=? 57) || (n =? 95))%N.

(** [c.toUpperCase()] for a character of [\w]. *)
Definition upperWordChar (c : ascii) : ascii :=
  let n := N_of_ascii c in
  if ((97 <=? n) && (n <=? 122))%N then ascii_of_N (n - 32) else c.

(** [s.replaceAll("-", " ")] *)
Definition hyphensToSpaces (s : string) : string :=
  map (fun c => if Ascii.eqb c "-"%char then " "%char else c) s.

(** [s.replace(/\b\w/g, (c) => c.toUpperCase())]: a word character is
    matched where the character before it is none (or there is none);
    [afterWord] tells whether the character before is a word character. *)
Fixpoint capitalizeWords (afterWord : bool) (s : string) : string :=
  match s with
  | EmptyString => EmptyString
  | String c s' =>
      String (if isWordChar c && negb afterWord then upperWordChar c else c)
             (capitalizeWords (isWordChar c) s')
  end.

(** The value of [formatProviderLabel(provider)]: a text, or the member of
    [Object.prototype] that the lookup in [PROVIDER_LABELS] finds for a
    provider named like one. *)
Inductive Label : Type :=
| LabelText (text : string)
| LabelInherited (v : Inherited).

(** [formatProviderLabel(provider)], lines 591-593.  The labels of the table
    are not empty, so [||] keeps them. *)
Definition formatProviderLabel (provider : string) : Label :=
  match get PROVIDER_LABELS provider with
  | Own label => LabelText label
  | FromPrototype v => LabelInherited v
  | Undefined => LabelText (capitalizeWords false (hyphensToSpaces provider))
  end.

End Labels.

(** ** Request routing *)

Module Router.
Import JsString.

(** [isLocalRequest(req)], lines 67-70; [addr] is
    [req.socket?.remoteAddress || ""]. *)
Definition isLocalRequest (addr : string) : bool :=
  (addr =? "127.0.0.1")%string || (addr =? "::1")%string
  || (addr =? "::ffff:127.0.0.1")%string.

(** What the request handler does with a request. *)
Inductive Routed : Type :=
| Forbidden                          (* 403, "Local access only" *)
| ServeSummary                       (* [getServiceSummary()] *)
| ServeAuthMechanisms                (* [getAuthMechanisms()] *)
| ServeProviderModels                (* [getProviderModels()] *)
| ServeLogs (container : string)     (* [streamLogs(req, res, container)] *)
| RunAction (action : string)        (* [runContainerAction(action)] *)
| ServeHealthz
| ServeStatic (urlPath : string).    (* [serveStatic(res, pathname)] *)

(** The request handler, lines 1239-1286, as the choice it makes.
    [allowRemote] is [ALLOW_REMOTE]; [reqMethod] is [req.method] (empty when
    absent), [pathname] the path of the parsed URL, [addr] the remote address,
    [containerQuery] is [searchParams.get("container")]. *)
Definition route (cfg : Config) (allowRemote : bool) (reqMethod pathname addr : string)
    (containerQuery : option string) : Routed :=
  let method := reqMethod ||| "GET" in
  if startsWith pathname "/api/" && negb allowRemote && negb (isLocalRequest addr)
  then Forbidden
  else if (method =? "GET")%string && (pathname =? "/api/summary")%string
  then ServeSummary
  else if (method =? "GET")%string && (pathname =? "/api/auth-mechanisms")%string
  then ServeAuthMechanisms
  else if (method =? "GET")%string && (pathname =? "/api/provider-models")%string
  then ServeProviderModels
  else if (method =? "GET")%string && (pathname =? "/api/logs/stream")%string
  then ServeLogs (match containerQuery with
                  | Some name => name ||| TARGET_CONTAINER cfg
                  | None => TARGET_CONTAINER cfg
                  end)
  else if (method =? "POST")%string && startsWith pathname "/api/container/"
  then RunAction (toLowerCase (trim (slice 15 pathname)))
  else if (method =? "GET")%string && (pathname =? "/api/healthz")%string
  then ServeHealthz
  else ServeStatic pathname.

(** The status of the answer to an action, line 1276. *)
Definition actionStatus (result : Action.ActionResult) : Z :=
  if Action.ok result then 200 else 500.

End Router.

(** ** Authentication mechanisms *)

Module Auth.
Import JsString Freshness Health.

(** The numbers [getAuthMechanisms] reads off the configuration, lines
    995-1000. *)
Record KeyCounts : Type := {
  apiKeys : Z;
  geminiApiKeys : Z;
  glApiKeys : Z;
  claudeApiKeys : Z;
  codexApiKeys : Z;
  openAICompat : Z
}.

(** The object passed to [buildProviderHealth], lines 1060-1068. *)
Definition staticCountsOf (k : KeyCounts) : list (string * Z) :=
  [ ("proxy-access", apiKeys k);
    ("gemini", geminiApiKeys k + glApiKeys k);
    ("claude", claudeApiKeys k);
    ("codex", codexApiKeys k);
    ("openai-compat", openAICompat k);
    ("qwen", 0);
    ("iflow", 0) ].

Record Mechanism : Type := {
  mechanismId : string;
  mechanismCount : Z;
  configured : bool;
  mechanismSource : string
}.

(** The [mechanisms] array, lines 1009-1058, without the texts shown to the
    reader ([label], [description]). *)
Definition mechanisms (k : KeyCounts) (oauthFiles : list AuthFile) : list Mechanism :=
  let files := Z.of_nat (List.length oauthFiles) in
  [ {| mechanismId := "proxy-access-keys"; mechanismCount := apiKeys k;
       configured := 0 <? apiKeys k; mechanismSource := "config.yaml" |};
    {| mechanismId := "gemini-api-keys";
       mechanismCount := geminiApiKeys k + glApiKeys k;
       configured := 0 <? geminiApiKeys k + glApiKeys k;
       mechanismSource := "config.yaml" |};
    {| mechanismId := "claude-api-keys"; mechanismCount := claudeApiKeys k;
       configured := 0 <? claudeApiKeys k; mechanismSource := "config.yaml" |};
    {| mechanismId := "codex-api-keys"; mechanismCount := codexApiKeys k;
       configured := 0 <? codexApiKeys k; mechanismSource := "config.yaml" |};
    {| mechanismId := "openai-compatibility"; mechanismCount := openAICompat k;
       configured := 0 <? openAICompat k; mechanismSource := "config.yaml" |};
    {| mechanismId := "oauth-auth-files"; mechanismCount := files;
       configured := 0 <? files; mechanismSource := "data/" |} ].

(** The [providerHealth] of [getAuthMechanisms], line 1060. *)
Definition providerHealth (h : Host) (k : KeyCounts) (oauthFiles : list AuthFile)
    (nowMs : Z) : list ProviderHealth :=
  buildProviderHealth h oauthFiles (staticCountsOf k) nowMs.

End Auth.

(** ** Character classes of the line-oriented code *)

Module Chars.
Import JsString.

(** Any character but a line feed. *)
Definition notLF (c : ascii) : bool := negb (Ascii.eqb c LF).

End Chars.

(** ** Counting list entries in the configuration *)

Module Yaml.
Import JsString.

(** The number of white space characters a line starts with: the length of
    the match of the pattern of line 412. *)
Fixpoint indentOf (line : string) : nat :=
  match line with
  | String c rest => if isWhiteSpace c then S (indentOf rest) else O
  | EmptyString => O
  end.

(** The comment test of lines 392 and 408: the first character that is not
    white space is a hash. *)
Definition isComment (line : string) : bool :=
  match trimStart line with
  | String c _ => Ascii.eqb c "#"
  | EmptyString => false
  end.

(** The characters [.] does not match; below 256, LF and CR. *)
Definition isLineTerminator (c : ascii) : bool := Ascii.eqb c LF || Ascii.eqb c CR.

(** The text before the first [sep] and the text after it. *)
Fixpoint cut (sep : ascii) (s : string) : option (string * string) :=
  match s with
  | EmptyString => None
  | String c rest =>
      if Ascii.eqb c sep then Some (EmptyString, rest)
      else match cut sep rest with
           | Some (a, b) => Some (String c a, b)
           | None => None
           end
  end.

(** The groups of a match of line 395: the length of group 1, group 2 and
    group 3. *)
Record KeyLine : Type := {
  indent : nat;
  rawKey : string;
  rawValue : string
}.

(** The match of line 395; its pattern is: start of input, group 1 of white
    space, group 2 of one character that is neither colon nor hash followed
    by characters that are no colon, a colon, white space, group 3 of
    characters [.] matches, end of input.  Group 1 takes the
    white space at the start of the line, all of it if the character after it
    can start group 2 (it is neither a colon nor a hash), and all but the last
    one otherwise: a white space character is neither a colon nor a hash, so
    it can start group 2 itself.  Group 2 runs up to the first colon after
    its first character.  After the colon and the white space that follows
    it, group 3 must reach the end of the line, so no line terminator may
    be left there. *)
Definition matchKeyLine (line : string) : option KeyLine :=
  let w := indentOf line in
  let oneLess := match w with S w' => Some w' | O => None end in
  let start :=
    match slice w line with
    | String c _ =>
        if negb (Ascii.eqb c ":" || Ascii.eqb c "#") then Some w else oneLess
    | EmptyString => oneLess
    end in
  match start with
  | None => None
  | Some k =>
      match slice k line with
      | String c0 after =>
          match cut ":" after with
          | Some (keyRest, tail) =>
              let value := trimStart tail in
              if forallb (fun c => negb (isLineTerminator c)) value
              then Some {| indent := k; rawKey := String c0 keyRest; rawValue := value |}
              else None
          | None => None
          end
      | EmptyString => None
      end
  end.

(** The inner loop of lines 406-417 over the lines after the key line. *)
Fixpoint takeBlock (indent : nat) (lines : list string) : list string :=
  match lines with
  | [] => []
  | next :: rest =>
      if (trim next =? "")%string || isComment next then next :: takeBlock indent rest
      else if (indentOf next <=? indent)%nat then []
      else next :: takeBlock indent rest
  end.

Record YamlSection : Type := {
  inlineValue : string;
  block : list string
}.

(** The outer loop of lines 390-419 from a line on. *)
Fixpoint findSection (key : string) (lines : list string) : YamlSection :=
  match lines with
  | [] => {| inlineValue := ""; block := [] |}
  | line :: rest =>
      if isComment line then findSection key rest
      else
        match matchKeyLine line with
        | None => findSection key rest
        | Some m =>
            if negb (trim (rawKey m) =? key)%string then findSection key rest
            else {| inlineValue := trim (rawValue m);
                    block := takeBlock (indent m) rest |}
        end
  end.

(** [getYamlSectionLines(text, key)], lines 388-421. *)
Definition getYamlSectionLines (text key : string) : YamlSection :=
  findSection key (splitLines text).

(** [s.split(sep)] for a separator of one character. *)
Fixpoint splitChar (sep : ascii) (s : string) : list string :=
  match s with
  | EmptyString => [EmptyString]
  | String c rest =>
      if Ascii.eqb c sep then EmptyString :: splitChar sep rest
      else match splitChar sep rest with
           | p :: ps => String c p :: ps
           | [] => [String c EmptyString]
           end
  end.

(** The single and the double quote. *)
Definition isQuote (c : ascii) : bool := Ascii.eqb c "'" || Ascii.eqb c "034".

Fixpoint dropLastQuote (s : string) : string :=
  match s with
  | EmptyString => EmptyString
  | String c EmptyString => if isQuote c then EmptyString else s
  | String c rest => String c (dropLastQuote rest)
  end.

(** The replacement of lines 432 and 435, which deletes a quote at the start
    of input and a quote at the end of input: a quote at the start is
    removed, and a quote at the end of what is left. *)
Definition stripQuotes (s : string) : string :=
  dropLastQuote
    match s with
    | String c rest => if isQuote c then rest else s
    | EmptyString => EmptyString
    end.

(** [s.slice(0, -1)] *)
Fixpoint dropLast (s : string) : string :=
  match s with
  | EmptyString => EmptyString
  | String c EmptyString => EmptyString
  | String c rest => String c (dropLast rest)
  end.

(** [s.endsWith(c)] for one character. *)
Fixpoint endsWithChar (s : string) (c : ascii) : bool :=
  match s with
  | EmptyString => false
  | String d EmptyString => Ascii.eqb d c
  | String _ rest => endsWithChar rest c
  end.

(** [parseInlineList(value)], lines 423-436. *)
Definition parseInlineList (value : string) : list string :=
  let cleaned := trim (List.hd "" (splitChar "#" value)) in
  if (cleaned =? "")%string || (cleaned =? "[]")%string then []
  else if startsWith cleaned "[" && endsWithChar cleaned "]"
  then List.filter truthy
         (List.map (fun part => stripQuotes (trim part))
                   (splitChar "," (dropLast (slice 1 cleaned))))
  else List.filter truthy [stripQuotes cleaned].

(** The match of line 446 (white space, then a hyphen): the length of its
    group 1. *)
Definition listItemIndent (line : string) : option nat :=
  match trimStart line with
  | String c _ => if Ascii.eqb c "-" then Some (indentOf line) else None
  | EmptyString => None
  end.

(** The body of the loop of lines 445-459 on the pair of [listIndent] and
    [count]. *)
Definition countStep (acc : Z * Z) (line : string) : Z * Z :=
  let '(listIndent, count) := acc in
  match listItemIndent line with
  | None => acc
  | Some indent =>
      if listIndent =? -1 then (Z.of_nat indent, count + 1)
      else if Z.of_nat indent =? listIndent then (listIndent, count + 1)
      else acc
  end.

(** [countYamlListEntries(text, key)], lines 438-461. *)
Definition countYamlListEntries (text key : string) : Z :=
  let section := getYamlSectionLines text key in
  if truthy (inlineValue section)
  then Z.of_nat (List.length (parseInlineList (inlineValue section)))
  else snd (fold_left countStep (block section) (-1, 0)).

(** The numbers of lines 995-1000; [configText] is [None] when the
    configuration file cannot be read. *)
Definition keyCountsOf (configText : option string) : Auth.KeyCounts :=
  let count key := match configText with
                   | Some text => countYamlListEntries text key
                   | None => 0
                   end in
  {| Auth.apiKeys := count "api-keys";
     Auth.geminiApiKeys := count "gemini-api-key";
     Auth.glApiKeys := count "generative-language-api-key";
     Auth.claudeApiKeys := count "claude-api-key";
     Auth.codexApiKeys := count "codex-api-key";
     Auth.openAICompat := count "openai-compatibility" |}.

End Yaml.

(** ** Configuration texts *)

(** Texts to state what the counting does on: keys and items written
    without white space, quotes, colons, hashes, commas or brackets; a list
    written on one line; the lines of a list written as a block. *)
Module YamlText.
Import JsString Yaml.

Definition plainChar (c : ascii) : bool :=
  negb (isWhiteSpace c || isQuote c || Ascii.eqb c ":" || Ascii.eqb c "#"
        || Ascii.eqb c "," || Ascii.eqb c "[" || Ascii.eqb c "]").

Definition plain (s : string) : bool := truthy s && forallb plainChar s.

(** A word of an inline list: not empty, without white space, comma or
    hash. *)
Definition tokenChar (c : ascii) : bool :=
  negb (isWhiteSpace c || Ascii.eqb c "#" || Ascii.eqb c ",").

Definition token (s : string) : bool := truthy s && forallb tokenChar s.

(** [[a, b, c]] *)
Definition inlineList (items : list string) : string :=
  "[" ++ String.concat ", " items ++ "]".

(** An item between two quotes [q]. *)
Definition quoted (q : ascii) (item : string) : string :=
  String q (item ++ String q EmptyString).

(** The lines of a block list: for every item a line [pad ++ "-" ++ text],
    followed by the lines that belong to the item. *)
Definition blockLines (pad : string) (items : list (string * list string))
  : list string :=
  flat_map (fun item => (pad ++ "-" ++ fst item) :: snd item) items.

(** The key the outer loop of [getYamlSectionLines] reads off a line, if it
    reads one. *)
Definition lineKey (line : string) : option string :=
  if isComment line then None
  else match matchKeyLine line with
       | Some m => Some (trim (rawKey m))
       | None => None
       end.

End YamlText.

(** ** More sample values *)

Module Fixtures.

(** A machine on which every command exits with 0 and prints nothing. *)
Definition quietMachine : Proc.Machine unit :=
  {| Proc.exec :=
       fun w cmd args timeoutMs =>
         (Some {| Proc.code := 0; Proc.signal := None; Proc.timedOut := false;
                  Proc.stdout := ""; Proc.stderr := "" |}, w);
     Proc.clock := fun w => ("2026-11-03T00:00:00.000Z", w) |}.

(** Settings that force the direct backend. *)
Definition containerCfg : Config :=
  {| COMPOSE_FILE := "/app/docker-compose.yml";
     DEFAULT_SERVICE := "api4llm";
     TARGET_CONTAINER := "api4llm";
     DOCKER_MODE := "container" |}.

(** A token file that could not be parsed. *)
Definition brokenFile : Freshness.AuthFile :=
  {| Freshness.file := "gemini-broken.json";
     Freshness.provider := "gemini";
     Freshness.email := "";
     Freshness.expiresAt := "";
     Freshness.lastRefresh := "";
     Freshness.modifiedAt := "2026-11-01T00:00:00.000Z";
     Freshness.size := 17;
     Freshness.parseError := "Unexpected end of JSON input" |}.

(** A token file without an expiry, refreshed on 2026-11-01. *)
Definition refreshedFile : Freshness.AuthFile :=
  {| Freshness.file := "qwen.json";
     Freshness.provider := "qwen";
     Freshness.email := "";
     Freshness.expiresAt := "";
     Freshness.lastRefresh := "2026-11-01T00:00:00.000Z";
     Freshness.modifiedAt := "2026-10-30T12:00:00.000Z";
     Freshness.size := 220;
     Freshness.parseError := "" |}.

(** A token file with neither expiry nor refresh time, written on
    2026-10-30. *)
Definition bareFile : Freshness.AuthFile :=
  {| Freshness.file := "iflow.json";
     Freshness.provider := "iflow";
     Freshness.email := "";
     Freshness.expiresAt := "";
     Freshness.lastRefresh := "";
     Freshness.modifiedAt := "2026-10-30T12:00:00.000Z";
     Freshness.size := 64;
     Freshness.parseError := "" |}.

Definition files : list Freshness.AuthFile :=
  [Sample.claudeFile; Sample.claudeOldFile; brokenFile; refreshedFile; bareFile].

(** The entry of [claude] for these files on 2026-11-03. *)
Definition claudeEntry : Health.ProviderHealth :=
  Health.providerEntry Sample.host (Health.groupFiles files) Sample.staticCounts
                       Sample.nowMs "claude".

Definition keyCounts : Auth.KeyCounts :=
  {| Auth.apiKeys := 2; Auth.geminiApiKeys := 1; Auth.glApiKeys := 1;
     Auth.claudeApiKeys := 0; Auth.codexApiKeys := 3; Auth.openAICompat := 0 |}.

(** The entry of [codex] in the provider health of [getAuthMechanisms] for
    these files and counts. *)
Definition codexEntry : Health.ProviderHealth :=
  Health.providerEntry Sample.host (Health.groupFiles files)
                       (Auth.staticCountsOf keyCounts) Sample.nowMs "codex".

(** Two listings with a model in common. *)
Definition openaiListing : Models.Response :=
  Sample.openaiResponse
    [ Sample.gpt4oA;
      {| Models.id := "claude-sonnet"; Models.name := ""; Models.owned_by := "anthropic";
         Models.display_name := "Claude Sonnet"; Models.displayName := "" |} ].

Definition geminiListing : Models.Response :=
  Sample.geminiResponse
    [ Sample.gpt4oB;
      {| Models.id := ""; Models.name := "models/gemini-pro"; Models.owned_by := "";
         Models.display_name := ""; Models.displayName := "Gemini Pro" |} ].

(** A configuration text: its lines, and the text with a line feed after
    every line. *)
Definition configLines : list string :=
  [ "# proxy settings";
    "port: 8317";
    "api-keys:";
    "  - alpha";
    "  - beta";
    "claude-api-key:";
    "  - api-key: sk-1";
    "    models:";
    "      - sonnet";
    "  - api-key: sk-2";
    "gemini-api-key: [g1, g2, g3]";
    "codex-api-key:";
    "- c1" ].

Definition configText : string :=
  String.concat "" (List.map (fun line => line ++ String JsString.LF "") configLines).

(** The model the two listings have in common, as the catalogue lists it. *)
Definition gpt4oOut : Models.ModelOut :=
  {| Models.outId := "gpt-4o"; Models.outDisplayName := "GPT-4o";
     Models.outOwnedBy := "openai"; Models.outSources := ["gemini"; "openai"] |}.

End Fixtures.

(* ================================================================== *)
(** * Theorems *)
(* ================================================================== *)

(** ** Strings *)

Section StringFacts.
Import JsString.

Lemma or_empty_r (s : string) : s ||| "" = s.
Proof. destruct s; reflexivity. Qed.

Lemma or_truthy (a b : string) : a <> "" -> a ||| b = a.
Proof. destruct a; [congruence | reflexivity]. Qed.

Lemma truthy_true_iff (s : string) : truthy s = true <-> s <> "".
Proof.
  unfold truthy. destruct (String.eqb_spec s ""); simpl; split; congruence.
Qed.

Lemma forallb_filter (p : ascii -> bool) (s : string) :
  forallb p (filter p s) = true.
Proof.
  induction s as [|c s IH]; simpl; [reflexivity|].
  destruct (p c) eqn:E; simpl; [rewrite E|]; exact IH.
Qed.

End StringFacts.

(** ** Provider normalization *)

Section ProviderFacts.
Import JsString Provider.

(** What [normalizeProviderName] computes, rule by rule. *)
Lemma normalizeProviderName_first_match (raw : string) :
  normalizeProviderName raw =
    let value := toLowerCase (trim raw) in
    if (value =? "")%string then "unknown"
    else match first_match provider_rules value with
         | Some r => r
         | None => value
         end.
Proof.
  unfold normalizeProviderName. rewrite or_empty_r. cbv zeta.
  set (value := toLowerCase (trim raw)).
  unfold truthy. destruct (value =? "")%string; simpl; [reflexivity|].
  repeat match goal with
         | |- context [if ?b then _ else _] => destruct b; simpl; try reflexivity
         end.
Qed.

Lemma first_match_canonical (v r : string) :
  first_match provider_rules v = Some r -> In r PROVIDER_ORDER.
Proof.
  unfold provider_rules. simpl.
  repeat match goal with
         | |- context [if ?b then _ else _] => destruct b
         end;
    intros E; inversion E; subst; simpl; tauto.
Qed.

(** C4 (as amended): normalization lower-cases and trims its input and then
    applies the rules of [provider_rules] in order, the first one that
    matches deciding; an empty value gives [unknown], and a value no rule
    matches is returned as it is.  So the result is one of the eight
    canonical identifiers or the trimmed, lower-cased input.  A value that
    contains "claude" or "anthropic" gives [claude] unless it contains
    "proxy"; a value that contains "codex" or "openai", or is exactly "gpt",
    gives [codex] unless an earlier rule matched. *)
Theorem C4_normalizeProviderName_first_match_wins (raw : string) :
  let value := toLowerCase (trim raw) in
  let result := normalizeProviderName raw in
  result = (if (value =? "")%string then "unknown"
            else match first_match provider_rules value with
                 | Some r => r
                 | None => value
                 end)
  /\ (In result PROVIDER_ORDER \/ result = value)
  /\ (includes value "proxy" = false ->
      includes value "claude" || includes value "anthropic" = true ->
      result = "claude")
  /\ (includes value "proxy" = false ->
      includes value "claude" || includes value "anthropic" = false ->
      includes value "codex" || includes value "openai" || (value =? "gpt")%string = true ->
      result = "codex").
Proof.
  intros value result.
  assert (R : result = if (value =? "")%string then "unknown"
                       else match first_match provider_rules value with
                            | Some r => r
                            | None => value
                            end)
    by apply normalizeProviderName_first_match.
  split; [exact R|].
  split.
  { rewrite R. destruct (value =? "")%string; [left; simpl; tauto|].
    destruct (first_match provider_rules value) as [r|] eqn:E.
    - left. eapply first_match_canonical; eauto.
    - right; reflexivity. }
  split.
  - intros Hp Hc. rewrite R.
    destruct (String.eqb_spec value "") as [E|_].
    { rewrite E in Hc. discriminate Hc. }
    destruct (String.eqb_spec value "api-keys") as [E|Ek].
    { rewrite E in Hc. discriminate Hc. }
    destruct (String.eqb_spec value "api_keys") as [E|Eu].
    { rewrite E in Hc. discriminate Hc. }
    simpl. rewrite Hp.
    destruct (String.eqb_spec value "api-keys"); [contradiction|].
    destruct (String.eqb_spec value "api_keys"); [contradiction|].
    simpl. rewrite Hc. reflexivity.
  - intros Hp Hc Hx. rewrite R.
    destruct (String.eqb_spec value "") as [E|_].
    { rewrite E in Hx. discriminate Hx. }
    destruct (String.eqb_spec value "api-keys") as [E|Ek].
    { rewrite E in Hx. discriminate Hx. }
    destruct (String.eqb_spec value "api_keys") as [E|Eu].
    { rewrite E in Hx. discriminate Hx. }
    simpl. rewrite Hp.
    destruct (String.eqb_spec value "api-keys"); [contradiction|].
    destruct (String.eqb_spec value "api_keys"); [contradiction|].
    simpl. rewrite Hc. rewrite Hx. reflexivity.
Qed.

(** C4 (as stated) fails: "Mistral" is normalized to "mistral", which is
    none of the eight identifiers; "gpt-4" contains "gpt" and is returned
    as it is; "claude-proxy" contains "claude" and gives [proxy-access]. *)
Lemma C4_counterexample :
  normalizeProviderName "Mistral" = "mistral"
  /\ ~ In "mistral" PROVIDER_ORDER
  /\ includes "gpt-4" "gpt" = true
  /\ normalizeProviderName "gpt-4" = "gpt-4"
  /\ includes "claude-proxy" "claude" = true
  /\ normalizeProviderName "claude-proxy" = "proxy-access".
Proof.
  repeat split; try reflexivity.
  simpl. intros H.
  repeat (destruct H as [H|H]; [discriminate H|]). exact H.
Qed.

End ProviderFacts.

(** ** Credential freshness *)

Section FreshnessFacts.
Import JsString Freshness.
Variable h : Host.

(** The file-level classification when the expiry timestamp decides. *)
Lemma evaluate_with_expiry (f : AuthFile) (nowMs expiryMs : Z) :
  parseError f = "" ->
  Date_parse h (expiresAt f) = Some expiryMs ->
  level (evaluateOAuthFileFreshness h f nowMs) =
    if expiryMs - nowMs <=? 0 then expired
    else if expiryMs - nowMs <=? DAY_MS then warning
    else fresh.
Proof.
  intros Hp He. unfold evaluateOAuthFileFreshness.
  rewrite Hp. simpl truthy. cbv iota.
  assert (Ht : truthy (expiresAt f) = true).
  { apply truthy_true_iff. intros E. rewrite E in He. discriminate He. }
  rewrite Ht, He. cbv zeta.
  destruct (expiryMs - nowMs <=? 0); [reflexivity|].
  destruct (expiryMs - nowMs <=? DAY_MS); reflexivity.
Qed.

(** C1: a file with no parse error whose expiry timestamp parses to
    [expiryMs] is [expired] when [expiryMs] is at or before [nowMs],
    [warning] when it is after [nowMs] and at most 24 hours away, and
    [fresh] when it is more than 24 hours away. *)
Theorem C1_expiry_freshness (f : AuthFile) (nowMs expiryMs : Z) :
  parseError f = "" ->
  Date_parse h (expiresAt f) = Some expiryMs ->
  (expiryMs <= nowMs ->
   level (evaluateOAuthFileFreshness h f nowMs) = expired)
  /\ (nowMs < expiryMs <= nowMs + 24 * 60 * 60 * 1000 ->
      level (evaluateOAuthFileFreshness h f nowMs) = warning)
  /\ (nowMs + 24 * 60 * 60 * 1000 < expiryMs ->
      level (evaluateOAuthFileFreshness h f nowMs) = fresh).
Proof.
  intros Hp He.
  rewrite (evaluate_with_expiry f nowMs expiryMs Hp He).
  unfold DAY_MS.
  repeat split; intros Hr;
    destruct (Z.leb_spec (expiryMs - nowMs) 0);
    destruct (Z.leb_spec (expiryMs - nowMs) (24 * 60 * 60 * 1000));
    try reflexivity; lia.
Qed.

End FreshnessFacts.

(** The sample token file expires ten hours after 2026-11-03T00:00:00Z. *)
Lemma C1_expiry_freshness_witness :
  Freshness.parseError Sample.claudeFile = ""
  /\ Date_parse Sample.host (Freshness.expiresAt Sample.claudeFile) = Some 1793700000000
  /\ Freshness.level
       (Freshness.evaluateOAuthFileFreshness Sample.host Sample.claudeFile 1793664000000)
     = Freshness.warning.
Proof.
  split; [reflexivity|]. split; [reflexivity|].
  apply (C1_expiry_freshness Sample.host Sample.claudeFile 1793664000000 1793700000000);
    [reflexivity | reflexivity | lia].
Defined.

(** ** Log stream: the container name *)

Section LogsNameFacts.
Import JsString Logs.
Variable cfg : Config.

(** Whatever the request, the name handed to [docker logs] has only
    characters of the class. *)
Lemma safeContainer_allowed (containerName : string) :
  forallb allowedChar (safeContainer cfg containerName) = true.
Proof. apply forallb_filter. Qed.

(** C10: whatever the request, the command the route starts is [docker logs]
    with a last argument all of whose characters are of the class
    [[a-zA-Z0-9_.-]].  For a container name in the request the argument is
    that name without the characters outside the class; when the request
    has no name or an empty one, it is [TARGET_CONTAINER], filtered in the
    same way. *)
Theorem C10_logs_container_argument (query : option string) :
  let requested := match query with
                   | Some (String c rest) => String c rest
                   | _ => TARGET_CONTAINER cfg
                   end in
  fst (logsRoute cfg query)
    = ("docker", ["logs"; "--timestamps"; "--tail"; "200"; "--follow";
                  filter allowedChar requested])
  /\ forallb allowedChar (filter allowedChar requested) = true
  /\ (forall name : string,
        query = Some name -> name <> "" ->
        fst (logsRoute cfg query)
        = ("docker", ["logs"; "--timestamps"; "--tail"; "200"; "--follow";
                      filter allowedChar name])).
Proof.
  intros requested.
  assert (R : fst (logsRoute cfg query)
              = ("docker", ["logs"; "--timestamps"; "--tail"; "200"; "--follow";
                            filter allowedChar requested])).
  { assert (Hor : forall x : string, x ||| x = x)
      by (intros x; unfold JsString.or; destruct (truthy x); reflexivity).
    unfold requested, logsRoute, streamLogs, logsArgs, safeContainer. simpl.
    destruct query as [[|c rest]|]; simpl; rewrite ?Hor; reflexivity. }
  split; [exact R|]. split; [apply forallb_filter|].
  intros name Hq Hn. rewrite R. unfold requested. rewrite Hq.
  destruct name; [congruence | reflexivity].
Qed.

End LogsNameFacts.

Lemma C10_logs_container_argument_witness :
  fst (Logs.logsRoute Sample.cfg (Some "api4llm; rm -rf /"))
  = ("docker", ["logs"; "--timestamps"; "--tail"; "200"; "--follow"; "api4llmrm-rf"])
  /\ JsString.forallb Logs.allowedChar "api4llmrm-rf" = true
  /\ fst (Logs.logsRoute Sample.cfg None)
     = ("docker", ["logs"; "--timestamps"; "--tail"; "200"; "--follow"; "api4llm"])
  /\ fst (Logs.logsRoute Sample.cfg (Some ""))
     = ("docker", ["logs"; "--timestamps"; "--tail"; "200"; "--follow"; "api4llm"]).
Proof.
  destruct (C10_logs_container_argument Sample.cfg (Some "api4llm; rm -rf /"))
    as [H1 [H2 _]].
  split; [exact H1|]. split; [exact H2|]. split.
  - exact (proj1 (C10_logs_container_argument Sample.cfg None)).
  - exact (proj1 (C10_logs_container_argument Sample.cfg (Some ""))).
Defined.

(** ** Service state *)

Section ServiceFacts.
Import JsString Proc Service.
Variable cfg : Config.
Variable h : Host.

Lemma running_iff_state (s : string) :
  (s =? "running")%string = true <-> s ||| "unknown" = "running".
Proof.
  destruct (String.eqb_spec s "running") as [E|E].
  - subst s. split; reflexivity.
  - split; [discriminate|].
    destruct s as [|c s]; [discriminate|].
    change (String c s ||| "unknown") with (String c s). congruence.
Qed.

(** C7 (as amended): a record of the compose normalizer is [running] if and
    only if its state is "running", and so is a record of the container
    normalizer when the container could not be inspected; when it was
    inspected, [running] is the [Running] flag of the inspection, whatever
    the state. *)
Theorem C7_running_flag (row : DockerJson.Row) :
  (running (normalizeComposeServiceState cfg row) = true
   <-> state (normalizeComposeServiceState cfg row) = "running")
  /\ (running (normalizeContainerState cfg row None) = true
      <-> state (normalizeContainerState cfg row None) = "running")
  /\ (forall i : InspectState,
        running (normalizeContainerState cfg row (Some i)) = inspectRunning i).
Proof.
  split; [|split].
  - unfold normalizeComposeServiceState; simpl. apply running_iff_state.
  - unfold normalizeContainerState; simpl. apply running_iff_state.
  - intros i. reflexivity.
Qed.

Lemma run_bind {W A B : Type} (m : Machine W) (p : Proc A) (f : A -> Proc B) (w : W) :
  run m (x <- p ;; f x) w =
    match run m p w with
    | (Some a, w') => run m (f a) w'
    | (None, w') => (None, w')
    end.
Proof.
  revert w. induction p as [a | cmd args t k IH | k IH]; intros w; simpl.
  - reflexivity.
  - destruct (exec m w cmd args t) as [[r|] w']; [apply IH | reflexivity].
  - destruct (clock m w) as [s w']. apply IH.
Qed.

(** A summary of the direct query that reports docker as available carries
    no error text. *)
Lemma container_summary_no_error {W : Type} (m : Machine W) (w w' : W)
    (container : Summary) :
  run m (getContainerServiceSummary cfg h) w = (Some container, w') ->
  dockerAvailable container = true ->
  commandError container = "".
Proof.
  unfold getContainerServiceSummary, runCommand, newDateISO. simpl.
  destruct (exec m w _ _ _) as [[r|] w1]; [|discriminate].
  destruct (code r =? 0); simpl.
  - destruct (splitJSONLines h (stdout r)) as [|row rows]; simpl.
    + destruct (clock m w1) as [s w2]. intros E; inversion E; subst. reflexivity.
    + rewrite run_bind.
      destruct (run m (inspectContainerState h _) w1) as [[i|] w2]; [|discriminate].
      simpl. destruct (clock m w2) as [s w3]. intros E; inversion E; subst. reflexivity.
  - destruct (clock m w1) as [s w2]. intros E; inversion E; subst. discriminate.
Qed.

(** C3 (as amended): in automatic mode, when the compose query reports
    docker as unavailable and the direct query that follows reports it as
    available, the resolver returns the summary of the direct query with
    its [commandError] replaced by the error text of the compose query when
    that text is not empty; [dockerAvailable] is that of the direct query,
    [true]. *)
Theorem C3_automatic_fallback_summary {W : Type} (m : Machine W) (w w1 w2 : W)
    (compose container : Summary) :
  DOCKER_MODE cfg <> "compose" ->
  DOCKER_MODE cfg <> "container" ->
  run m (getComposeServiceSummary cfg h) w = (Some compose, w1) ->
  dockerAvailable compose = false ->
  run m (getContainerServiceSummary cfg h) w1 = (Some container, w2) ->
  dockerAvailable container = true ->
  exists result : Summary,
    run m (getServiceSummary cfg h) w = (Some result, w2)
    /\ result = (if truthy (commandError compose)
                 then setCommandError container (commandError compose)
                 else container)
    /\ dockerAvailable result = dockerAvailable container.
Proof.
  intros Hm1 Hm2 Hc Hcu Hd Hda.
  pose proof (container_summary_no_error m w1 w2 container Hd Hda) as He.
  unfold getServiceSummary.
  destruct (String.eqb_spec (DOCKER_MODE cfg) "compose"); [contradiction|].
  destruct (String.eqb_spec (DOCKER_MODE cfg) "container"); [contradiction|].
  rewrite run_bind, Hc, Hcu, run_bind, Hd, Hda, He. simpl.
  destruct (truthy (commandError compose)); simpl;
    eexists; (split; [reflexivity | split; [reflexivity | assumption || reflexivity]]).
Qed.

End ServiceFacts.

(** C7 (as stated) fails for the container normalizer: a paused container
    that was inspected has state "paused" and is reported as running. *)
Lemma C7_counterexample :
  Service.state (Service.normalizeContainerState Sample.cfg Sample.pausedRow
                   (Some Sample.pausedInspect)) = "paused"
  /\ Service.running (Service.normalizeContainerState Sample.cfg Sample.pausedRow
                        (Some Sample.pausedInspect)) = true.
Proof. split; reflexivity. Qed.

(** C3 (as stated) fails: on the sample machine the compose query fails and
    the direct query succeeds with an empty [commandError], while the
    resolver's summary carries the error text of the compose query. *)
Lemma C3_counterexample :
  option_map Service.dockerAvailable
    (fst (Proc.run Sample.machine
            (Service.getComposeServiceSummary Sample.cfg Sample.host) tt)) = Some false
  /\ option_map Service.dockerAvailable
       (fst (Proc.run Sample.machine
               (Service.getContainerServiceSummary Sample.cfg Sample.host) tt)) = Some true
  /\ option_map Service.commandError
       (fst (Proc.run Sample.machine
               (Service.getContainerServiceSummary Sample.cfg Sample.host) tt)) = Some ""
  /\ option_map Service.commandError
       (fst (Proc.run Sample.machine
               (Service.getServiceSummary Sample.cfg Sample.host) tt))
     = Some "no configuration file provided: not found"
  /\ fst (Proc.run Sample.machine (Service.getServiceSummary Sample.cfg Sample.host) tt)
     <> fst (Proc.run Sample.machine
               (Service.getContainerServiceSummary Sample.cfg Sample.host) tt).
Proof.
  repeat split; try reflexivity.
  vm_compute. discriminate.
Qed.

Lemma C3_automatic_fallback_summary_witness :
  Service.DOCKER_MODE_is_automatic Sample.cfg
  /\ exists result : Service.Summary,
      Proc.run Sample.machine (Service.getServiceSummary Sample.cfg Sample.host) tt
        = (Some result, tt)
      /\ Service.backend result = "container"
      /\ Service.commandError result = "no configuration file provided: not found"
      /\ Service.dockerAvailable result = true.
Proof.
  split; [split; discriminate|].
  edestruct (C3_automatic_fallback_summary Sample.cfg Sample.host Sample.machine tt)
    as [result [Hrun [Hres Hdocker]]].
  - discriminate.
  - discriminate.
  - vm_compute. reflexivity.
  - reflexivity.
  - vm_compute. reflexivity.
  - reflexivity.
  - exists result. split; [exact Hrun|]. rewrite Hres. repeat split.
Defined.

(** ** Actions *)

Section ActionFacts.
Import JsString Js Proc Action.
Variable cfg : Config.

(** An action that is no key of the table and no member of
    [Object.prototype] is turned away without a [runCommand] call: the
    program is a bare [Ret] in every mode. *)
Lemma runContainerAction_unsupported (action : string) :
  action <> "start" -> action <> "stop" -> action <> "restart" ->
  Object_prototype_get action = None ->
  exists r : ActionResult,
    runContainerAction cfg action = Ret r
    /\ ok r = false /\ error r = Some "unsupported action".
Proof.
  intros H1 H2 H3 Hp.
  assert (Hg : forall a1 a2 a3 : list string,
             get [("start", a1); ("stop", a2); ("restart", a3)] action = Undefined).
  { intros a1 a2 a3. unfold get, assoc.
    destruct (String.eqb_spec "start" action); [congruence|].
    destruct (String.eqb_spec "stop" action); [congruence|].
    destruct (String.eqb_spec "restart" action); [congruence|].
    rewrite Hp. reflexivity. }
  assert (Hc : runComposeAction cfg action = Ret (unsupported "compose")).
  { unfold runComposeAction, dispatch. rewrite Hg. reflexivity. }
  assert (Hd : runDirectContainerAction cfg action = Ret (unsupported "container")).
  { unfold runDirectContainerAction, dispatch. rewrite Hg. reflexivity. }
  unfold runContainerAction. rewrite Hc, Hd.
  destruct (DOCKER_MODE cfg =? "compose")%string;
    [|destruct (DOCKER_MODE cfg =? "container")%string];
    simpl; eexists; repeat split.
Qed.

(** C8, at the failing inputs: for the paths [/api/container/__proto__] and
    [/api/container/constructor] the lookup [actions[action]] finds a member
    of [Object.prototype], the test [if (!args)] lets it through, and the
    dispatcher calls [runCommand("docker", args, 120000)] with it instead of
    returning the "unsupported action" result; so in every mode. *)
Theorem C8_inherited_action_reaches_runCommand :
  firstCall (containerRoute cfg "__proto__")
    = Some ("docker", ArgsNotArray InheritedProto, 120000)
  /\ firstCall (containerRoute cfg "constructor")
     = Some ("docker", ArgsNotArray (InheritedFunction "constructor"), 120000)
  /\ (forall r : ActionResult, containerRoute cfg "__proto__" <> Ret r)
  /\ (forall r : ActionResult, containerRoute cfg "constructor" <> Ret r).
Proof.
  unfold containerRoute, runContainerAction.
  destruct (DOCKER_MODE cfg =? "compose")%string;
    [|destruct (DOCKER_MODE cfg =? "container")%string];
    simpl; repeat split; intros r; discriminate.
Qed.

End ActionFacts.

(** ** Log stream: framing *)

Section LogsFramingFacts.
Import JsString Logs.
Variable toString_utf8 : Buffer -> string.

Lemma append_assoc (a b c : string) : (a ++ b) ++ c = a ++ (b ++ c).
Proof. induction a as [|x a IH]; simpl; [reflexivity | now rewrite IH]. Qed.

Lemma append_empty_r (a : string) : a ++ "" = a.
Proof. induction a as [|x a IH]; simpl; [reflexivity | now rewrite IH]. Qed.

Lemma splitLF_nonempty (s : string) : splitLF s <> [].
Proof.
  destruct s as [|c s]; simpl; [discriminate|].
  destruct (Ascii.eqb c LF); [discriminate|].
  destruct (splitLF s); discriminate.
Qed.

(** Splitting a text that arrives in two pieces: the lines of the first
    piece, then the split of its unterminated rest followed by the second
    piece. *)
Lemma splitLF_app (a b : string) :
  splitLF (a ++ b)
  = (List.removelast (splitLF a) ++ splitLF (List.last (splitLF a) "" ++ b))%list.
Proof.
  induction a as [|c a IH]; [reflexivity|].
  simpl append. simpl splitLF.
  destruct (Ascii.eqb c LF) eqn:Ec.
  - pose proof (splitLF_nonempty a) as Hne.
    destruct (splitLF a) as [|p ps] eqn:Ea; [contradiction|].
    rewrite IH. reflexivity.
  - pose proof (splitLF_nonempty a) as Hne.
    destruct (splitLF a) as [|p ps] eqn:Ea; [contradiction|].
    rewrite IH.
    destruct ps as [|p' ps'].
    + simpl. rewrite Ec. reflexivity.
    + reflexivity.
Qed.

Lemma removelast_cons {A : Type} (x : A) (l : list A) :
  l <> [] -> List.removelast (x :: l) = x :: List.removelast l.
Proof. destruct l; [contradiction | reflexivity]. Qed.

Lemma last_cons {A : Type} (x : A) (l : list A) (d : A) :
  l <> [] -> List.last (x :: l) d = List.last l d.
Proof. destruct l; [contradiction | reflexivity]. Qed.

Lemma mapInit_cons {A : Type} (f : A -> A) (x : A) (l : list A) :
  l <> [] -> mapInit f (x :: l) = f x :: mapInit f l.
Proof. destruct l; [contradiction | reflexivity]. Qed.

Lemma mapInit_nonempty {A : Type} (f : A -> A) (l : list A) :
  l <> [] -> mapInit f l <> [].
Proof. destruct l as [|x [|y l]]; [contradiction | discriminate | discriminate]. Qed.

Lemma removelast_mapInit {A : Type} (f : A -> A) (l : list A) :
  List.removelast (mapInit f l) = List.map f (List.removelast l).
Proof.
  induction l as [|x l IH]; [reflexivity|].
  destruct l as [|y l]; [reflexivity|].
  assert (Hne : y :: l <> []) by discriminate.
  rewrite (mapInit_cons f x _ Hne).
  rewrite (removelast_cons (f x) _ (mapInit_nonempty f _ Hne)).
  rewrite (removelast_cons x _ Hne).
  rewrite IH. reflexivity.
Qed.

Lemma last_mapInit {A : Type} (f : A -> A) (l : list A) (d : A) :
  List.last (mapInit f l) d = List.last l d.
Proof.
  induction l as [|x l IH]; [reflexivity|].
  destruct l as [|y l]; [reflexivity|].
  assert (Hne : y :: l <> []) by discriminate.
  rewrite (mapInit_cons f x _ Hne).
  rewrite (last_cons (f x) _ d (mapInit_nonempty f _ Hne)).
  rewrite (last_cons x _ d Hne).
  exact IH.
Qed.

Lemma removelast_app_nonempty {A : Type} (l1 l2 : list A) :
  l2 <> [] -> List.removelast (l1 ++ l2) = (l1 ++ List.removelast l2)%list.
Proof. intros H. apply List.removelast_app. exact H. Qed.

Lemma last_app_nonempty {A : Type} (l1 l2 : list A) (d : A) :
  l2 <> [] -> List.last (l1 ++ l2) d = List.last l2 d.
Proof.
  intros H. induction l1 as [|x l1 IH]; [reflexivity|].
  simpl. destruct (l1 ++ l2)%list eqn:E; [|exact IH].
  destruct l1; simpl in E; [contradiction | discriminate].
Qed.

(** The framing of a text does not depend on where it was cut. *)
Lemma completeLines_app (a b : string) :
  completeLines (a ++ b)
  = (completeLines a ++ completeLines (pendingText a ++ b))%list.
Proof.
  unfold completeLines, pendingText, splitLines.
  rewrite !removelast_mapInit, last_mapInit, splitLF_app.
  rewrite removelast_app_nonempty by apply splitLF_nonempty.
  rewrite List.map_app, List.filter_app. reflexivity.
Qed.

Lemma pendingText_app (a b : string) :
  pendingText (a ++ b) = pendingText (pendingText a ++ b).
Proof.
  unfold pendingText, splitLines.
  rewrite !last_mapInit, splitLF_app.
  apply last_app_nonempty, splitLF_nonempty.
Qed.

Lemma linesOf_app (f g : list Frame) :
  linesOf (f ++ g) = (linesOf f ++ linesOf g)%list.
Proof. unfold linesOf. apply List.flat_map_app. Qed.

(** One chunk: the complete lines of buffer and chunk are written with the
    chunk's kind, the rest stays in the buffer. *)
Lemma flushChunk_spec (st : Stream) (chunk : Buffer) (kind : Kind) :
  written (flushChunk toString_utf8 st chunk kind)
  = (written st
     ++ List.map (Data kind) (completeLines (buffer st ++ toString_utf8 chunk)))%list
  /\ buffer (flushChunk toString_utf8 st chunk kind)
     = pendingText (buffer st ++ toString_utf8 chunk)
  /\ ended (flushChunk toString_utf8 st chunk kind) = ended st.
Proof.
  unfold flushChunk, completeLines, pendingText.
  rewrite or_empty_r.
  set (parts := splitLines (buffer st ++ toString_utf8 chunk)).
  set (st0 := {| buffer := List.last parts ""; written := written st;
                 ended := ended st |}).
  assert (G : forall (ls : list string) (s : Stream),
             let s' := fold_left
                         (fun s line => if negb (truthy line) then s
                                        else writeLine s line kind) ls s in
             written s' = (written s ++ List.map (Data kind) (List.filter truthy ls))%list
             /\ buffer s' = buffer s /\ ended s' = ended s).
  { induction ls as [|l ls IH]; intros s; simpl.
    - rewrite List.app_nil_r. repeat split.
    - destruct (truthy l); simpl.
      + destruct (IH (writeLine s l kind)) as [Hw [Hb He]].
        rewrite Hw, Hb, He. simpl. rewrite <- List.app_assoc. repeat split.
      + apply IH. }
  destruct (G (List.removelast parts) st0) as [Hw [Hb He]].
  rewrite Hw, Hb, He. repeat split.
Qed.

Lemma linesOf_data (kind : Kind) (ls : list string) :
  linesOf (List.map (Data kind) ls) = ls.
Proof. induction ls as [|l ls IH]; simpl; [reflexivity | now rewrite IH]. Qed.

(** What stays in the buffer has no line feed in it. *)
Lemma splitLF_last (x : string) :
  splitLF (List.last (splitLF x) "") = [List.last (splitLF x) ""].
Proof.
  induction x as [|c x IH]; [reflexivity|].
  pose proof (splitLF_nonempty x) as Hne.
  simpl splitLF. destruct (Ascii.eqb c LF) eqn:Ec.
  - rewrite (last_cons _ _ _ Hne). exact IH.
  - destruct (splitLF x) as [|p ps] eqn:Ex; [contradiction|].
    destruct ps as [|p' ps'].
    + simpl in IH |- *. rewrite Ec, IH. reflexivity.
    + exact IH.
Qed.

Lemma unterminated_framing (b : string) :
  splitLF b = [b] -> completeLines b = [] /\ pendingText b = b.
Proof.
  intros H. unfold completeLines, pendingText, splitLines. rewrite H. split; reflexivity.
Qed.

(** While the child runs, the lines sent so far are the complete lines of
    the text received so far, that is of the chunks as decoded one by one,
    and the buffer holds what follows the last line boundary. *)
Lemma steps_framing (es : list Event) (st : Stream) :
  ended st = false ->
  splitLF (buffer st) = [buffer st] ->
  List.forallb keepsOpen es = true ->
  linesOf (written (steps toString_utf8 st es))
  = (linesOf (written st)
     ++ completeLines (buffer st ++ textOf toString_utf8 es))%list
  /\ buffer (steps toString_utf8 st es)
     = pendingText (buffer st ++ textOf toString_utf8 es)
  /\ ended (steps toString_utf8 st es) = false.
Proof.
  revert st. induction es as [|e es IH]; intros st Hend Hbuf Hopen.
  - simpl. rewrite append_empty_r.
    destruct (unterminated_framing _ Hbuf) as [Hc Hp].
    rewrite Hc, Hp, List.app_nil_r. repeat split. exact Hend.
  - simpl in Hopen. apply andb_prop in Hopen. destruct Hopen as [He Hes].
    assert (D : forall (chunk : Buffer) (kind : Kind),
               chunkText toString_utf8 e = toString_utf8 chunk ->
               step toString_utf8 st e = flushChunk toString_utf8 st chunk kind ->
               linesOf (written (steps toString_utf8 st (e :: es)))
               = (linesOf (written st)
                  ++ completeLines (buffer st ++ textOf toString_utf8 (e :: es)))%list
               /\ buffer (steps toString_utf8 st (e :: es))
                  = pendingText (buffer st ++ textOf toString_utf8 (e :: es))
               /\ ended (steps toString_utf8 st (e :: es)) = false).
    { intros chunk kind Hc Hs.
      destruct (flushChunk_spec st chunk kind) as [Hw [Hb Hn]].
      change (steps toString_utf8 st (e :: es))
        with (steps toString_utf8 (step toString_utf8 st e) es).
      change (textOf toString_utf8 (e :: es))
        with (chunkText toString_utf8 e ++ textOf toString_utf8 es).
      rewrite Hs, Hc.
      destruct (IH (flushChunk toString_utf8 st chunk kind)) as [Il [Ib In]].
      + rewrite Hn. exact Hend.
      + rewrite Hb. unfold pendingText, splitLines. rewrite last_mapInit.
        apply splitLF_last.
      + exact Hes.
      + rewrite Il, Ib, In, Hw, Hb. rewrite linesOf_app, linesOf_data.
        rewrite <- append_assoc.
        rewrite (completeLines_app (buffer st ++ toString_utf8 chunk)
                                   (textOf toString_utf8 es)).
        rewrite (pendingText_app (buffer st ++ toString_utf8 chunk)
                                 (textOf toString_utf8 es)).
        rewrite <- List.app_assoc. repeat split. }
    destruct e as [chunk | chunk | code | msg | ]; try discriminate He.
    + apply (D chunk log); [reflexivity|]. unfold step. rewrite Hend. reflexivity.
    + apply (D chunk error); [reflexivity|]. unfold step. rewrite Hend. reflexivity.
    + change (steps toString_utf8 st (Heartbeat :: es))
        with (steps toString_utf8 (step toString_utf8 st Heartbeat) es).
      change (textOf toString_utf8 (Heartbeat :: es)) with (textOf toString_utf8 es).
      unfold step. rewrite Hend.
      match goal with
      | |- context [steps toString_utf8 ?s es] => destruct (IH s) as [Il [Ib In]]
      end; [reflexivity | exact Hbuf | exact Hes |].
      rewrite Il, Ib, In. simpl written. simpl buffer.
      rewrite linesOf_app. simpl linesOf. rewrite List.app_nil_r. repeat split.
Qed.

Lemma steps_app (st : Stream) (es es' : list Event) :
  steps toString_utf8 st (es ++ es')
  = steps toString_utf8 (steps toString_utf8 st es) es'.
Proof. apply List.fold_left_app. Qed.


End LogsFramingFacts.



(** ** Maps, sets and sorting *)

Section ContainerFacts.
Import Js.

Lemma assoc_mapSet {A : Type} (m : list (string * A)) (k k' : string) (a : A) :
  assoc (mapSet m k a) k' = if (k =? k')%string then Some a else assoc m k'.
Proof.
  induction m as [|[k0 b] m IH]; simpl.
  - reflexivity.
  - destruct (String.eqb_spec k0 k) as [E|E]; simpl.
    + subst k0. destruct (String.eqb_spec k k'); reflexivity.
    + rewrite IH.
      destruct (String.eqb_spec k0 k') as [E'|E']; [|reflexivity].
      subst k0. destruct (String.eqb_spec k k'); [congruence | reflexivity].
Qed.

Lemma keys_mapSet {A : Type} (m : list (string * A)) (k : string) (a : A) :
  List.map fst (mapSet m k a)
  = if existsb (String.eqb k) (List.map fst m) then List.map fst m
    else (List.map fst m ++ [k])%list.
Proof.
  induction m as [|[k0 b] m IH]; simpl; [reflexivity|].
  rewrite (String.eqb_sym k k0).
  destruct (String.eqb_spec k0 k) as [E|E]; simpl.
  - subst k0. reflexivity.
  - rewrite IH. destruct (existsb (String.eqb k) (List.map fst m)); reflexivity.
Qed.

Lemma existsb_eqb_In (x : string) (l : list string) :
  existsb (String.eqb x) l = true <-> In x l.
Proof.
  rewrite existsb_exists. split.
  - intros [y [Hy E]]. apply String.eqb_eq in E. subst y. exact Hy.
  - intros H. exists x. split; [exact H | apply String.eqb_refl].
Qed.

Lemma In_setAdd (s : list string) (x y : string) :
  In y (setAdd s x) <-> In y s \/ y = x.
Proof.
  unfold setAdd. destruct (existsb (String.eqb x) s) eqn:E.
  - apply existsb_eqb_In in E. split; [tauto|]. intros [H|H]; [exact H | now subst].
  - rewrite in_app_iff. simpl.
    split; [intros [H|[H|[]]] | intros [H|H]];
      [left; exact H | right; now symmetry | left; exact H | right; left; now symmetry].
Qed.

Lemma In_fold_setAdd (l s : list string) (y : string) :
  In y (fold_left setAdd l s) <-> In y s \/ In y l.
Proof.
  revert s. induction l as [|x l IH]; intros s; simpl; [tauto|].
  rewrite IH, In_setAdd. intuition congruence.
Qed.

Lemma indexOf_absent (l : list string) (x : string) :
  ~ In x l -> indexOf l x = -1.
Proof.
  induction l as [|y l IH]; simpl; [reflexivity|].
  intros H. destruct (String.eqb_spec y x) as [E|E]; [tauto|].
  rewrite IH by tauto. reflexivity.
Qed.

Lemma indexOf_present (l : list string) (x : string) :
  In x l -> 0 <= indexOf l x.
Proof.
  induction l as [|y l IH]; simpl; [tauto|].
  intros H. destruct (String.eqb_spec y x) as [E|E]; [lia|].
  destruct H as [H|H]; [contradiction|].
  specialize (IH H). destruct (Z.ltb_spec (indexOf l x) 0); lia.
Qed.

Section SortFacts.
Context {A : Type} (cmp : A -> A -> Z).

Lemma In_insert (x y : A) (l : list A) :
  In y (insert cmp x l) <-> y = x \/ In y l.
Proof.
  induction l as [|z l IH]; simpl.
  - split; intros [H|H]; auto.
  - destruct (cmp x z <=? 0); simpl; [split; intros [H|H]; auto|].
    rewrite IH. tauto.
Qed.

Lemma In_sort (y : A) (l : list A) : In y (sort cmp l) <-> In y l.
Proof.
  induction l as [|x l IH]; simpl; [tauto|].
  rewrite In_insert, IH. split; intros [H|H]; auto.
Qed.

Lemma insert_Sorted (x : A) (l : list A) :
  (forall a b : A, 0 < cmp a b -> cmp b a <= 0) ->
  Sorted (fun a b => cmp a b <= 0) l ->
  Sorted (fun a b => cmp a b <= 0) (insert cmp x l).
Proof.
  intros Htotal Hs. induction Hs as [|z l Hs IH Hd]; simpl.
  - repeat constructor.
  - destruct (Z.leb_spec (cmp x z) 0) as [Hle|Hgt].
    + constructor; [constructor; assumption | constructor; exact Hle].
    + constructor; [exact IH|].
      destruct l as [|z' l]; simpl.
      * constructor. apply Htotal. exact Hgt.
      * destruct (Z.leb_spec (cmp x z') 0).
        -- constructor. apply Htotal. exact Hgt.
        -- inversion Hd; subst. constructor. assumption.
Qed.

(** For a total comparator the result of [sort] is in order. *)
Lemma sort_Sorted (l : list A) :
  (forall a b : A, 0 < cmp a b -> cmp b a <= 0) ->
  Sorted (fun a b => cmp a b <= 0) (sort cmp l).
Proof.
  intros Htotal. induction l as [|x l IH]; simpl.
  - constructor.
  - apply insert_Sorted; assumption.
Qed.

Lemma insert_front (x : A) (l : list A) :
  (forall y : A, In y l -> cmp x y <= 0) -> insert cmp x l = x :: l.
Proof.
  intros H. destruct l as [|z l]; simpl; [reflexivity|].
  destruct (Z.leb_spec (cmp x z) 0) as [_|Hgt]; [reflexivity|].
  specialize (H z (or_introl eq_refl)). lia.
Qed.
End SortFacts.

Lemma Sorted_ext_in {A : Type} (R R' : A -> A -> Prop) (l : list A) :
  (forall a b : A, In a l -> In b l -> R a b -> R' a b) ->
  Sorted R l -> Sorted R' l.
Proof.
  intros Hext Hs. induction Hs as [|x l Hs IH Hd].
  - constructor.
  - constructor.
    + apply IH. intros a b Ha Hb. apply Hext; right; assumption.
    + destruct Hd as [|y l' Hxy]; constructor.
      apply Hext; [left; reflexivity | right; left; reflexivity | exact Hxy].
Qed.

Lemma Sorted_app_r {A : Type} (R : A -> A -> Prop) (l1 l2 : list A) :
  Sorted R (l1 ++ l2) -> Sorted R l2.
Proof.
  induction l1 as [|x l1 IH]; simpl; [tauto|].
  intros H. inversion H; subst. apply IH. assumption.
Qed.

End ContainerFacts.

(** ** Provider health *)

Section HealthFacts.
Import JsString Js Provider Freshness Health.
Variable h : Host.

Lemma groupFiles_fold (fs : list AuthFile) (g : list (string * list AuthFile))
    (p : string) :
  match mapGet
          (fold_left
             (fun grouped f =>
                let items := match mapGet grouped (groupKey f) with
                             | Some l => l
                             | None => []
                             end in
                mapSet grouped (groupKey f) (items ++ [f])%list)
             fs g) p with
  | Some l => l
  | None => []
  end
  = (match mapGet g p with Some l => l | None => [] end ++ filesOf fs p)%list.
Proof.
  revert g. induction fs as [|f fs IH]; intros g; simpl.
  - rewrite List.app_nil_r. reflexivity.
  - rewrite IH. unfold mapGet. rewrite assoc_mapSet.
    destruct (String.eqb_spec (groupKey f) p) as [E|E].
    + subst p. rewrite <- List.app_assoc. reflexivity.
    + reflexivity.
Qed.

(** The list [grouped] holds for a provider is the list of the files
    normalized to it, in their order. *)
Lemma groupFiles_get (oauthFiles : list AuthFile) (p : string) :
  match mapGet (groupFiles oauthFiles) p with Some l => l | None => [] end
  = filesOf oauthFiles p.
Proof. unfold groupFiles. rewrite groupFiles_fold. reflexivity. Qed.

Lemma In_keys_mapSet {A : Type} (m : list (string * A)) (k k' : string) (a : A) :
  In k' (List.map fst (mapSet m k a)) <-> In k' (List.map fst m) \/ k' = k.
Proof.
  rewrite keys_mapSet.
  destruct (existsb (String.eqb k) (List.map fst m)) eqn:E.
  - apply existsb_eqb_In in E. split; [tauto|]. intros [H|H]; [exact H | now subst].
  - rewrite in_app_iff. simpl. intuition congruence.
Qed.

Lemma groupFiles_keys (oauthFiles : list AuthFile) (f : AuthFile) :
  In f oauthFiles -> In (groupKey f) (List.map fst (groupFiles oauthFiles)).
Proof.
  unfold groupFiles.
  assert (G : forall (fs : list AuthFile) (g : list (string * list AuthFile)),
             In f fs \/ In (groupKey f) (List.map fst g) ->
             In (groupKey f)
                (List.map fst
                   (fold_left
                      (fun grouped f0 =>
                         let items := match mapGet grouped (groupKey f0) with
                                      | Some l => l
                                      | None => []
                                      end in
                         mapSet grouped (groupKey f0) (items ++ [f0])%list)
                      fs g))).
  { induction fs as [|f0 fs IH]; intros g H; simpl.
    - destruct H as [[]|H]. exact H.
    - apply IH. destruct H as [[H|H]|H].
      + subst f0. right. apply In_keys_mapSet. right. reflexivity.
      + left. exact H.
      + right. apply In_keys_mapSet. left. exact H. }
  intros H. apply G. left. exact H.
Qed.

(** The loop of lines 853-857 keeps an evaluation of the list whose
    severity no other exceeds. *)
Lemma worst_fold (l : list Evaluation) (w : Evaluation) :
  let r := fold_left
             (fun worst candidate =>
                if FRESHNESS_SEVERITY (level worst) <? FRESHNESS_SEVERITY (level candidate)
                then candidate else worst) l w in
  (r = w \/ In r l)
  /\ FRESHNESS_SEVERITY (level w) <= FRESHNESS_SEVERITY (level r)
  /\ (forall c : Evaluation,
        In c l -> FRESHNESS_SEVERITY (level c) <= FRESHNESS_SEVERITY (level r)).
Proof.
  revert w. induction l as [|c l IH]; intros w; simpl.
  - split; [left; reflexivity|]. split; [lia | intros c []].
  - destruct (Z.ltb_spec (FRESHNESS_SEVERITY (level w)) (FRESHNESS_SEVERITY (level c)))
      as [Hlt|Hge].
    + destruct (IH c) as [Hr [Hw Hall]]. split; [|split].
      * destruct Hr as [Hr|Hr]; [right; left; now symmetry | right; right; exact Hr].
      * lia.
      * intros c' [E|Hc']; [subst c'; exact Hw | apply Hall; exact Hc'].
    + destruct (IH w) as [Hr [Hw Hall]]. split; [|split].
      * destruct Hr as [Hr|Hr]; [left; exact Hr | right; right; exact Hr].
      * exact Hw.
      * intros c' [E|Hc']; [subst c'; lia | apply Hall; exact Hc'].
Qed.

Lemma worstOf_max (l : list Evaluation) :
  l <> [] ->
  In (worstOf l) l
  /\ (forall c : Evaluation,
        In c l ->
        FRESHNESS_SEVERITY (level c) <= FRESHNESS_SEVERITY (level (worstOf l))).
Proof.
  intros Hne. destruct l as [|e l]; [contradiction|].
  unfold worstOf. simpl hd.
  destruct (worst_fold (e :: l) e) as [Hr [Hw Hall]].
  split; [|exact Hall].
  destruct Hr as [Hr|Hr]; [rewrite Hr; left; reflexivity | exact Hr].
Qed.

Lemma provider_providerEntry grouped staticCounts nowMs p :
  provider (providerEntry h grouped staticCounts nowMs p) = p.
Proof.
  unfold providerEntry.
  repeat match goal with
         | |- context [if ?b then _ else _] => destruct b
         end; reflexivity.
Qed.

Lemma status_providerEntry (oauthFiles : list AuthFile) staticCounts nowMs p :
  let e := providerEntry h (groupFiles oauthFiles) staticCounts nowMs p in
  status e
  = match filesOf oauthFiles p with
    | [] => if positive (staticKeyCount e) then configured else missing
    | _ => level (worstOf (List.map (fun f => evaluateOAuthFileFreshness h f nowMs)
                                   (filesOf oauthFiles p)))
    end
  /\ authMode e
     = match filesOf oauthFiles p with
       | [] => if positive (staticKeyCount e) then "api-keys" else "none"
       | _ => if positive (staticKeyCount e) then "mixed" else "oauth"
       end
  /\ staticKeyCount e = staticKeyCountOf staticCounts p.
Proof.
  unfold providerEntry. rewrite groupFiles_get.
  destruct (filesOf oauthFiles p) as [|f fs]; simpl List.length.
  - change (0 <? Z.of_nat 0) with false. cbv iota. simpl andb.
    destruct (positive (staticKeyCountOf staticCounts p)) eqn:E; simpl; rewrite ?E;
      repeat split.
  - replace (0 <? Z.of_nat (S (List.length fs))) with true
      by (symmetry; apply Z.ltb_lt; lia).
    cbv iota. simpl andb.
    destruct (positive (staticKeyCountOf staticCounts p)) eqn:E; simpl; rewrite ?E;
      repeat split.
Qed.

End HealthFacts.

Section HealthTheorems.
Import JsString Js Provider Freshness Health.
Variable h : Host.

Lemma In_orderedProviders (oauthFiles : list AuthFile) staticCounts (p : string) :
  In p (orderedProviders h (groupFiles oauthFiles) staticCounts)
  <-> In p PROVIDER_ORDER \/ In p (List.map fst staticCounts)
      \/ In p (List.map fst (groupFiles oauthFiles)).
Proof.
  unfold orderedProviders, newSet.
  rewrite In_sort, In_fold_setAdd, !in_app_iff. simpl In at 1. tauto.
Qed.

Lemma In_buildProviderHealth (oauthFiles : list AuthFile) staticCounts nowMs
    (entry : ProviderHealth) :
  In entry (buildProviderHealth h oauthFiles staticCounts nowMs)
  <-> entry = providerEntry h (groupFiles oauthFiles) staticCounts nowMs (provider entry)
      /\ In (provider entry) (orderedProviders h (groupFiles oauthFiles) staticCounts).
Proof.
  unfold buildProviderHealth. rewrite in_map_iff. split.
  - intros [p [E Hp]]. subst entry. rewrite provider_providerEntry. split; [reflexivity | exact Hp].
  - intros [E Hp]. exists (provider entry). split; [symmetry; exact E | exact Hp].
Qed.

(** C2: a provider that has credential files has an entry, and so has every
    provider of [PROVIDER_ORDER] and every key of [staticCounts].  The status
    of the entry of a provider with files is the level of one of the
    provider's files, and no file of the provider has a level of higher
    severity, under the ordering missing < configured < fresh < unknown <
    warning < stale < expired < error.  The status of the entry of a
    provider without files is [configured] if [staticCounts] holds a positive
    count under the provider's name, and [missing] otherwise; the
    [staticKeyCount] of the entry is positive in just that case. *)
Theorem C2_provider_rollup_status (oauthFiles : list AuthFile)
    (staticCounts : list (string * Z)) (nowMs : Z) (p : string) :
  let output := buildProviderHealth h oauthFiles staticCounts nowMs in
  let mine := filesOf oauthFiles p in
  let hasKeys := match assoc staticCounts p with
                 | Some n => 0 <? n
                 | None => false
                 end in
  List.map FRESHNESS_SEVERITY
    [missing; configured; fresh; unknown; warning; stale; expired; error]
  = [0; 1; 2; 3; 4; 5; 6; 7]
  /\ (mine <> [] \/ In p PROVIDER_ORDER \/ In p (List.map fst staticCounts) ->
      exists entry : ProviderHealth, In entry output /\ provider entry = p)
  /\ (forall entry : ProviderHealth,
        In entry output -> provider entry = p ->
        (mine <> [] ->
         (exists f : AuthFile,
             In f mine /\ status entry = level (evaluateOAuthFileFreshness h f nowMs))
         /\ (forall f : AuthFile,
               In f mine ->
               FRESHNESS_SEVERITY (level (evaluateOAuthFileFreshness h f nowMs))
               <= FRESHNESS_SEVERITY (status entry)))
        /\ (mine = [] ->
            status entry = (if hasKeys then configured else missing)
            /\ status entry
               = if positive (staticKeyCount entry) then configured else missing)
        /\ positive (staticKeyCount entry) = hasKeys).
Proof.
  intros output mine hasKeys. split; [reflexivity|]. split.
  - intros Hp.
    exists (providerEntry h (groupFiles oauthFiles) staticCounts nowMs p).
    split; [|apply provider_providerEntry].
    apply In_buildProviderHealth. rewrite provider_providerEntry.
    split; [reflexivity|].
    apply In_orderedProviders. destruct Hp as [Hne|[Hp|Hp]]; [|tauto|tauto].
    right. right.
    destruct mine as [|f fs] eqn:Em; [contradiction|].
    assert (Hf : In f (filesOf oauthFiles p)) by (fold mine; rewrite Em; left; reflexivity).
    apply filter_In in Hf. destruct Hf as [Hf Hk].
    apply String.eqb_eq in Hk.
    rewrite <- Hk. apply groupFiles_keys. exact Hf.
  - intros entry Hin Hp.
    apply In_buildProviderHealth in Hin. destruct Hin as [He _].
    rewrite Hp in He.
    destruct (status_providerEntry h oauthFiles staticCounts nowMs p) as [Hs [_ Hk]].
    cbv zeta in Hs, Hk. rewrite <- He in Hs, Hk. fold mine in Hs.
    assert (Hpos : positive (staticKeyCount entry) = hasKeys).
    { rewrite Hk. unfold hasKeys, staticKeyCountOf, get.
      destruct (assoc staticCounts p) as [n|]; [reflexivity|].
      destruct (Object_prototype_get p); reflexivity. }
    split; [|split; [|exact Hpos]].
    + intros Hne. destruct mine as [|f fs] eqn:Em; [contradiction|].
      set (evals := List.map (fun f0 => evaluateOAuthFileFreshness h f0 nowMs) (f :: fs)) in *.
      destruct (worstOf_max evals) as [Hw Hmax]; [discriminate|].
      split.
      * apply in_map_iff in Hw. destruct Hw as [f0 [E Hf0]].
        exists f0. split; [exact Hf0|]. rewrite Hs, <- E. reflexivity.
      * intros f0 Hf0. rewrite Hs. apply Hmax.
        apply in_map_iff. exists f0. split; [reflexivity | exact Hf0].
    + intros Hnil. rewrite Hnil in Hs. rewrite <- Hpos. split; exact Hs.
Qed.

(** Members of a Set stay where they are: what is added later comes
    after them and is none of them. *)
Lemma fold_setAdd_prefix (P ks acc : list string) :
  (forall x : string, In x acc -> ~ In x P) ->
  exists rest : list string,
    fold_left setAdd ks (P ++ acc)%list = (P ++ rest)%list
    /\ (forall x : string, In x rest -> ~ In x P).
Proof.
  revert acc. induction ks as [|k ks IH]; intros acc Hacc.
  - exists acc. split; [reflexivity | exact Hacc].
  - change (fold_left setAdd (k :: ks) (P ++ acc)%list)
      with (fold_left setAdd ks (setAdd (P ++ acc)%list k)).
    unfold setAdd at 2.
    destruct (existsb (String.eqb k) (P ++ acc)) eqn:E.
    + apply IH. exact Hacc.
    + rewrite <- List.app_assoc. apply IH.
      intros x Hx. apply in_app_iff in Hx. destruct Hx as [Hx|[Hx|[]]].
      * apply Hacc. exact Hx.
      * subst x. intros Hk.
        assert (In k (P ++ acc)) as Hin by (apply in_app_iff; left; exact Hk).
        apply existsb_eqb_In in Hin. congruence.
Qed.

Lemma sortProviders_canonical_first (a y : string) :
  In a PROVIDER_ORDER -> ~ In y PROVIDER_ORDER -> sortProviders h a y = -1.
Proof.
  intros Ha Hy. unfold sortProviders.
  rewrite (indexOf_absent _ _ Hy).
  pose proof (indexOf_present _ _ Ha) as Hge.
  destruct (Z.leb_spec 0 (indexOf PROVIDER_ORDER a)); [reflexivity | lia].
Qed.

(** A prefix that is in order and whose members go before every later
    element stays in front. *)
Lemma sort_prefix {A : Type} (cmp : A -> A -> Z) (P rest : list A) :
  StronglySorted (fun a b => cmp a b <= 0) P ->
  (forall a y : A, In a P -> In y rest -> cmp a y <= 0) ->
  sort cmp (P ++ rest) = (P ++ sort cmp rest)%list.
Proof.
  intros HP Hrest. induction HP as [|a P HP IH Ha]; [reflexivity|].
  simpl. rewrite IH by (intros b y Hb Hy; apply Hrest; [right; exact Hb | exact Hy]).
  apply insert_front. intros y Hy. apply in_app_iff in Hy. destruct Hy as [Hy|Hy].
  - rewrite Forall_forall in Ha. apply Ha. exact Hy.
  - apply Hrest; [left; reflexivity | apply In_sort in Hy; exact Hy].
Qed.

Lemma PROVIDER_ORDER_sorted :
  StronglySorted (fun a b => sortProviders h a b <= 0) PROVIDER_ORDER.
Proof.
  unfold PROVIDER_ORDER.
  repeat (constructor; [|repeat (constructor; [vm_compute; discriminate|]); constructor]).
  constructor.
Qed.

(** Sorting leaves the canonical providers in front, in their order. *)
Lemma sort_canonical_prefix (rest : list string) :
  (forall x : string, In x rest -> ~ In x PROVIDER_ORDER) ->
  sort (sortProviders h) (PROVIDER_ORDER ++ rest)
  = (PROVIDER_ORDER ++ sort (sortProviders h) rest)%list.
Proof.
  intros Hrest. apply sort_prefix; [apply PROVIDER_ORDER_sorted|].
  intros a y Ha Hy. rewrite sortProviders_canonical_first; [lia | exact Ha |].
  apply Hrest. exact Hy.
Qed.

Lemma sortProviders_total :
  (forall a b : string, 0 < localeCompare h a b -> localeCompare h b a <= 0) ->
  forall a b : string, 0 < sortProviders h a b -> sortProviders h b a <= 0.
Proof.
  intros Htotal a b. unfold sortProviders.
  destruct (Z.leb_spec 0 (indexOf PROVIDER_ORDER a));
    destruct (Z.leb_spec 0 (indexOf PROVIDER_ORDER b)); simpl; try lia.
  apply Htotal.
Qed.

Lemma sortProviders_extra (a b : string) :
  ~ In a PROVIDER_ORDER -> ~ In b PROVIDER_ORDER ->
  sortProviders h a b = localeCompare h a b.
Proof.
  intros Ha Hb. unfold sortProviders.
  rewrite (indexOf_absent _ _ Ha), (indexOf_absent _ _ Hb). reflexivity.
Qed.

(** C9: the output lists the eight canonical providers first, in the order
    of [PROVIDER_ORDER], whatever the files and the static counts; the
    providers after them are not canonical and are in the order of
    [localeCompare]; the entry of a provider without files and with a
    static key count of zero has status [missing] and authMode "none". *)
Theorem C9_canonical_providers_listed (oauthFiles : list AuthFile)
    (staticCounts : list (string * Z)) (nowMs : Z) :
  (forall a b : string, 0 < localeCompare h a b -> localeCompare h b a <= 0) ->
  let output := buildProviderHealth h oauthFiles staticCounts nowMs in
  (exists extras : list string,
      List.map provider output = (PROVIDER_ORDER ++ extras)%list
      /\ (forall x : string, In x extras -> ~ In x PROVIDER_ORDER)
      /\ Sorted (fun a b => localeCompare h a b <= 0) extras)
  /\ (forall p : string,
        In p PROVIDER_ORDER ->
        exists entry : ProviderHealth,
          In entry output /\ provider entry = p
          /\ (filesOf oauthFiles p = [] ->
              staticKeyCountOf staticCounts p = Num 0 ->
              staticKeyCount entry = Num 0
              /\ status entry = missing /\ authMode entry = "none")).
Proof.
  intros Htotal output.
  assert (Hmap : List.map provider output
                 = orderedProviders h (groupFiles oauthFiles) staticCounts).
  { unfold output, buildProviderHealth. rewrite List.map_map.
    rewrite (List.map_ext _ (fun p => p)) by (intros p; apply provider_providerEntry).
    apply List.map_id. }
  split.
  - rewrite Hmap. unfold orderedProviders, newSet.
    rewrite List.fold_left_app.
    change (fold_left setAdd PROVIDER_ORDER []) with (PROVIDER_ORDER ++ [])%list.
    destruct (fold_setAdd_prefix PROVIDER_ORDER
                (List.map fst staticCounts ++ List.map fst (groupFiles oauthFiles))
                []) as [rest [Hrest Hnot]]; [intros x []|].
    rewrite Hrest, (sort_canonical_prefix rest Hnot).
    exists (sort (sortProviders h) rest).
    assert (Hextra : forall x : string,
               In x (sort (sortProviders h) rest) -> ~ In x PROVIDER_ORDER).
    { intros x Hx. apply Hnot. apply In_sort in Hx. exact Hx. }
    split; [reflexivity|]. split; [exact Hextra|].
    apply Sorted_ext_in with (R := fun a b => sortProviders h a b <= 0).
    + intros a b Ha Hb Hab. rewrite <- sortProviders_extra; auto.
    + apply sort_Sorted. apply sortProviders_total. exact Htotal.
  - intros p Hp.
    exists (providerEntry h (groupFiles oauthFiles) staticCounts nowMs p).
    split; [|split].
    + apply In_buildProviderHealth. rewrite provider_providerEntry.
      split; [reflexivity|]. apply In_orderedProviders. left. exact Hp.
    + apply provider_providerEntry.
    + intros Hfiles Hcount.
      destruct (status_providerEntry h oauthFiles staticCounts nowMs p)
        as [Hs [Ha Hk]].
      cbv zeta in Hs, Ha, Hk. rewrite Hfiles in Hs, Ha.
      rewrite Hk, Hcount in Hs, Ha. rewrite Hk, Hcount.
      split; [reflexivity|]. split; [exact Hs | exact Ha].
Qed.

End HealthTheorems.

(** ** Model catalogue *)

Section ModelsFacts.
Import JsString Js Provider Models.

Lemma collectAll_calls (o g : Response) :
  collectAll o g = fold_left collectCall (callsOf o g) [].
Proof.
  unfold collectAll, callsOf. rewrite List.fold_left_app.
  assert (M : forall (f : list (string * Entry) -> ModelJson -> list (string * Entry))
                     (c : ModelJson -> Call),
             (forall m x, f m x = collectCall m (c x)) ->
             forall l m, fold_left f l m = fold_left collectCall (List.map c l) m).
  { intros f c H l. induction l as [|x l IH]; intros m; simpl; [reflexivity|].
    rewrite H. apply IH. }
  rewrite (M collectOpenAI openaiCall) by reflexivity.
  rewrite (M collectGemini geminiCall) by reflexivity.
  reflexivity.
Qed.

(** One call: a skipped call leaves the map as it is; another one creates
    the entry of its key or updates it. *)
Lemma collectCall_get (m : list (string * Entry)) (c : Call) (k : string) :
  mapGet (collectCall m c) k
  = if truthy (normalizeModelID (callModelID c)) && (callKey c =? k)%string
    then match mapGet m k with
         | Some e => Some (absorb e c)
         | None => Some (freshEntry c)
         end
    else mapGet m k.
Proof.
  unfold collectCall, collect. fold (callKey c).
  destruct (truthy (normalizeModelID (callModelID c))); simpl; [|reflexivity].
  destruct (mapGet m (callKey c)) as [e|] eqn:E; unfold mapGet in *;
    rewrite assoc_mapSet;
    destruct (String.eqb_spec (callKey c) k) as [Ek|Ek]; try reflexivity;
    subst k; rewrite E; reflexivity.
Qed.

(** The entry of a key after a run of calls, from the calls of that key
    alone. *)
Lemma collect_fold_get (cs : list Call) (m : list (string * Entry)) (k : string) :
  mapGet (fold_left collectCall cs m) k
  = match mapGet m k with
    | Some e => Some (fold_left absorb (callsFor k cs) e)
    | None =>
        match callsFor k cs with
        | [] => None
        | c :: rest => Some (fold_left absorb rest (freshEntry c))
        end
    end.
Proof.
  revert m. induction cs as [|c cs IH]; intros m.
  - simpl. destruct (mapGet m k); reflexivity.
  - change (fold_left collectCall (c :: cs) m)
      with (fold_left collectCall cs (collectCall m c)).
    rewrite IH, collectCall_get. unfold callsFor. simpl List.filter.
    destruct (truthy (normalizeModelID (callModelID c)) && (callKey c =? k)%string).
    + destruct (mapGet m k); reflexivity.
    + reflexivity.
Qed.

Lemma absorb_fold (cs : list Call) (e : Entry) :
  let r := fold_left absorb cs e in
  provider r = provider e /\ entryId r = entryId e /\ ownedBy r = ownedBy e
  /\ entryDisplayName r
     = entryDisplayName e ||| firstTruthy (List.map callDisplayName cs)
  /\ sources r = fold_left setAdd (List.map callSource cs) (sources e).
Proof.
  revert e. induction cs as [|c cs IH]; intros e.
  - simpl. repeat split. unfold firstTruthy. simpl.
    destruct (entryDisplayName e); reflexivity.
  - change (fold_left absorb (c :: cs) e) with (fold_left absorb cs (absorb e c)).
    destruct (IH (absorb e c)) as [Hp [Hi [Ho [Hd Hs]]]]. cbv zeta in *.
    rewrite Hp, Hi, Ho, Hd, Hs. simpl. repeat split.
    unfold firstTruthy. simpl List.filter.
    destruct (truthy (entryDisplayName e)) eqn:Ee; simpl.
    + unfold JsString.or. rewrite Ee. reflexivity.
    + destruct (truthy (callDisplayName c)) eqn:Ec; simpl.
      * unfold JsString.or. rewrite Ec, Ee. reflexivity.
      * unfold JsString.or. rewrite Ee. reflexivity.
Qed.

Lemma NoDup_keys_mapSet {A : Type} (m : list (string * A)) (k : string) (a : A) :
  NoDup (List.map fst m) -> NoDup (List.map fst (mapSet m k a)).
Proof.
  intros H. rewrite keys_mapSet.
  destruct (existsb (String.eqb k) (List.map fst m)) eqn:E; [exact H|].
  assert (Hk : ~ In k (List.map fst m)).
  { intros Hin. apply existsb_eqb_In in Hin. congruence. }
  clear E. induction (List.map fst m) as [|x l IH]; simpl.
  - constructor; [intros [] | constructor].
  - inversion H; subst. constructor.
    + rewrite in_app_iff. simpl. intros [Hx|[Hx|[]]]; [contradiction|].
      apply Hk. left. now symmetry.
    + apply IH; [assumption|]. intros Hin. apply Hk. right. exact Hin.
Qed.

Lemma NoDup_keys_collect (cs : list Call) (m : list (string * Entry)) :
  NoDup (List.map fst m) -> NoDup (List.map fst (fold_left collectCall cs m)).
Proof.
  revert m. induction cs as [|c cs IH]; intros m H; [exact H|].
  apply IH. unfold collectCall, collect.
  destruct (truthy (normalizeModelID (callModelID c))); simpl; [|exact H].
  destruct (mapGet m _); apply NoDup_keys_mapSet; exact H.
Qed.




Lemma insert_Permutation {A : Type} (cmp : A -> A -> Z) (x : A) (l : list A) :
  Permutation (insert cmp x l) (x :: l).
Proof.
  induction l as [|y l IH]; simpl; [apply Permutation_refl|].
  destruct (cmp x y <=? 0); [apply Permutation_refl|].
  apply Permutation_trans with (y :: x :: l);
    [apply perm_skip; exact IH | apply perm_swap].
Qed.

(** Sorting rearranges; it adds and drops nothing. *)
Lemma sort_Permutation {A : Type} (cmp : A -> A -> Z) (l : list A) :
  Permutation (sort cmp l) l.
Proof.
  induction l as [|x l IH]; simpl; [apply Permutation_refl|].
  apply Permutation_trans with (x :: sort cmp l);
    [apply insert_Permutation | apply perm_skip; exact IH].
Qed.

Lemma groupByProvider_fold (es : list Entry) (b : list (string * list ModelOut))
    (p : string) :
  match mapGet
          (fold_left
             (fun byProvider item =>
                let list := match mapGet byProvider (provider item) with
                            | Some l => l
                            | None => []
                            end in
                mapSet byProvider (provider item) (list ++ [modelOut item])%list)
             es b) p with
  | Some l => l
  | None => []
  end
  = (match mapGet b p with Some l => l | None => [] end
     ++ List.map modelOut (List.filter (fun e => (provider e =? p)%string) es))%list.
Proof.
  revert b. induction es as [|e es IH]; intros b; simpl.
  - rewrite List.app_nil_r. reflexivity.
  - rewrite IH. unfold mapGet. rewrite assoc_mapSet.
    destruct (String.eqb_spec (provider e) p) as [E|E].
    + subst p. simpl. rewrite <- List.app_assoc. reflexivity.
    + reflexivity.
Qed.

(** The group of a provider holds the entries of that provider, in the
    order of the map. *)
Lemma groupByProvider_get (entries : list (string * Entry)) (p : string) :
  match mapGet (groupByProvider entries) p with Some l => l | None => [] end
  = List.map modelOut
      (List.filter (fun e => (provider e =? p)%string) (List.map snd entries)).
Proof. unfold groupByProvider. rewrite groupByProvider_fold. reflexivity. Qed.

Lemma groupByProvider_keys (entries : list (string * Entry)) :
  NoDup (List.map fst (groupByProvider entries))
  /\ (forall e : Entry,
        In e (List.map snd entries) ->
        In (provider e) (List.map fst (groupByProvider entries))).
Proof.
  unfold groupByProvider.
  assert (G : forall (es : list Entry) (b : list (string * list ModelOut)),
             NoDup (List.map fst b) ->
             let r := fold_left
                        (fun byProvider item =>
                           let list := match mapGet byProvider (provider item) with
                                       | Some l => l
                                       | None => []
                                       end in
                           mapSet byProvider (provider item)
                                  (list ++ [modelOut item])%list)
                        es b in
             NoDup (List.map fst r)
             /\ (forall k : string, In k (List.map fst b) -> In k (List.map fst r))
             /\ (forall e : Entry, In e es -> In (provider e) (List.map fst r))).
  { induction es as [|e es IH]; intros b Hb; simpl.
    - split; [exact Hb|]. split; [tauto | intros e []].
    - match goal with
      | |- context [fold_left _ es ?b'] =>
          destruct (IH b' (NoDup_keys_mapSet _ _ _ Hb)) as [Hn [Hk He]];
          assert (Hadd : forall k : string,
                     In k (List.map fst b) \/ k = provider e ->
                     In k (List.map fst b'))
      end.
      { intros k Hk'. rewrite keys_mapSet.
        destruct (existsb (String.eqb (provider e)) (List.map fst b)) eqn:E.
        - destruct Hk' as [Hk'|Hk']; [exact Hk'|].
          subst k. apply existsb_eqb_In. exact E.
        - apply in_app_iff. destruct Hk' as [Hk'|Hk']; [left; exact Hk'|].
          right. left. now symmetry. }
      split; [exact Hn|]. split.
      + intros k Hk'. apply Hk. apply Hadd. left. exact Hk'.
      + intros e' [E|He']; [subst e'; apply Hk, Hadd; right; reflexivity|].
        apply He. exact He'. }
  destruct (G (List.map snd entries) [] (NoDup_nil _)) as [Hn [_ He]].
  split; assumption.
Qed.

Lemma filter_disjoint_Permutation {A : Type} (f g : A -> bool) (l : list A) :
  (forall x : A, In x l -> f x = true -> g x = false) ->
  Permutation (List.filter f l ++ List.filter g l)
              (List.filter (fun x => f x || g x) l).
Proof.
  induction l as [|x l IH]; intros H; simpl; [apply Permutation_refl|].
  assert (IH' := IH (fun y Hy => H y (or_intror Hy))).
  destruct (f x) eqn:Ef; simpl.
  - rewrite (H x (or_introl eq_refl) Ef). apply perm_skip. exact IH'.
  - destruct (g x); [|exact IH'].
    apply Permutation_sym, Permutation_cons_app, Permutation_sym. exact IH'.
Qed.

(** Distinct keys cut a list into the pieces of its members by key. *)
Lemma partition_Permutation {A : Type} (key : A -> string) (ks : list string)
    (l : list A) :
  NoDup ks ->
  Permutation
    (flat_map (fun k => List.filter (fun x => (key x =? k)%string) l) ks)
    (List.filter (fun x => existsb (String.eqb (key x)) ks) l).
Proof.
  intros Hnd. induction Hnd as [|k ks Hk Hnd IH]; simpl.
  - induction l as [|x l IHl]; simpl; [constructor | exact IHl].
  - apply Permutation_trans
      with (List.filter (fun x => (key x =? k)%string) l
            ++ List.filter (fun x => existsb (String.eqb (key x)) ks) l)%list.
    + apply Permutation_app_head. exact IH.
    + apply filter_disjoint_Permutation.
      intros x _ E. apply String.eqb_eq in E.
      destruct (existsb (String.eqb (key x)) ks) eqn:Ex; [|reflexivity].
      apply existsb_eqb_In in Ex. rewrite E in Ex. contradiction.
Qed.

Lemma filter_all {A : Type} (f : A -> bool) (l : list A) :
  (forall x : A, In x l -> f x = true) -> List.filter f l = l.
Proof.
  induction l as [|x l IH]; intros H; simpl; [reflexivity|].
  rewrite (H x (or_introl eq_refl)), IH; [reflexivity|].
  intros y Hy. apply H. right. exact Hy.
Qed.

Lemma flat_map_Permutation_ext {A B : Type} (f g : A -> list B) (l : list A) :
  (forall x : A, Permutation (f x) (g x)) ->
  Permutation (flat_map f l) (flat_map g l).
Proof.
  intros H. induction l as [|x l IH]; simpl; [constructor|].
  apply Permutation_app; [apply H | exact IH].
Qed.

(** The models the catalogue lists are the entries of the map, each under
    its provider: none is lost and none is listed twice. *)
Lemma aggregate_listed (h : Host) (o g : Response) :
  Permutation
    (listed (providerModels (aggregate h o g)))
    (List.map (fun e => (provider e, modelOut e)) (List.map snd (collectAll o g))).
Proof.
  set (entries := collectAll o g).
  set (E := List.map snd entries).
  destruct (groupByProvider_keys entries) as [Hnd Hcover]. fold E in Hcover.
  unfold aggregate, listed. fold entries. simpl providerModels.
  rewrite List.flat_map_concat_map, List.map_map, <- List.flat_map_concat_map.
  simpl groupProvider. simpl groupModels.
  set (K := List.map fst (groupByProvider entries)) in *.
  apply Permutation_trans
    with (flat_map
            (fun p => List.map (fun e => (provider e, modelOut e))
                        (List.filter (fun e => (provider e =? p)%string) E))
            (sort (Health.sortProviders h) K)).
  { apply flat_map_Permutation_ext. intros p.
    apply Permutation_trans
      with (List.map (pair p)
              (match mapGet (groupByProvider entries) p with
               | Some l => l
               | None => []
               end)).
    - apply Permutation_map, sort_Permutation.
    - rewrite groupByProvider_get. fold E. rewrite List.map_map.
      assert (M : forall l : list Entry,
                 List.map (fun x => (p, modelOut x))
                          (List.filter (fun e => (provider e =? p)%string) l)
                 = List.map (fun e => (provider e, modelOut e))
                            (List.filter (fun e => (provider e =? p)%string) l)).
      { induction l as [|x l IHl]; simpl; [reflexivity|].
        destruct (String.eqb_spec (provider x) p) as [Ex|Ex]; [|exact IHl].
        simpl. rewrite IHl, Ex. reflexivity. }
      rewrite M. apply Permutation_refl. }
  apply Permutation_trans
    with (flat_map
            (fun p => List.map (fun e => (provider e, modelOut e))
                        (List.filter (fun e => (provider e =? p)%string) E))
            K).
  { apply Permutation_flat_map, sort_Permutation. }
  apply Permutation_trans
    with (List.map (fun e => (provider e, modelOut e))
            (flat_map (fun p => List.filter (fun e => (provider e =? p)%string) E) K)).
  { clear. induction K as [|k K IH]; simpl; [constructor|].
    rewrite List.map_app. apply Permutation_app_head. exact IH. }
  apply Permutation_map.
  apply Permutation_trans
    with (List.filter (fun e => existsb (String.eqb (provider e)) K) E).
  { apply partition_Permutation. exact Hnd. }
  rewrite filter_all; [apply Permutation_refl|].
  intros e He. apply existsb_eqb_In. apply Hcover. exact He.
Qed.

Lemma assoc_In_NoDup {A : Type} (m : list (string * A)) (k : string) (a : A) :
  NoDup (List.map fst m) -> In (k, a) m -> assoc m k = Some a.
Proof.
  induction m as [|[k0 b] m IH]; simpl; [tauto|].
  intros Hnd Hin. inversion Hnd; subst.
  destruct Hin as [E|Hin].
  - inversion E; subst. rewrite String.eqb_refl. reflexivity.
  - destruct (String.eqb_spec k0 k) as [E|E]; [|apply IH; assumption].
    subst k0. exfalso. apply H1. apply (in_map fst) in Hin. exact Hin.
Qed.

(** Every entry sits under the key made of its own provider and id. *)
Lemma collectAll_keyed (o g : Response) (k : string) (e : Entry) :
  In (k, e) (collectAll o g) -> k = entryKey (provider e) (entryId e).
Proof.
  intros Hin.
  assert (Hnd : NoDup (List.map fst (collectAll o g))).
  { rewrite collectAll_calls. apply NoDup_keys_collect. constructor. }
  pose proof (assoc_In_NoDup _ _ _ Hnd Hin) as Ha.
  pose proof (collect_fold_get (callsOf o g) [] k) as G.
  rewrite <- collectAll_calls in G. unfold mapGet in G. rewrite Ha in G.
  simpl assoc in G.
  destruct (callsFor k (callsOf o g)) as [|c0 rest] eqn:Ef; [discriminate|].
  inversion G as [Ge].
  destruct (absorb_fold rest (freshEntry c0)) as [Ap [Ai _]]. cbv zeta in Ap, Ai.
  rewrite Ap, Ai. simpl.
  assert (Hc0 : In c0 (callsFor k (callsOf o g))) by (rewrite Ef; left; reflexivity).
  apply filter_In in Hc0. destruct Hc0 as [_ Hc0].
  apply andb_prop in Hc0. destruct Hc0 as [_ Hk].
  apply String.eqb_eq in Hk. symmetry. exact Hk.
Qed.




Lemma Promise_all_order (o g : Response) :
  Promise_all 2 [(0%nat, o); (1%nat, g)] = Some [o; g]
  /\ Promise_all 2 [(1%nat, g); (0%nat, o)] = Some [o; g].
Proof. split; reflexivity. Qed.


End ModelsFacts.



Lemma codeUnitCompare_total (a b : string) :
  0 < JsString.codeUnitCompare a b -> JsString.codeUnitCompare b a <= 0.
Proof.
  unfold JsString.codeUnitCompare. rewrite (String.compare_antisym a b).
  destruct (String.compare b a); simpl; lia.
Qed.

Lemma C9_canonical_providers_listed_witness :
  (forall a b : string,
      0 < localeCompare Sample.host a b -> localeCompare Sample.host b a <= 0)
  /\ (exists extras : list string,
         List.map Health.provider
           (Health.buildProviderHealth Sample.host Sample.files Sample.staticCounts
                                       Sample.nowMs)
         = (Provider.PROVIDER_ORDER ++ extras)%list)
  /\ exists entry : Health.ProviderHealth,
       In entry (Health.buildProviderHealth Sample.host Sample.files Sample.staticCounts
                                            Sample.nowMs)
       /\ Health.provider entry = "qwen"
       /\ Health.status entry = Freshness.missing
       /\ Health.authMode entry = "none".
Proof.
  split; [exact codeUnitCompare_total|].
  destruct (C9_canonical_providers_listed Sample.host Sample.files Sample.staticCounts
              Sample.nowMs codeUnitCompare_total) as [[extras [Hmap _]] Hall].
  split; [exists extras; exact Hmap|].
  destruct (Hall "qwen") as [entry [Hin [Hp Hrest]]].
  - simpl. tauto.
  - exists entry. destruct (Hrest eq_refl eq_refl) as [_ [Hs Ha]].
    repeat split; assumption.
Defined.

(** The health of the sample files on 2026-11-03: the two files of [claude]
    roll up to the worse one, and the provider outside the canonical list
    comes last. *)
Example buildProviderHealth_sample :
  List.map (fun e => (Health.provider e, Health.status e, Health.authMode e))
    (Health.buildProviderHealth Sample.host Sample.files Sample.staticCounts Sample.nowMs)
  = [ ("proxy-access", Freshness.configured, "api-keys");
      ("claude", Freshness.expired, "oauth");
      ("codex", Freshness.missing, "none");
      ("gemini", Freshness.configured, "api-keys");
      ("qwen", Freshness.missing, "none");
      ("iflow", Freshness.missing, "none");
      ("openai-compat", Freshness.missing, "none");
      ("unknown", Freshness.missing, "none");
      ("mistral", Freshness.fresh, "oauth") ].
Proof. vm_compute. reflexivity. Qed.

(** The catalogue for the two listings of "gpt-4o". *)
Example aggregate_gpt4o :
  Models.providerModels
    (Models.aggregate Sample.host (Sample.openaiResponse [Sample.gpt4oA])
                      (Sample.geminiResponse [Sample.gpt4oB]))
  = [ {| Models.groupProvider := "codex";
         Models.count := 1;
         Models.groupModels :=
           [ {| Models.outId := "gpt-4o";
                Models.outDisplayName := "GPT-4o";
                Models.outOwnedBy := "openai";
                Models.outSources := ["gemini"; "openai"] |} ] |} ].
Proof. vm_compute. reflexivity. Qed.

(* ================================================================== *)
(** * Further properties *)
(* ================================================================== *)

(** ** Trimming and lower-casing *)

Section TrimFacts.
Import JsString.

Lemma lowerChar_idempotent (c : ascii) : lowerChar (lowerChar c) = lowerChar c.
Proof. destruct c as [[] [] [] [] [] [] [] []]; reflexivity. Qed.

Lemma isWhiteSpace_lowerChar (c : ascii) : isWhiteSpace (lowerChar c) = isWhiteSpace c.
Proof. destruct c as [[] [] [] [] [] [] [] []]; reflexivity. Qed.

Lemma toLowerCase_idempotent (s : string) : toLowerCase (toLowerCase s) = toLowerCase s.
Proof.
  unfold toLowerCase. induction s as [|c s IH]; simpl; [reflexivity|].
  rewrite lowerChar_idempotent, IH. reflexivity.
Qed.

Lemma trimStart_toLowerCase (s : string) :
  trimStart (toLowerCase s) = toLowerCase (trimStart s).
Proof.
  unfold toLowerCase. induction s as [|c s IH]; simpl; [reflexivity|].
  rewrite isWhiteSpace_lowerChar. destruct (isWhiteSpace c); [exact IH | reflexivity].
Qed.

Lemma trimEnd_toLowerCase (s : string) :
  trimEnd (toLowerCase s) = toLowerCase (trimEnd s).
Proof.
  unfold toLowerCase. induction s as [|c s IH]; simpl; [reflexivity|].
  rewrite IH, isWhiteSpace_lowerChar.
  destruct (trimEnd s); simpl; [destruct (isWhiteSpace c)|]; reflexivity.
Qed.

Lemma trim_toLowerCase (s : string) : trim (toLowerCase s) = toLowerCase (trim s).
Proof. unfold trim. rewrite trimStart_toLowerCase, trimEnd_toLowerCase. reflexivity. Qed.

Lemma trimEnd_idempotent (s : string) : trimEnd (trimEnd s) = trimEnd s.
Proof.
  induction s as [|c s IH]; simpl; [reflexivity|].
  destruct (trimEnd s) as [|d t] eqn:E.
  - destruct (isWhiteSpace c) eqn:Ec; simpl; [reflexivity | rewrite Ec; reflexivity].
  - change (trimEnd (String c (String d t)))
      with (match trimEnd (String d t) with
            | EmptyString => if isWhiteSpace c then EmptyString else String c EmptyString
            | t' => String c t'
            end).
    rewrite IH. reflexivity.
Qed.

(** Trimming the end keeps the first character of a text that does not start
    with white space. *)
Lemma trimEnd_head (c : ascii) (s : string) :
  isWhiteSpace c = false -> exists t : string, trimEnd (String c s) = String c t.
Proof.
  intros Hc. simpl. destruct (trimEnd s) as [|d t].
  - rewrite Hc. eexists; reflexivity.
  - eexists; reflexivity.
Qed.

Lemma trimStart_head (s : string) :
  trimStart s = EmptyString
  \/ exists (c : ascii) (t : string), trimStart s = String c t /\ isWhiteSpace c = false.
Proof.
  induction s as [|c s IH]; simpl; [left; reflexivity|].
  destruct (isWhiteSpace c) eqn:Ec; [exact IH|].
  right. exists c, s. split; [reflexivity | exact Ec].
Qed.

Lemma trim_idempotent (s : string) : trim (trim s) = trim s.
Proof.
  unfold trim. destruct (trimStart_head s) as [E|[c [t [E Hc]]]]; rewrite E.
  - reflexivity.
  - destruct (trimEnd_head c t Hc) as [t' Et]. rewrite Et.
    simpl trimStart. rewrite Hc. rewrite <- Et. apply trimEnd_idempotent.
Qed.

Lemma trimEnd_of_trimmed (x : string) : trim x = x -> trimEnd x = x.
Proof.
  intros H. rewrite <- H at 1. unfold trim. rewrite trimEnd_idempotent. exact H.
Qed.

Lemma trimEnd_append (a x : string) :
  trimEnd x <> EmptyString -> trimEnd (a ++ x) = a ++ trimEnd x.
Proof.
  intros Hx. induction a as [|c a IH]; [reflexivity|].
  simpl append. simpl trimEnd. rewrite IH.
  destruct (a ++ trimEnd x) eqn:E; [|reflexivity].
  destruct a; simpl in E; [contradiction | discriminate].
Qed.

End TrimFacts.

(** ** Provider names and model ids *)

Section NamingFacts.
Import JsString Provider Models.

(** X1: normalizing a provider name a second time changes nothing, with one
    exception: the identifier [openai-compat] itself contains "openai" and is
    normalized to [codex]. *)
Theorem normalizeProviderName_twice (raw : string) :
  normalizeProviderName (normalizeProviderName raw)
  = if (normalizeProviderName raw =? "openai-compat")%string then "codex"
    else normalizeProviderName raw.
Proof.
  rewrite (normalizeProviderName_first_match raw). cbv zeta.
  set (value := toLowerCase (trim raw)).
  destruct (String.eqb_spec value "") as [E0|E0]; [reflexivity|].
  destruct (first_match provider_rules value) as [r|] eqn:Er.
  - apply first_match_canonical in Er. simpl in Er.
    repeat (destruct Er as [Er|Er]; [subst r; reflexivity|]). destruct Er.
  - assert (Hv : toLowerCase (trim value) = value).
    { unfold value. rewrite <- trim_toLowerCase, toLowerCase_idempotent.
      rewrite trim_toLowerCase, trim_idempotent. reflexivity. }
    rewrite (normalizeProviderName_first_match value). cbv zeta.
    rewrite Hv, Er.
    destruct (String.eqb_spec value "") as [|_]; [contradiction|].
    destruct (String.eqb_spec value "openai-compat") as [E|_]; [|reflexivity].
    rewrite E in Er. discriminate Er.
Qed.

(** X2: an owner hint that normalizes to something other than [unknown],
    [proxy-access] and [openai-compat] decides the provider of a model,
    whatever the model id; in every case the provider is the normalized owner
    or one of [claude], [gemini], [qwen], [iflow], [codex], [unknown]; and with
    a fall-back owner an id that contains "claude" gives [claude]. *)
Theorem inferProviderFromModel_owner_first (modelID ownedBy : string) :
  let owner := normalizeProviderName ownedBy in
  let fallback := (owner =? "unknown")%string || (owner =? "proxy-access")%string
                  || (owner =? "openai-compat")%string in
  (fallback = false -> inferProviderFromModel modelID ownedBy = owner)
  /\ (inferProviderFromModel modelID ownedBy = owner
      \/ In (inferProviderFromModel modelID ownedBy)
            ["claude"; "gemini"; "qwen"; "iflow"; "codex"; "unknown"])
  /\ (fallback = true ->
      includes (toLowerCase (trim modelID)) "claude" = true ->
      inferProviderFromModel modelID ownedBy = "claude").
Proof.
  intros owner fallback. unfold inferProviderFromModel.
  rewrite !or_empty_r. fold owner. unfold fallback.
  destruct (owner =? "unknown")%string eqn:E1;
    destruct (owner =? "proxy-access")%string eqn:E2;
    destruct (owner =? "openai-compat")%string eqn:E3; simpl;
    (split; [intros H; first [discriminate H | reflexivity]|]);
    (split;
     [ repeat match goal with
              | |- context [if ?b then _ else _] => destruct b
              end; simpl; tauto
     | intros Hf Hc;
       first
         [ discriminate Hf
         | destruct (truthy (toLowerCase (trim modelID))) eqn:Et; simpl;
           [ rewrite Hc; reflexivity
           | unfold truthy in Et;
             destruct (String.eqb_spec (toLowerCase (trim modelID)) "") as [Ee|Ee];
             [rewrite Ee in Hc; discriminate Hc | discriminate Et] ] ] ]).
Qed.

Lemma startsWith_models_append (x : string) : startsWith ("models/" ++ x) "models/" = true.
Proof. unfold startsWith. destruct x; reflexivity. Qed.

(** X3: for an id [x] without white space around it, the prefix "models/" is
    taken off once and nothing else changes: ["models/" ++ x] gives [x], and
    [x] itself is returned as it is unless it starts with "models/". *)
Theorem normalizeModelID_prefix (x : string) :
  trim x = x -> x <> "" ->
  normalizeModelID ("models/" ++ x) = x
  /\ (startsWith x "models/" = false -> normalizeModelID x = x).
Proof.
  intros Ht Hne.
  assert (He : trimEnd x = x) by (apply trimEnd_of_trimmed; exact Ht).
  split.
  - unfold normalizeModelID. rewrite or_empty_r.
    assert (Hm : trim ("models/" ++ x) = "models/" ++ x).
    { unfold trim. change (trimStart ("models/" ++ x)) with ("models/" ++ x).
      rewrite trimEnd_append by (rewrite He; exact Hne). rewrite He. reflexivity. }
    rewrite Hm.
    replace (truthy ("models/" ++ x)) with true by reflexivity.
    rewrite startsWith_models_append. reflexivity.
  - intros Hs. unfold normalizeModelID. rewrite or_empty_r, Ht, Hs.
    destruct x; [contradiction | reflexivity].
Qed.

End NamingFacts.

Lemma normalizeModelID_prefix_witness :
  JsString.trim "gpt-4o" = "gpt-4o" /\ "gpt-4o" <> ""
  /\ Models.normalizeModelID "models/gpt-4o" = "gpt-4o"
  /\ (JsString.startsWith "gpt-4o" "models/" = false ->
      Models.normalizeModelID "gpt-4o" = "gpt-4o").
Proof.
  split; [reflexivity|]. split; [discriminate|].
  apply (normalizeModelID_prefix "gpt-4o"); [reflexivity | discriminate].
Defined.

(** ** Service state: records and summaries *)

Section ServiceShape.
Import JsString Proc Service.
Variable cfg : Config.
Variable h : Host.

Lemma deriveStateFromStatus_values (statusRaw : string) :
  In (deriveStateFromStatus statusRaw)
     ["unknown"; "running"; "exited"; "restarting"; "created"].
Proof.
  unfold deriveStateFromStatus.
  repeat match goal with
         | |- context [if ?b then _ else _] => destruct b
         end; simpl; tauto.
Qed.

Lemma deriveStateFromStatus_nonempty (statusRaw : string) :
  deriveStateFromStatus statusRaw <> "".
Proof.
  pose proof (deriveStateFromStatus_values statusRaw) as H. simpl in H.
  intros E. rewrite E in H.
  repeat (destruct H as [H|H]; [discriminate H|]). exact H.
Qed.

Lemma or_nonempty (a b : string) : b <> "" -> a ||| b <> "".
Proof. intros Hb. destruct a; [exact Hb | discriminate]. Qed.

Lemma eqb_iff_or_unknown (s v : string) :
  v <> "unknown" -> v <> "" -> ((s =? v)%string = true <-> s ||| "unknown" = v).
Proof.
  intros Hv Hv0. destruct (String.eqb_spec s v) as [E|E].
  - subst s. split; [|reflexivity]. intros _.
    destruct v; [contradiction | reflexivity].
  - split; [discriminate|].
    destruct s as [|c s]; [intros H; symmetry in H; contradiction|].
    change (String c s ||| "unknown") with (String c s). congruence.
Qed.

(** X4: the state a status text is read as is one of [unknown], [running],
    [exited], [restarting], [created]; the state of a record of either
    normalizer is never empty; and its [exited] flag is true exactly when the
    state is "exited", also for an inspected container. *)
Theorem service_state_and_exited_flag (row : DockerJson.Row)
    (inspect : option InspectState) :
  In (deriveStateFromStatus (DockerJson.Status row))
     ["unknown"; "running"; "exited"; "restarting"; "created"]
  /\ state (normalizeComposeServiceState cfg row) <> ""
  /\ state (normalizeContainerState cfg row inspect) <> ""
  /\ (exited (normalizeComposeServiceState cfg row) = true
      <-> state (normalizeComposeServiceState cfg row) = "exited")
  /\ (exited (normalizeContainerState cfg row inspect) = true
      <-> state (normalizeContainerState cfg row inspect) = "exited").
Proof.
  split; [apply deriveStateFromStatus_values|].
  split; [unfold normalizeComposeServiceState; simpl; apply or_nonempty; discriminate|].
  split; [unfold normalizeContainerState; simpl; apply or_nonempty; discriminate|].
  split.
  - unfold normalizeComposeServiceState; simpl. apply eqb_iff_or_unknown; discriminate.
  - unfold normalizeContainerState; simpl. apply eqb_iff_or_unknown; discriminate.
Qed.

Lemma find_or_first_some {A : Type} (f : A -> bool) (l : list A) :
  l <> [] ->
  exists x : A,
    In x l
    /\ match List.find f l with
       | Some y => Some y
       | None => List.hd_error l
       end = Some x.
Proof.
  intros Hne. destruct (List.find f l) as [y|] eqn:E.
  - exists y. split; [|reflexivity]. apply List.find_some in E. tauto.
  - destruct l as [|x l]; [contradiction|]. exists x. split; [left|]; reflexivity.
Qed.

(** X5: whatever the machine answers, a summary of the compose query says
    backend "compose"; when it reports docker as available its error text is
    empty, it has at least one service record and an overall state that is not
    empty; when it reports docker as unavailable it has no record and the
    overall state "unknown". *)
Theorem compose_summary_shape {W : Type} (m : Machine W) (w w' : W) (s : Summary) :
  run m (getComposeServiceSummary cfg h) w = (Some s, w') ->
  backend s = "compose"
  /\ (dockerAvailable s = true ->
      commandError s = "" /\ services s <> [] /\ overallState s <> "")
  /\ (dockerAvailable s = false -> services s = [] /\ overallState s = "unknown").
Proof.
  unfold getComposeServiceSummary, runCommand, newDateISO. simpl.
  destruct (exec m w _ _ _) as [[r|] w1]; [|discriminate].
  destruct (clock m w1) as [now w2].
  intros E. inversion E; subst; clear E. simpl.
  split; [reflexivity|].
  destruct (code r =? 0); simpl.
  - split; [|discriminate]. intros _. split; [reflexivity|].
    set (rows := List.map (normalizeComposeServiceState cfg) (splitJSONLines h (stdout r))).
    assert (Hsv : exists svcs : list ServiceState,
               match rows with [] => [notCreated cfg] | _ :: _ => rows end = svcs
               /\ svcs <> []
               /\ (forall x : ServiceState, In x svcs -> state x <> "")).
    { destruct rows as [|x xs] eqn:Er.
      - exists [notCreated cfg]. split; [reflexivity|]. split; [discriminate|].
        intros x [Hx|[]]. subst x. discriminate.
      - exists (x :: xs). split; [reflexivity|]. split; [discriminate|].
        intros y Hy. rewrite <- Er in Hy. unfold rows in Hy.
        apply in_map_iff in Hy. destruct Hy as [row [Hrow _]]. subst y.
        unfold normalizeComposeServiceState; simpl. apply or_nonempty. discriminate. }
    destruct Hsv as [svcs [Esv [Hne Hst]]]. rewrite Esv.
    split; [exact Hne|].
    destruct (find_or_first_some
                (fun svc => (service svc =? DEFAULT_SERVICE cfg)%string) svcs Hne)
      as [x [Hx Ex]].
    rewrite Ex. destruct (running x); [discriminate | apply Hst; exact Hx].
  - split; [discriminate|]. intros _. split; reflexivity.
Qed.

(** X6: a summary of the direct query says backend "container" and has at
    most one service record: exactly one, with an empty error text and an
    overall state that is not empty, when it reports docker as available, and
    none, with the overall state "unknown", when it does not. *)
Theorem container_summary_shape {W : Type} (m : Machine W) (w w' : W) (s : Summary) :
  run m (getContainerServiceSummary cfg h) w = (Some s, w') ->
  backend s = "container"
  /\ (dockerAvailable s = true ->
      commandError s = "" /\ List.length (services s) = 1%nat /\ overallState s <> "")
  /\ (dockerAvailable s = false -> services s = [] /\ overallState s = "unknown").
Proof.
  unfold getContainerServiceSummary, runCommand, newDateISO. simpl.
  destruct (exec m w _ _ _) as [[r|] w1]; [|discriminate].
  destruct (code r =? 0); simpl.
  - destruct (splitJSONLines h (stdout r)) as [|row rows]; simpl.
    + destruct (clock m w1) as [now w2]. intros E; inversion E; subst; clear E. simpl.
      split; [reflexivity|]. split; [|discriminate].
      intros _. repeat split. discriminate.
    + rewrite run_bind.
      destruct (run m (inspectContainerState h _) w1) as [[i|] w2]; [|discriminate].
      simpl. destruct (clock m w2) as [now w3].
      intros E; inversion E; subst; clear E. simpl.
      split; [reflexivity|]. split; [|discriminate].
      intros _. split; [reflexivity|]. split; [reflexivity|].
      match goal with
      | |- context [if ?b then _ else _] => destruct b
      end; [discriminate | apply or_nonempty; discriminate].
  - destruct (clock m w1) as [now w2]. intros E; inversion E; subst; clear E. simpl.
    split; [reflexivity|]. split; [discriminate|]. intros _. split; reflexivity.
Qed.

End ServiceShape.

Lemma compose_summary_shape_witness :
  exists s : Service.Summary,
    Proc.run Sample.machine (Service.getComposeServiceSummary Sample.cfg Sample.host) tt
      = (Some s, tt)
    /\ Service.backend s = "compose"
    /\ Service.dockerAvailable s = false
    /\ Service.services s = [] /\ Service.overallState s = "unknown".
Proof.
  eexists. split; [vm_compute; reflexivity|].
  match goal with
  | |- Service.backend ?s = _ /\ _ =>
      destruct (compose_summary_shape Sample.cfg Sample.host Sample.machine tt tt s eq_refl)
        as [Hb [_ Hu]]
  end.
  split; [exact Hb|]. split; [reflexivity|]. apply Hu. reflexivity.
Defined.

Lemma container_summary_shape_witness :
  exists s : Service.Summary,
    Proc.run Sample.machine (Service.getContainerServiceSummary Sample.cfg Sample.host) tt
      = (Some s, tt)
    /\ Service.backend s = "container"
    /\ Service.dockerAvailable s = true
    /\ Service.commandError s = "" /\ List.length (Service.services s) = 1%nat
    /\ Service.overallState s <> "".
Proof.
  eexists. split; [vm_compute; reflexivity|].
  match goal with
  | |- Service.backend ?s = _ /\ _ =>
      destruct (container_summary_shape Sample.cfg Sample.host Sample.machine tt tt s
                  eq_refl) as [Hb [Ha _]]
  end.
  split; [exact Hb|]. split; [reflexivity|]. apply Ha. reflexivity.
Defined.

(** ** Service state: which commands are run *)

Section ServiceCalls.
Import JsString Proc Service Trace.
Variable cfg : Config.
Variable h : Host.

Lemma calls_bind {W A B : Type} (m : Machine W) (p : Proc A) (f : A -> Proc B) (w : W) :
  calls m (x <- p ;; f x) w
  = (calls m p w
     ++ match run m p w with
        | (Some a, w') => calls m (f a) w'
        | (None, _) => []
        end)%list.
Proof.
  revert w. induction p as [a | cmd args t k IH | k IH]; intros w; simpl.
  - reflexivity.
  - destruct (exec m w cmd args t) as [[r|] w']; [rewrite IH|]; reflexivity.
  - destruct (clock m w) as [s w']. apply IH.
Qed.

Lemma compose_calls {W : Type} (m : Machine W) (w : W) :
  calls m (getComposeServiceSummary cfg h) w = [composePsCall cfg].
Proof.
  unfold getComposeServiceSummary, runCommand, newDateISO, composePsCall. simpl.
  destruct (exec m w _ _ _) as [[r|] w1]; [|reflexivity].
  destruct (clock m w1). reflexivity.
Qed.

(** X7: in automatic mode a compose query that reports docker as available
    is the answer, and the direct backend is not queried: the only command
    run is [docker compose ps].  When both queries report docker as
    unavailable the answer is the summary of the compose query. *)
Theorem automatic_resolution_order {W : Type} (m : Machine W) (w w1 : W)
    (compose : Summary) :
  DOCKER_MODE_is_automatic cfg ->
  run m (getComposeServiceSummary cfg h) w = (Some compose, w1) ->
  (dockerAvailable compose = true ->
   run m (getServiceSummary cfg h) w = (Some compose, w1)
   /\ calls m (getServiceSummary cfg h) w = [composePsCall cfg])
  /\ (dockerAvailable compose = false ->
      forall (container : Summary) (w2 : W),
        run m (getContainerServiceSummary cfg h) w1 = (Some container, w2) ->
        dockerAvailable container = false ->
        run m (getServiceSummary cfg h) w = (Some compose, w2)).
Proof.
  intros [Hm1 Hm2] Hc. unfold getServiceSummary.
  destruct (String.eqb_spec (DOCKER_MODE cfg) "compose"); [contradiction|].
  destruct (String.eqb_spec (DOCKER_MODE cfg) "container"); [contradiction|].
  split.
  - intros Ha. rewrite run_bind, calls_bind, compose_calls, Hc, Ha.
    split; reflexivity.
  - intros Hu container w2 Hd Hdu.
    rewrite run_bind, Hc, Hu, run_bind, Hd, Hdu. reflexivity.
Qed.

Lemma inspect_calls_shape {W : Type} (m : Machine W) (w : W) (name : string) :
  calls m (inspectContainerState h name) w = []
  \/ calls m (inspectContainerState h name) w
     = [("docker", ArgsArray ["inspect"; trim name; "--format"; "{{json .State}}"], 10000)].
Proof.
  unfold inspectContainerState, runCommand. rewrite or_empty_r.
  destruct (truthy (trim name)); simpl; [|left; reflexivity].
  right. destruct (exec m w _ _ _) as [[r|] w1]; [|reflexivity].
  destruct (code r =? 0); simpl; [|reflexivity].
  destruct (truthy (trim (stdout r ||| ""))); simpl; [|reflexivity].
  destruct (JSON_parse_state h _); reflexivity.
Qed.

(** X8: a container name that is empty or all white space is not inspected:
    the function returns [null] without running a command.  An inspection
    that returns a state has run exactly one command, [docker inspect] on the
    trimmed name, and its status is in lower case. *)
Theorem inspectContainerState_guards (name : string) :
  (trim name = "" -> inspectContainerState h name = Ret None)
  /\ (forall (W : Type) (m : Machine W) (w w' : W) (i : InspectState),
        run m (inspectContainerState h name) w = (Some (Some i), w') ->
        trim name <> ""
        /\ toLowerCase (inspectStatus i) = inspectStatus i
        /\ calls m (inspectContainerState h name) w
           = [("docker",
               ArgsArray ["inspect"; trim name; "--format"; "{{json .State}}"], 10000)]).
Proof.
  split.
  - intros E. unfold inspectContainerState. rewrite or_empty_r, E. reflexivity.
  - intros W m w w' i. unfold inspectContainerState, runCommand. rewrite or_empty_r.
    destruct (truthy (trim name)) eqn:Et; simpl; [|discriminate].
    apply truthy_true_iff in Et.
    destruct (exec m w _ _ _) as [[r|] w1]; [|discriminate].
    destruct (code r =? 0); simpl; [|discriminate].
    destruct (truthy (trim (stdout r ||| ""))); simpl; [|discriminate].
    destruct (JSON_parse_state h _) as [parsed|]; simpl; [|discriminate].
    intros E. inversion E; subst; clear E. simpl.
    split; [exact Et|]. split; [apply toLowerCase_idempotent | reflexivity].
Qed.

(** X9: when the direct backend is forced, [docker compose] is never run: a
    summary request runs [docker ps], then at most [docker inspect], and
    nothing else. *)
Theorem forced_container_mode_calls {W : Type} (m : Machine W) (w : W) :
  DOCKER_MODE cfg = "container" ->
  exists (ps : string * SpawnArgs * Z) (rest : list (string * SpawnArgs * Z)),
    calls m (getServiceSummary cfg h) w = ps :: rest
    /\ ps = ("docker",
             ArgsArray ["ps"; "-a"; "--filter";
                        "name=^/" ++ TARGET_CONTAINER cfg ++ "$";
                        "--format"; "{{json .}}"], 15000)
    /\ (rest = []
        \/ exists name : string,
            rest = [("docker",
                     ArgsArray ["inspect"; name; "--format"; "{{json .State}}"], 10000)]).
Proof.
  intros Hmode. unfold getServiceSummary. rewrite Hmode. simpl.
  unfold getContainerServiceSummary, runCommand, newDateISO. simpl.
  eexists. eexists. split; [reflexivity|]. split; [reflexivity|].
  destruct (exec m w _ _ _) as [[r|] w1]; [|left; reflexivity].
  destruct (code r =? 0); simpl.
  - destruct (splitJSONLines h (stdout r)) as [|row rows]; simpl.
    + destruct (clock m w1). left. reflexivity.
    + rewrite calls_bind.
      pose proof (inspect_calls_shape m w1
                    (DockerJson.Names row ||| TARGET_CONTAINER cfg)) as Hshape.
      destruct (run m (inspectContainerState h _) w1) as [[i|] w2]; simpl;
        [destruct (clock m w2); simpl|]; rewrite List.app_nil_r;
        (destruct Hshape as [E|E];
         rewrite E; [left; reflexivity | right; eexists; reflexivity]).
  - destruct (clock m w1). left. reflexivity.
Qed.

End ServiceCalls.

Lemma automatic_resolution_order_witness :
  Service.DOCKER_MODE_is_automatic Sample.cfg
  /\ Trace.calls Fixtures.quietMachine
       (Service.getServiceSummary Sample.cfg Sample.host) tt
     = [("docker",
         Proc.ArgsArray ["compose"; "-f"; "/app/docker-compose.yml"; "ps"; "--all";
                         "--format"; "json"], 15000)].
Proof.
  split; [split; discriminate|].
  edestruct (automatic_resolution_order Sample.cfg Sample.host Fixtures.quietMachine tt)
    as [Hok _].
  - split; discriminate.
  - vm_compute. reflexivity.
  - destruct Hok as [_ Hcalls]; [reflexivity | exact Hcalls].
Defined.

Lemma forced_container_mode_calls_witness :
  DOCKER_MODE Fixtures.containerCfg = "container"
  /\ exists (ps : string * Proc.SpawnArgs * Z) (rest : list (string * Proc.SpawnArgs * Z)),
      Trace.calls Sample.machine
        (Service.getServiceSummary Fixtures.containerCfg Sample.host) tt = ps :: rest
      /\ rest = [].
Proof.
  split; [reflexivity|].
  destruct (forced_container_mode_calls Fixtures.containerCfg Sample.host
              Sample.machine tt eq_refl) as [ps [rest [Hc _]]].
  exists ps, rest. split; [exact Hc|].
  vm_compute in Hc. inversion Hc. reflexivity.
Defined.

(** ** Credential freshness: the fall-back signals *)

Section FreshnessFallbacks.
Import JsString Freshness.
Variable h : Host.

(** A file is never classified as [missing] or [configured]. *)
Lemma evaluate_level_values (f : AuthFile) (nowMs : Z) :
  In (level (evaluateOAuthFileFreshness h f nowMs))
     [error; expired; warning; fresh; stale; unknown].
Proof.
  unfold evaluateOAuthFileFreshness.
  repeat match goal with
         | |- context [if ?b then _ else _] => destruct b
         | |- context [match Date_parse ?a ?b with _ => _ end] => destruct (Date_parse a b)
         end; simpl; tauto.
Qed.

(** X10: without a parse error and without an expiry that parses, a refresh
    time that parses decides: a refresh at most 7 days old gives [fresh], one
    at most 30 days old gives [warning], an older one gives [stale]; no
    remaining time is reported. *)
Theorem refresh_fallback_freshness (f : AuthFile) (nowMs refreshMs : Z) :
  parseError f = "" ->
  Date_parse h (expiresAt f) = None ->
  Date_parse h (lastRefresh f) = Some refreshMs ->
  let r := evaluateOAuthFileFreshness h f nowMs in
  expiresInMs r = None
  /\ (nowMs - refreshMs <= 7 * (24 * 60 * 60 * 1000) -> level r = fresh)
  /\ (7 * (24 * 60 * 60 * 1000) < nowMs - refreshMs <= 30 * (24 * 60 * 60 * 1000) ->
      level r = warning)
  /\ (30 * (24 * 60 * 60 * 1000) < nowMs - refreshMs -> level r = stale).
Proof.
  intros Hp He Hr. unfold evaluateOAuthFileFreshness.
  rewrite Hp. simpl truthy. cbv iota.
  assert (Ht : truthy (lastRefresh f) = true).
  { apply truthy_true_iff. intros E. rewrite E in Hr. discriminate Hr. }
  rewrite He, Ht, Hr.
  replace (if truthy (expiresAt f) then @None Z else None) with (@None Z)
    by (destruct (truthy (expiresAt f)); reflexivity).
  cbv zeta. unfold DAY_MS.
  destruct (Z.leb_spec (nowMs - refreshMs) (7 * (24 * 60 * 60 * 1000)));
    [|destruct (Z.leb_spec (nowMs - refreshMs) (30 * (24 * 60 * 60 * 1000)))];
    simpl; repeat split; intros; try reflexivity; lia.
Qed.

(** X11: with no parse error, no expiry and no refresh time that parse, the
    modification time decides between [unknown] (at most 30 days old) and
    [stale]; with no time at all the level is [unknown]. *)
Theorem modified_fallback_freshness (f : AuthFile) (nowMs : Z) :
  parseError f = "" ->
  Date_parse h (expiresAt f) = None ->
  Date_parse h (lastRefresh f) = None ->
  let r := evaluateOAuthFileFreshness h f nowMs in
  expiresInMs r = None
  /\ (forall modifiedMs : Z,
        Date_parse h (modifiedAt f) = Some modifiedMs ->
        (nowMs - modifiedMs <= 30 * (24 * 60 * 60 * 1000) -> level r = unknown)
        /\ (30 * (24 * 60 * 60 * 1000) < nowMs - modifiedMs -> level r = stale))
  /\ (Date_parse h (modifiedAt f) = None -> level r = unknown).
Proof.
  intros Hp He Hr. unfold evaluateOAuthFileFreshness.
  rewrite Hp. simpl truthy. cbv iota. rewrite He, Hr.
  replace (if truthy (expiresAt f) then @None Z else None) with (@None Z)
    by (destruct (truthy (expiresAt f)); reflexivity).
  replace (if truthy (lastRefresh f) then @None Z else None) with (@None Z)
    by (destruct (truthy (lastRefresh f)); reflexivity).
  cbv zeta.
  destruct (Date_parse h (modifiedAt f)) as [modifiedMs|] eqn:Em.
  - assert (Ht : truthy (modifiedAt f) = true).
    { apply truthy_true_iff. intros E. rewrite E in Em. discriminate Em. }
    rewrite Ht. unfold DAY_MS.
    destruct (Z.leb_spec (nowMs - modifiedMs) (30 * (24 * 60 * 60 * 1000))); simpl;
      (split; [reflexivity|]); (split; [|discriminate]);
      intros m' Em'; inversion Em'; subst m'; split; intros; try reflexivity; lia.
  - replace (if truthy (modifiedAt f) then @None Z else None) with (@None Z)
      by (destruct (truthy (modifiedAt f)); reflexivity).
    simpl. split; [reflexivity|]. split; [discriminate | reflexivity].
Qed.

End FreshnessFallbacks.

Lemma refresh_fallback_freshness_witness :
  Freshness.parseError Fixtures.refreshedFile = ""
  /\ Date_parse Sample.host (Freshness.expiresAt Fixtures.refreshedFile) = None
  /\ Date_parse Sample.host (Freshness.lastRefresh Fixtures.refreshedFile)
     = Some 1793491200000
  /\ Freshness.level
       (Freshness.evaluateOAuthFileFreshness Sample.host Fixtures.refreshedFile
          Sample.nowMs) = Freshness.fresh.
Proof.
  split; [reflexivity|]. split; [reflexivity|]. split; [reflexivity|].
  apply (refresh_fallback_freshness Sample.host Fixtures.refreshedFile Sample.nowMs
           1793491200000 eq_refl eq_refl eq_refl).
  unfold Sample.nowMs. lia.
Defined.

Lemma modified_fallback_freshness_witness :
  Freshness.parseError Fixtures.bareFile = ""
  /\ Date_parse Sample.host (Freshness.expiresAt Fixtures.bareFile) = None
  /\ Date_parse Sample.host (Freshness.lastRefresh Fixtures.bareFile) = None
  /\ Freshness.level
       (Freshness.evaluateOAuthFileFreshness Sample.host Fixtures.bareFile Sample.nowMs)
     = Freshness.unknown.
Proof.
  split; [reflexivity|]. split; [reflexivity|]. split; [reflexivity|].
  destruct (modified_fallback_freshness Sample.host Fixtures.bareFile Sample.nowMs
              eq_refl eq_refl eq_refl) as [_ [Hm _]].
  destruct (Hm 1793361600000 eq_refl) as [Hu _].
  apply Hu. unfold Sample.nowMs. lia.
Defined.

(** ** Provider health: the entries *)

Section HealthShape.
Import JsString Js Provider Freshness Health.
Variable h : Host.

(** The fields of the entry of provider [p], from the files grouped under
    it. *)
Lemma providerEntry_fields (oauthFiles : list AuthFile) staticCounts nowMs p :
  let e := providerEntry h (groupFiles oauthFiles) staticCounts nowMs p in
  let mine := filesOf oauthFiles p in
  let expiryValues := finiteDates h (List.map (fun f => expiresAt f ||| "") mine) in
  let refreshValues :=
    finiteDates h (List.map (fun f => lastRefresh f ||| modifiedAt f ||| "") mine) in
  oauthCount e = Z.of_nat (List.length mine)
  /\ expiredCount e = count (fun ts => ts <=? nowMs) expiryValues
  /\ expiringSoonCount e
     = count (fun ts => (nowMs <? ts) && (ts <=? nowMs + DAY_MS)) expiryValues
  /\ parseErrors e = count (fun f => truthy (parseError f)) mine
  /\ soonestExpiry e
     = match expiryValues with [] => "" | _ => toISOString h (Math_min expiryValues) end
  /\ latestRefresh e
     = match refreshValues with [] => "" | _ => toISOString h (Math_max refreshValues) end.
Proof.
  unfold providerEntry. rewrite groupFiles_get.
  destruct (filesOf oauthFiles p) as [|f fs]; simpl List.length.
  - change (0 <? Z.of_nat 0) with false. cbv iota.
    destruct (positive (staticKeyCountOf staticCounts p)); simpl; repeat split.
  - replace (0 <? Z.of_nat (S (List.length fs))) with true
      by (symmetry; apply Z.ltb_lt; lia).
    cbv iota. cbv zeta. repeat split.
Qed.

Lemma NoDup_setAdd (s : list string) (x : string) : NoDup s -> NoDup (setAdd s x).
Proof.
  intros H. unfold setAdd. destruct (existsb (String.eqb x) s) eqn:E; [exact H|].
  assert (Hx : ~ In x s).
  { intros Hin. apply existsb_eqb_In in Hin. congruence. }
  clear E. induction H as [|y l Hy Hl IH]; simpl.
  - constructor; [intros [] | constructor].
  - constructor.
    + rewrite in_app_iff. simpl. intros [Hin|[Hin|[]]]; [contradiction|].
      apply Hx. left. now symmetry.
    + apply IH. intros Hin. apply Hx. right. exact Hin.
Qed.

Lemma NoDup_fold_setAdd (l s : list string) : NoDup s -> NoDup (fold_left setAdd l s).
Proof.
  revert s. induction l as [|x l IH]; intros s H; simpl; [exact H|].
  apply IH, NoDup_setAdd, H.
Qed.

Lemma providers_of_output (oauthFiles : list AuthFile) staticCounts nowMs :
  List.map provider (buildProviderHealth h oauthFiles staticCounts nowMs)
  = orderedProviders h (groupFiles oauthFiles) staticCounts.
Proof.
  unfold buildProviderHealth. rewrite List.map_map.
  rewrite (List.map_ext _ (fun p => p)) by (intros p; apply provider_providerEntry).
  apply List.map_id.
Qed.

Lemma NoDup_orderedProviders (oauthFiles : list AuthFile) staticCounts :
  NoDup (orderedProviders h (groupFiles oauthFiles) staticCounts).
Proof.
  unfold orderedProviders, newSet.
  apply (Permutation_NoDup (Permutation_sym (sort_Permutation _ _))).
  apply NoDup_fold_setAdd. constructor.
Qed.

(** X12: no provider is listed twice, and every file is counted under exactly
    one provider: the [oauthCount] fields add up to the number of files. *)
Theorem providers_listed_once (oauthFiles : list AuthFile)
    (staticCounts : list (string * Z)) (nowMs : Z) :
  let output := buildProviderHealth h oauthFiles staticCounts nowMs in
  NoDup (List.map provider output)
  /\ fold_right Z.add 0 (List.map oauthCount output)
     = Z.of_nat (List.length oauthFiles).
Proof.
  intros output. split.
  - unfold output. rewrite providers_of_output. apply NoDup_orderedProviders.
  - unfold output, buildProviderHealth. rewrite List.map_map.
    set (ks := orderedProviders h (groupFiles oauthFiles) staticCounts).
    assert (Hsum : fold_right Z.add 0
                     (List.map (fun p => oauthCount
                                  (providerEntry h (groupFiles oauthFiles)
                                                 staticCounts nowMs p)) ks)
                   = Z.of_nat
                       (List.length
                          (flat_map (fun k => List.filter
                                       (fun f => (groupKey f =? k)%string) oauthFiles)
                                    ks))).
    { induction ks as [|k ks IH]; simpl; [reflexivity|].
      rewrite IH, List.length_app, Nat2Z.inj_add.
      destruct (providerEntry_fields oauthFiles staticCounts nowMs k) as [Ho _].
      cbv zeta in Ho. rewrite Ho. reflexivity. }
    rewrite Hsum. f_equal.
    rewrite (Permutation_length
               (partition_Permutation groupKey ks oauthFiles
                  (NoDup_orderedProviders oauthFiles staticCounts))).
    rewrite filter_all; [reflexivity|].
    intros f Hf. apply existsb_eqb_In. unfold ks.
    apply In_orderedProviders. right. right. apply groupFiles_keys. exact Hf.
Qed.

Lemma severity_top (l : Level) : 7 <= FRESHNESS_SEVERITY l -> l = error.
Proof. destruct l; simpl; intros H; try lia; reflexivity. Qed.

Lemma entry_status_ge (oauthFiles : list AuthFile) staticCounts nowMs p (f : AuthFile) :
  In f (filesOf oauthFiles p) ->
  FRESHNESS_SEVERITY (level (evaluateOAuthFileFreshness h f nowMs))
  <= FRESHNESS_SEVERITY
       (status (providerEntry h (groupFiles oauthFiles) staticCounts nowMs p)).
Proof.
  intros Hf.
  destruct (status_providerEntry h oauthFiles staticCounts nowMs p) as [Hs _].
  cbv zeta in Hs. rewrite Hs.
  destruct (filesOf oauthFiles p) as [|f0 fs] eqn:Em; [destruct Hf|].
  set (evals := List.map (fun f1 => evaluateOAuthFileFreshness h f1 nowMs) (f0 :: fs)).
  destruct (worstOf_max evals) as [_ Hmax]; [discriminate|].
  apply Hmax. apply in_map_iff. exists f. split; [reflexivity | exact Hf].
Qed.

(** X13: a file that could not be parsed makes the status of its provider
    [error], whatever the other files of the provider say. *)
Theorem parse_error_dominates (oauthFiles : list AuthFile)
    (staticCounts : list (string * Z)) (nowMs : Z) (f : AuthFile) :
  In f oauthFiles ->
  parseError f <> "" ->
  level (evaluateOAuthFileFreshness h f nowMs) = error
  /\ exists entry : ProviderHealth,
      In entry (buildProviderHealth h oauthFiles staticCounts nowMs)
      /\ provider entry = groupKey f
      /\ status entry = error
      /\ 0 < parseErrors entry.
Proof.
  intros Hf Hp.
  assert (Hl : level (evaluateOAuthFileFreshness h f nowMs) = error).
  { unfold evaluateOAuthFileFreshness.
    apply truthy_true_iff in Hp. rewrite Hp. reflexivity. }
  split; [exact Hl|].
  assert (Hmine : In f (filesOf oauthFiles (groupKey f))).
  { apply filter_In. split; [exact Hf | apply String.eqb_refl]. }
  exists (providerEntry h (groupFiles oauthFiles) staticCounts nowMs (groupKey f)).
  split; [|split; [apply provider_providerEntry|split]].
  - apply In_buildProviderHealth. rewrite provider_providerEntry.
    split; [reflexivity|]. apply In_orderedProviders. right. right.
    apply groupFiles_keys. exact Hf.
  - apply severity_top.
    pose proof (entry_status_ge oauthFiles staticCounts nowMs (groupKey f) f Hmine) as H.
    rewrite Hl in H. exact H.
  - destruct (providerEntry_fields oauthFiles staticCounts nowMs (groupKey f))
      as [_ [_ [_ [Hpe _]]]].
    cbv zeta in Hpe. rewrite Hpe. unfold count.
    assert (Hin : In f (List.filter (fun f0 => truthy (parseError f0))
                          (filesOf oauthFiles (groupKey f)))).
    { apply filter_In. split; [exact Hmine | apply truthy_true_iff; exact Hp]. }
    destruct (List.filter _ _); [destruct Hin | simpl; lia].
Qed.

End HealthShape.

Lemma parse_error_dominates_witness :
  In Fixtures.brokenFile Fixtures.files
  /\ Freshness.parseError Fixtures.brokenFile <> ""
  /\ exists entry : Health.ProviderHealth,
      In entry (Health.buildProviderHealth Sample.host Fixtures.files
                  Sample.staticCounts Sample.nowMs)
      /\ Health.provider entry = "gemini"
      /\ Health.status entry = Freshness.error.
Proof.
  assert (Hin : In Fixtures.brokenFile Fixtures.files) by (simpl; tauto).
  assert (Hne : Freshness.parseError Fixtures.brokenFile <> "") by discriminate.
  split; [exact Hin|]. split; [exact Hne|].
  destruct (parse_error_dominates Sample.host Fixtures.files Sample.staticCounts
              Sample.nowMs Fixtures.brokenFile Hin Hne)
    as [_ [entry [He [Hp [Hs _]]]]].
  exists entry. split; [exact He|]. split; [exact Hp | exact Hs].
Defined.

(** ** Provider health: counts and dates *)

Section HealthCounts.
Import JsString Js Provider Freshness Health.
Variable h : Host.

Lemma finiteDates_length (l : list string) :
  (List.length (finiteDates h l) <= List.length l)%nat.
Proof.
  unfold finiteDates. induction l as [|s l IH]; simpl; [lia|].
  destruct (Date_parse h s); simpl; lia.
Qed.

Lemma filter_disjoint_length {A : Type} (f g : A -> bool) (l : list A) :
  (forall x : A, f x = true -> g x = false) ->
  (List.length (List.filter f l) + List.length (List.filter g l) <= List.length l)%nat.
Proof.
  intros H. induction l as [|x l IH]; simpl; [lia|].
  destruct (f x) eqn:Ef; [rewrite (H x Ef)|destruct (g x)]; simpl; lia.
Qed.

Lemma entry_of_output (oauthFiles : list AuthFile) staticCounts nowMs
    (entry : ProviderHealth) :
  In entry (buildProviderHealth h oauthFiles staticCounts nowMs) ->
  entry = providerEntry h (groupFiles oauthFiles) staticCounts nowMs (provider entry).
Proof. intros H. apply In_buildProviderHealth in H. tauto. Qed.

(** X14: in every entry the counts are consistent: no file is counted both as
    expired and as expiring soon, so the two counts together do not exceed the
    number of files of the provider, and neither does the number of parse
    errors. *)
Theorem health_counts_bounded (oauthFiles : list AuthFile)
    (staticCounts : list (string * Z)) (nowMs : Z) (entry : ProviderHealth) :
  In entry (buildProviderHealth h oauthFiles staticCounts nowMs) ->
  0 <= expiredCount entry /\ 0 <= expiringSoonCount entry
  /\ expiredCount entry + expiringSoonCount entry <= oauthCount entry
  /\ 0 <= parseErrors entry <= oauthCount entry.
Proof.
  intros Hin. rewrite (entry_of_output _ _ _ _ Hin).
  destruct (providerEntry_fields h oauthFiles staticCounts nowMs (provider entry))
    as [Ho [He [Hs [Hp _]]]].
  cbv zeta in Ho, He, Hs, Hp. rewrite Ho, He, Hs, Hp. unfold count.
  set (mine := filesOf oauthFiles (provider entry)).
  set (vals := finiteDates h (List.map (fun f => expiresAt f ||| "") mine)).
  pose proof (finiteDates_length (List.map (fun f => expiresAt f ||| "") mine)) as Hl.
  rewrite List.length_map in Hl. fold vals in Hl.
  pose proof (filter_disjoint_length
                (fun ts => ts <=? nowMs)
                (fun ts => (nowMs <? ts) && (ts <=? nowMs + DAY_MS)) vals) as Hd.
  pose proof (List.filter_length_le (fun f => truthy (parseError f)) mine) as Hpe.
  assert (Hdis : forall x : Z,
             (x <=? nowMs) = true -> (nowMs <? x) && (x <=? nowMs + DAY_MS) = false).
  { intros x Hx. apply Z.leb_le in Hx.
    destruct (Z.ltb_spec nowMs x); [lia | reflexivity]. }
  specialize (Hd Hdis). lia.
Qed.

Lemma finiteDates_In (l : list string) (t : Z) :
  In t (finiteDates h l) <-> exists s : string, In s l /\ Date_parse h s = Some t.
Proof.
  unfold finiteDates. rewrite in_flat_map. split.
  - intros [s [Hs Ht]]. exists s. split; [exact Hs|].
    destruct (Date_parse h s) as [t'|]; [|destruct Ht].
    destruct Ht as [E|[]]. rewrite E. reflexivity.
  - intros [s [Hs Ht]]. exists s. split; [exact Hs|]. rewrite Ht. left. reflexivity.
Qed.

Lemma count_positive {A : Type} (p : A -> bool) (l : list A) :
  0 < count p l -> exists x : A, In x l /\ p x = true.
Proof.
  unfold count. intros H.
  destruct (List.filter p l) as [|x xs] eqn:E; [simpl in H; lia|].
  assert (Hx : In x (List.filter p l)) by (rewrite E; left; reflexivity).
  apply filter_In in Hx. exists x. exact Hx.
Qed.

(** The level of a file whose expiry parses to [t]: the expiry decides unless
    the file has a parse error. *)
Lemma evaluate_expiry_or_error (f : AuthFile) (nowMs t : Z) :
  Date_parse h (expiresAt f ||| "") = Some t ->
  level (evaluateOAuthFileFreshness h f nowMs) = error
  \/ level (evaluateOAuthFileFreshness h f nowMs)
     = (if t - nowMs <=? 0 then expired
        else if t - nowMs <=? DAY_MS then warning else fresh).
Proof.
  rewrite or_empty_r. intros Ht.
  destruct (String.eqb_spec (parseError f) "") as [Ep|Ep].
  - right. apply evaluate_with_expiry; assumption.
  - left. unfold evaluateOAuthFileFreshness.
    apply truthy_true_iff in Ep. rewrite Ep. reflexivity.
Qed.

(** X15: the counts and the status agree: an entry that counts an expired
    file has status [expired] or [error], and an entry that counts a file
    expiring within 24 hours has a status at least as severe as [warning]. *)
Theorem health_counts_raise_status (oauthFiles : list AuthFile)
    (staticCounts : list (string * Z)) (nowMs : Z) (entry : ProviderHealth) :
  In entry (buildProviderHealth h oauthFiles staticCounts nowMs) ->
  (0 < expiredCount entry -> status entry = expired \/ status entry = error)
  /\ (0 < expiringSoonCount entry ->
      FRESHNESS_SEVERITY warning <= FRESHNESS_SEVERITY (status entry)).
Proof.
  intros Hin. rewrite (entry_of_output _ _ _ _ Hin).
  set (p := provider entry).
  destruct (providerEntry_fields h oauthFiles staticCounts nowMs p)
    as [_ [He [Hs _]]].
  cbv zeta in He, Hs. rewrite He, Hs.
  assert (Hfile : forall (q : Z -> bool),
             0 < count q (finiteDates h (List.map (fun f => expiresAt f ||| "")
                                                   (filesOf oauthFiles p))) ->
             exists (f : AuthFile) (t : Z),
               In f (filesOf oauthFiles p)
               /\ Date_parse h (expiresAt f ||| "") = Some t /\ q t = true).
  { intros q Hq. apply count_positive in Hq. destruct Hq as [t [Ht Hqt]].
    apply finiteDates_In in Ht. destruct Ht as [s [Hs' Hts]].
    apply in_map_iff in Hs'. destruct Hs' as [f [Ef Hf]]. subst s.
    exists f, t. repeat split; assumption. }
  split; intros Hc; apply Hfile in Hc; destruct Hc as [f [t [Hf [Ht Hq]]]];
    pose proof (entry_status_ge h oauthFiles staticCounts nowMs p f Hf) as Hge;
    destruct (evaluate_expiry_or_error f nowMs t Ht) as [El|El]; rewrite El in Hge.
  - right. apply severity_top. exact Hge.
  - apply Z.leb_le in Hq.
    destruct (Z.leb_spec (t - nowMs) 0); [|lia].
    simpl in Hge.
    destruct (status (providerEntry h (groupFiles oauthFiles) staticCounts nowMs p));
      simpl in Hge; try lia; [left | right]; reflexivity.
  - simpl in Hge |- *. lia.
  - apply andb_prop in Hq. destruct Hq as [Hq1 Hq2].
    apply Z.ltb_lt in Hq1. apply Z.leb_le in Hq2.
    destruct (Z.leb_spec (t - nowMs) 0); [lia|].
    destruct (Z.leb_spec (t - nowMs) DAY_MS); [|lia].
    exact Hge.
Qed.

Lemma Math_min_spec (l : list Z) :
  l <> [] -> In (Math_min l) l /\ (forall v : Z, In v l -> Math_min l <= v).
Proof.
  intros Hne. destruct l as [|x l]; [contradiction|]. unfold Math_min. simpl hd. simpl tl.
  clear Hne. revert x. induction l as [|y l IH]; intros x; simpl.
  - split; [left; reflexivity|]. intros v [E|[]]. subst v. lia.
  - destruct (IH (Z.min x y)) as [Hin Hle]. split.
    + destruct Hin as [E|Hin]; [|right; right; exact Hin].
      rewrite <- E. destruct (Z.min_spec x y) as [[_ Em]|[_ Em]]; rewrite Em;
        [left | right; left]; reflexivity.
    + intros v [E|[E|Hv]].
      * subst v. specialize (Hle (Z.min x y) (or_introl eq_refl)). lia.
      * subst v. specialize (Hle (Z.min x y) (or_introl eq_refl)). lia.
      * apply Hle. right. exact Hv.
Qed.

Lemma Math_max_spec (l : list Z) :
  l <> [] -> In (Math_max l) l /\ (forall v : Z, In v l -> v <= Math_max l).
Proof.
  intros Hne. destruct l as [|x l]; [contradiction|]. unfold Math_max. simpl hd. simpl tl.
  clear Hne. revert x. induction l as [|y l IH]; intros x; simpl.
  - split; [left; reflexivity|]. intros v [E|[]]. subst v. lia.
  - destruct (IH (Z.max x y)) as [Hin Hle]. split.
    + destruct Hin as [E|Hin]; [|right; right; exact Hin].
      rewrite <- E. destruct (Z.max_spec x y) as [[_ Em]|[_ Em]]; rewrite Em;
        [right; left | left]; reflexivity.
    + intros v [E|[E|Hv]].
      * subst v. specialize (Hle (Z.max x y) (or_introl eq_refl)). lia.
      * subst v. specialize (Hle (Z.max x y) (or_introl eq_refl)). lia.
      * apply Hle. right. exact Hv.
Qed.

(** X16: [soonestExpiry] is the earliest of the expiry times of the
    provider's files that parse, and [latestRefresh] the latest of their
    refresh times (the modification time standing in for a missing refresh
    time); each is empty when no such time parses. *)
Theorem health_soonest_and_latest (oauthFiles : list AuthFile)
    (staticCounts : list (string * Z)) (nowMs : Z) (entry : ProviderHealth) :
  In entry (buildProviderHealth h oauthFiles staticCounts nowMs) ->
  let mine := filesOf oauthFiles (provider entry) in
  let expiryValues := finiteDates h (List.map expiresAt mine) in
  let refreshValues :=
    finiteDates h (List.map (fun f => lastRefresh f ||| modifiedAt f) mine) in
  (expiryValues = [] -> soonestExpiry entry = "")
  /\ (expiryValues <> [] ->
      exists t : Z,
        In t expiryValues /\ (forall v : Z, In v expiryValues -> t <= v)
        /\ soonestExpiry entry = toISOString h t)
  /\ (refreshValues = [] -> latestRefresh entry = "")
  /\ (refreshValues <> [] ->
      exists t : Z,
        In t refreshValues /\ (forall v : Z, In v refreshValues -> v <= t)
        /\ latestRefresh entry = toISOString h t).
Proof.
  intros Hin mine expiryValues refreshValues.
  rewrite (entry_of_output _ _ _ _ Hin).
  destruct (providerEntry_fields h oauthFiles staticCounts nowMs (provider entry))
    as [_ [_ [_ [_ [Hs Hl]]]]].
  cbv zeta in Hs, Hl. fold mine in Hs, Hl.
  assert (E1 : List.map (fun f => expiresAt f ||| "") mine = List.map expiresAt mine).
  { apply List.map_ext. intros f. apply or_empty_r. }
  assert (E2 : List.map (fun f => lastRefresh f ||| modifiedAt f ||| "") mine
               = List.map (fun f => lastRefresh f ||| modifiedAt f) mine).
  { apply List.map_ext. intros f. apply or_empty_r. }
  rewrite E1 in Hs. rewrite E2 in Hl. fold expiryValues in Hs. fold refreshValues in Hl.
  rewrite Hs, Hl. repeat split.
  - intros E. rewrite E. reflexivity.
  - intros Hne. destruct (Math_min_spec expiryValues Hne) as [Hm Hle].
    exists (Math_min expiryValues). repeat split; try assumption.
    destruct expiryValues; [contradiction | reflexivity].
  - intros E. rewrite E. reflexivity.
  - intros Hne. destruct (Math_max_spec refreshValues Hne) as [Hm Hle].
    exists (Math_max refreshValues). repeat split; try assumption.
    destruct refreshValues; [contradiction | reflexivity].
Qed.

End HealthCounts.

Lemma claudeEntry_listed :
  In Fixtures.claudeEntry
     (Health.buildProviderHealth Sample.host Fixtures.files Sample.staticCounts
                                 Sample.nowMs).
Proof.
  apply In_buildProviderHealth. split; [reflexivity|].
  apply In_orderedProviders. left. simpl. tauto.
Qed.

Lemma health_counts_bounded_witness :
  In Fixtures.claudeEntry
     (Health.buildProviderHealth Sample.host Fixtures.files Sample.staticCounts
                                 Sample.nowMs)
  /\ Health.expiredCount Fixtures.claudeEntry = 1
  /\ Health.expiringSoonCount Fixtures.claudeEntry = 1
  /\ Health.expiredCount Fixtures.claudeEntry
     + Health.expiringSoonCount Fixtures.claudeEntry
     <= Health.oauthCount Fixtures.claudeEntry.
Proof.
  split; [exact claudeEntry_listed|]. split; [reflexivity|]. split; [reflexivity|].
  destruct (health_counts_bounded Sample.host Fixtures.files Sample.staticCounts
              Sample.nowMs Fixtures.claudeEntry claudeEntry_listed)
    as [_ [_ [Hsum _]]].
  exact Hsum.
Defined.

Lemma health_counts_raise_status_witness :
  In Fixtures.claudeEntry
     (Health.buildProviderHealth Sample.host Fixtures.files Sample.staticCounts
                                 Sample.nowMs)
  /\ 0 < Health.expiredCount Fixtures.claudeEntry
  /\ (Health.status Fixtures.claudeEntry = Freshness.expired
      \/ Health.status Fixtures.claudeEntry = Freshness.error).
Proof.
  split; [exact claudeEntry_listed|]. split; [reflexivity|].
  destruct (health_counts_raise_status Sample.host Fixtures.files Sample.staticCounts
              Sample.nowMs Fixtures.claudeEntry claudeEntry_listed) as [He _].
  apply He. reflexivity.
Defined.

Lemma health_soonest_and_latest_witness :
  In Fixtures.claudeEntry
     (Health.buildProviderHealth Sample.host Fixtures.files Sample.staticCounts
                                 Sample.nowMs)
  /\ Health.soonestExpiry Fixtures.claudeEntry = "2026-10-30T12:00:00.000Z"
  /\ exists t : Z,
      (forall v : Z,
          In v (Health.finiteDates Sample.host
                  (List.map Freshness.expiresAt
                     (Health.filesOf Fixtures.files
                        (Health.provider Fixtures.claudeEntry)))) -> t <= v)
      /\ Health.soonestExpiry Fixtures.claudeEntry = toISOString Sample.host t.
Proof.
  split; [exact claudeEntry_listed|]. split; [reflexivity|].
  destruct (health_soonest_and_latest Sample.host Fixtures.files Sample.staticCounts
              Sample.nowMs Fixtures.claudeEntry claudeEntry_listed)
    as [_ [Hs _]].
  destruct Hs as [t [_ [Hle Ht]]]; [discriminate|].
  exists t. split; [exact Hle | exact Ht].
Defined.

(** ** Provider health: status and authentication mode *)

Section HealthModes.
Import JsString Js Provider Freshness Health.
Variable h : Host.

Lemma worstOf_level_values (l : list Evaluation) :
  l <> [] ->
  (forall e : Evaluation, In e l -> level e <> missing /\ level e <> configured) ->
  level (worstOf l) <> missing /\ level (worstOf l) <> configured.
Proof.
  intros Hne Hall. destruct (worstOf_max l Hne) as [Hin _]. apply Hall. exact Hin.
Qed.

(** X17: status and authentication mode go together: an entry has status
    [missing] exactly when its mode is "none" and status [configured] exactly
    when its mode is "api-keys"; these are the entries without files, and an
    entry with files has mode "oauth" or "mixed". *)
Theorem health_status_matches_authMode (oauthFiles : list AuthFile)
    (staticCounts : list (string * Z)) (nowMs : Z) (entry : ProviderHealth) :
  In entry (buildProviderHealth h oauthFiles staticCounts nowMs) ->
  (status entry = missing <-> authMode entry = "none")
  /\ (status entry = configured <-> authMode entry = "api-keys")
  /\ (oauthCount entry = 0 <-> (status entry = missing \/ status entry = configured))
  /\ (0 < oauthCount entry <-> (authMode entry = "oauth" \/ authMode entry = "mixed")).
Proof.
  intros Hin. rewrite (entry_of_output h _ _ _ _ Hin).
  set (p := provider entry).
  destruct (status_providerEntry h oauthFiles staticCounts nowMs p) as [Hs [Ha _]].
  destruct (providerEntry_fields h oauthFiles staticCounts nowMs p) as [Ho _].
  cbv zeta in Hs, Ha, Ho. rewrite Hs, Ha, Ho.
  destruct (filesOf oauthFiles p) as [|f fs] eqn:Em.
  - destruct (positive _); simpl; repeat split; intros; try discriminate;
      try reflexivity; try tauto; try lia;
      repeat match goal with
             | H : _ \/ _ |- _ => destruct H
             end; discriminate.
  - set (evals := List.map (fun f0 => evaluateOAuthFileFreshness h f0 nowMs) (f :: fs)).
    assert (Hv : level (worstOf evals) <> missing /\ level (worstOf evals) <> configured).
    { apply worstOf_level_values; [discriminate|].
      intros e He. apply in_map_iff in He. destruct He as [f0 [E _]]. subst e.
      pose proof (evaluate_level_values h f0 nowMs) as Hl. simpl in Hl.
      split; intros El; rewrite El in Hl;
        repeat (destruct Hl as [Hl|Hl]; [discriminate Hl|]); exact Hl. }
    destruct Hv as [Hm Hc]. simpl List.length.
    destruct (positive _); (repeat split; intros; try discriminate; try tauto; try lia);
      repeat match goal with
             | H : _ \/ _ |- _ => destruct H
             end; try contradiction; try discriminate; try (left; reflexivity);
      try (right; reflexivity).
Qed.

End HealthModes.

Lemma health_status_matches_authMode_witness :
  In Fixtures.claudeEntry
     (Health.buildProviderHealth Sample.host Fixtures.files Sample.staticCounts
                                 Sample.nowMs)
  /\ Health.authMode Fixtures.claudeEntry = "oauth"
  /\ 0 < Health.oauthCount Fixtures.claudeEntry.
Proof.
  split; [exact claudeEntry_listed|]. split; [reflexivity|].
  destruct (health_status_matches_authMode Sample.host Fixtures.files
              Sample.staticCounts Sample.nowMs Fixtures.claudeEntry claudeEntry_listed)
    as [_ [_ [_ Hm]]].
  apply Hm. left. reflexivity.
Defined.

(** ** Authentication mechanisms *)

Section AuthFacts.
Import JsString Js Provider Freshness Health Auth.
Variable h : Host.

(** X18: in the provider health of [getAuthMechanisms] a provider can be
    [configured] (static keys only) only if it is one of [proxy-access],
    [gemini], [claude], [codex], [openai-compat]; its static key count is then
    the count of the matching mechanism, which is marked as configured. *)
Theorem auth_configured_providers (k : KeyCounts) (oauthFiles : list AuthFile)
    (nowMs : Z) (entry : ProviderHealth) :
  In entry (providerHealth h k oauthFiles nowMs) ->
  status entry = Freshness.configured ->
  exists mech : Mechanism,
    In mech (mechanisms k oauthFiles)
    /\ Auth.configured mech = true
    /\ staticKeyCount entry = Num (mechanismCount mech)
    /\ In (provider entry, mechanismId mech)
          [ ("proxy-access", "proxy-access-keys"); ("gemini", "gemini-api-keys");
            ("claude", "claude-api-keys"); ("codex", "codex-api-keys");
            ("openai-compat", "openai-compatibility") ].
Proof.
  unfold providerHealth. intros Hin Hst.
  pose proof (entry_of_output h _ _ _ _ Hin) as He.
  set (p := provider entry) in *.
  destruct (status_providerEntry h oauthFiles (staticCountsOf k) nowMs p)
    as [Hs [_ Hk]].
  cbv zeta in Hs, Hk. rewrite <- He in Hs, Hk. rewrite Hst in Hs.
  assert (Hpos : positive (staticKeyCount entry) = true).
  { destruct (filesOf oauthFiles p) as [|f fs] eqn:Em.
    - destruct (positive (staticKeyCount entry)); [reflexivity | discriminate Hs].
    - exfalso.
      set (evals := List.map (fun f0 => evaluateOAuthFileFreshness h f0 nowMs) (f :: fs))
        in *.
      destruct (worstOf_level_values evals) as [_ Hc]; [discriminate | | congruence].
      intros e Hin'. apply in_map_iff in Hin'. destruct Hin' as [f0 [E _]]. subst e.
      pose proof (evaluate_level_values h f0 nowMs) as Hl. simpl in Hl.
      split; intros El; rewrite El in Hl;
        repeat (destruct Hl as [Hl|Hl]; [discriminate Hl|]); exact Hl. }
  rewrite Hk in Hpos |- *. unfold staticKeyCountOf, get, staticCountsOf, assoc in *.
  unfold mechanisms.
  destruct (String.eqb_spec "proxy-access" p) as [E|_].
  { eexists. split; [left; reflexivity|]. simpl in Hpos |- *.
    split; [exact Hpos|]. split; [reflexivity|]. rewrite <- E. tauto. }
  destruct (String.eqb_spec "gemini" p) as [E|_].
  { eexists. split; [right; left; reflexivity|]. simpl in Hpos |- *.
    split; [exact Hpos|]. split; [reflexivity|]. rewrite <- E. tauto. }
  destruct (String.eqb_spec "claude" p) as [E|_].
  { eexists. split; [right; right; left; reflexivity|]. simpl in Hpos |- *.
    split; [exact Hpos|]. split; [reflexivity|]. rewrite <- E. tauto. }
  destruct (String.eqb_spec "codex" p) as [E|_].
  { eexists. split; [right; right; right; left; reflexivity|]. simpl in Hpos |- *.
    split; [exact Hpos|]. split; [reflexivity|]. rewrite <- E. tauto. }
  destruct (String.eqb_spec "openai-compat" p) as [E|_].
  { eexists. split; [right; right; right; right; left; reflexivity|].
    simpl in Hpos |- *.
    split; [exact Hpos|]. split; [reflexivity|]. rewrite <- E. tauto. }
  destruct (String.eqb_spec "qwen" p) as [E|_]; [discriminate Hpos|].
  destruct (String.eqb_spec "iflow" p) as [E|_]; [discriminate Hpos|].
  destruct (Object_prototype_get p); discriminate Hpos.
Qed.

End AuthFacts.

Lemma codexEntry_listed :
  In Fixtures.codexEntry
     (Auth.providerHealth Sample.host Fixtures.keyCounts Fixtures.files Sample.nowMs).
Proof.
  apply In_buildProviderHealth. split; [reflexivity|].
  apply In_orderedProviders. left. simpl. tauto.
Qed.

Lemma auth_configured_providers_witness :
  In Fixtures.codexEntry
     (Auth.providerHealth Sample.host Fixtures.keyCounts Fixtures.files Sample.nowMs)
  /\ Health.status Fixtures.codexEntry = Freshness.configured
  /\ exists mech : Auth.Mechanism,
      In mech (Auth.mechanisms Fixtures.keyCounts Fixtures.files)
      /\ Auth.configured mech = true
      /\ Health.staticKeyCount Fixtures.codexEntry = Health.Num (Auth.mechanismCount mech).
Proof.
  split; [exact codexEntry_listed|]. split; [reflexivity|].
  destruct (auth_configured_providers Sample.host Fixtures.keyCounts Fixtures.files
              Sample.nowMs Fixtures.codexEntry codexEntry_listed eq_refl)
    as [mech [Hm [Hc [Hk _]]]].
  exists mech. split; [exact Hm|]. split; [exact Hc | exact Hk].
Defined.

(** ** Model catalogue: entries and counts *)

Section CatalogueFacts.
Import JsString Js Provider Models.

(** An entry is what the first call of its key creates and the later calls of
    the key update. *)
Lemma collectAll_entry (o g : Response) (k : string) (e : Entry) :
  In (k, e) (collectAll o g) ->
  exists (c0 : Call) (rest : list Call),
    callsFor k (callsOf o g) = c0 :: rest
    /\ e = fold_left absorb rest (freshEntry c0).
Proof.
  intros Hin.
  assert (Hnd : NoDup (List.map fst (collectAll o g))).
  { rewrite collectAll_calls. apply NoDup_keys_collect. constructor. }
  pose proof (assoc_In_NoDup _ _ _ Hnd Hin) as Ha.
  pose proof (collect_fold_get (callsOf o g) [] k) as G.
  rewrite <- collectAll_calls in G. unfold mapGet in G. rewrite Ha in G.
  simpl assoc in G.
  destruct (callsFor k (callsOf o g)) as [|c0 rest]; [discriminate|].
  exists c0, rest. split; [reflexivity|]. congruence.
Qed.

Lemma callsOf_sources (o g : Response) (c : Call) :
  In c (callsOf o g) -> callSource c = "openai" \/ callSource c = "gemini".
Proof.
  unfold callsOf. rewrite in_app_iff, !in_map_iff.
  intros [[x [E _]]|[x [E _]]]; subst c; [left | right]; reflexivity.
Qed.

(** The sources of an entry: one or both endpoint tags, none twice. *)
Lemma entry_sources (o g : Response) (k : string) (e : Entry) :
  In (k, e) (collectAll o g) ->
  entryId e <> ""
  /\ sources e <> [] /\ NoDup (sources e)
  /\ (forall s : string, In s (sources e) -> s = "openai" \/ s = "gemini").
Proof.
  intros Hin. destruct (collectAll_entry o g k e Hin) as [c0 [rest [Ef Ee]]].
  destruct (absorb_fold rest (freshEntry c0)) as [_ [Ai [_ [_ As]]]].
  cbv zeta in Ai, As. rewrite <- Ee in Ai, As.
  assert (Hall : forall c : Call, In c (c0 :: rest) ->
                   In c (callsOf o g)
                   /\ truthy (normalizeModelID (callModelID c)) = true).
  { intros c Hc. rewrite <- Ef in Hc. apply filter_In in Hc. destruct Hc as [Hc Hb].
    apply andb_prop in Hb. tauto. }
  split; [|split; [|split]].
  - rewrite Ai. simpl. apply truthy_true_iff. apply Hall. left. reflexivity.
  - intros E. assert (Hs : In (callSource c0) (sources e)).
    { rewrite As. apply In_fold_setAdd. left. simpl. left. reflexivity. }
    rewrite E in Hs. destruct Hs.
  - rewrite As. apply NoDup_fold_setAdd. simpl.
    constructor; [intros [] | constructor].
  - intros s Hs. rewrite As in Hs. apply In_fold_setAdd in Hs.
    destruct Hs as [Hs|Hs].
    + simpl in Hs. destruct Hs as [Hs|[]]. subst s.
      apply (callsOf_sources o g). apply Hall. left. reflexivity.
    + apply in_map_iff in Hs. destruct Hs as [c [Ec Hc]]. subst s.
      apply (callsOf_sources o g). apply Hall. right. exact Hc.
Qed.

Lemma sorted_sources (l : list string) :
  l <> [] -> NoDup l ->
  (forall s : string, In s l -> s = "openai" \/ s = "gemini") ->
  In (sort codeUnitCompare l) [["gemini"]; ["openai"]; ["gemini"; "openai"]].
Proof.
  intros Hne Hnd Hall.
  destruct l as [|a [|b [|c l]]]; [contradiction| | |].
  - destruct (Hall a (or_introl eq_refl)); subst a; simpl; tauto.
  - destruct (Hall a (or_introl eq_refl)); destruct (Hall b (or_intror (or_introl eq_refl)));
      subst a b; inversion Hnd as [|x xs Hx Hxs]; subst;
      try (exfalso; apply Hx; left; reflexivity); simpl; tauto.
  - exfalso.
    destruct (Hall a (or_introl eq_refl));
      destruct (Hall b (or_intror (or_introl eq_refl)));
      destruct (Hall c (or_intror (or_intror (or_introl eq_refl))));
      subst a b c; inversion Hnd as [|x xs Hx Hxs]; subst;
      inversion Hxs as [|y ys Hy Hys]; subst;
      first [ apply Hx; simpl; tauto | apply Hy; simpl; tauto ].
Qed.

(** X19: every model the catalogue lists has an id that is not empty, and its
    sources are ["gemini"], ["openai"] or ["gemini", "openai"]: sorted, without
    repetition, never empty; it is the entry filed under its provider and
    id. *)
Theorem catalogue_models_wellformed (h : Host) (o g : Response) (p : string)
    (m : ModelOut) :
  In (p, m) (listed (providerModels (aggregate h o g))) ->
  outId m <> ""
  /\ In (outSources m) [["gemini"]; ["openai"]; ["gemini"; "openai"]]
  /\ exists (k : string) (e : Entry),
      In (k, e) (collectAll o g) /\ p = provider e /\ m = modelOut e
      /\ k = entryKey p (outId m).
Proof.
  intros Hin.
  apply (Permutation_in _ (aggregate_listed h o g)) in Hin.
  apply in_map_iff in Hin. destruct Hin as [e [Epm He]].
  apply in_map_iff in He. destruct He as [[k e'] [Ee Hke]]. simpl in Ee. subst e'.
  inversion Epm; subst p m; clear Epm.
  destruct (entry_sources o g k e Hke) as [Hid [Hne [Hnd Hall]]].
  split; [exact Hid|]. split; [apply sorted_sources; assumption|].
  exists k, e. repeat split; try assumption.
  apply (collectAll_keyed o g). exact Hke.
Qed.

Lemma length_mapSet {A : Type} (m : list (string * A)) (k : string) (a : A) :
  (List.length (mapSet m k a) <= S (List.length m))%nat.
Proof.
  induction m as [|[k0 b] m IH]; simpl; [lia|].
  destruct (k0 =? k)%string; simpl; lia.
Qed.

Lemma length_collect (cs : list Call) (m : list (string * Entry)) :
  (List.length (fold_left collectCall cs m) <= List.length m + List.length cs)%nat.
Proof.
  revert m. induction cs as [|c cs IH]; intros m; simpl; [lia|].
  specialize (IH (collectCall m c)).
  assert (H : (List.length (collectCall m c) <= S (List.length m))%nat).
  { unfold collectCall, collect.
    destruct (truthy (normalizeModelID (callModelID c))); simpl; [|lia].
    destruct (mapGet m _); apply length_mapSet. }
  lia.
Qed.

Lemma endpointCount_openai (o : Response) :
  endpointCount
    (endpointStatus o (match body o with Some p => data p | None => None end))
  = Z.of_nat (List.length (openaiList o)).
Proof.
  unfold endpointStatus, openaiList. simpl.
  destruct (ok o); [|reflexivity].
  destruct (body o) as [p|]; [|reflexivity]. destruct (data p); reflexivity.
Qed.

Lemma endpointCount_gemini (g : Response) :
  endpointCount
    (endpointStatus g (match body g with Some p => models p | None => None end))
  = Z.of_nat (List.length (geminiList g)).
Proof.
  unfold endpointStatus, geminiList. simpl.
  destruct (ok g); [|reflexivity].
  destruct (body g) as [p|]; [|reflexivity]. destruct (models p); reflexivity.
Qed.

Lemma fold_left_count (groups : list ProviderModels) (acc : Z) :
  (forall grp : ProviderModels,
      In grp groups -> count grp = Z.of_nat (List.length (groupModels grp))) ->
  fold_left (fun sum item => sum + count item) groups acc
  = acc + Z.of_nat (List.length (listed groups)).
Proof.
  revert acc. induction groups as [|grp groups IH]; intros acc H; simpl; [lia|].
  rewrite IH by (intros x Hx; apply H; right; exact Hx).
  rewrite (H grp (or_introl eq_refl)).
  rewrite List.length_app, List.length_map, Nat2Z.inj_add. lia.
Qed.

Lemma group_counts (h : Host) (o g : Response) (grp : ProviderModels) :
  In grp (providerModels (aggregate h o g)) ->
  count grp = Z.of_nat (List.length (groupModels grp)).
Proof.
  unfold aggregate. simpl. intros H. apply in_map_iff in H.
  destruct H as [p [E _]]. subst grp. reflexivity.
Qed.

(** X20: [totalModels] is the number of entries of the map, which is the
    number of models listed over all groups; the [count] of a group is the
    number of its models; and the total does not exceed the number of records
    the two endpoints listed. *)
Theorem catalogue_counts (h : Host) (o g : Response) :
  let c := aggregate h o g in
  totalModels c = Z.of_nat (List.length (collectAll o g))
  /\ totalModels c = Z.of_nat (List.length (listed (providerModels c)))
  /\ (forall grp : ProviderModels,
        In grp (providerModels c) ->
        count grp = Z.of_nat (List.length (groupModels grp)))
  /\ totalModels c <= endpointCount (openaiStatus c) + endpointCount (geminiStatus c).
Proof.
  intros c.
  assert (Ht : totalModels c = Z.of_nat (List.length (listed (providerModels c)))).
  { unfold c at 1. unfold aggregate. cbv zeta. simpl totalModels.
    change (List.map _ (sort (Health.sortProviders h)
                             (List.map fst (groupByProvider (collectAll o g)))))
      with (providerModels (aggregate h o g)).
    rewrite fold_left_count by (apply group_counts). reflexivity. }
  assert (Hl : List.length (listed (providerModels c)) = List.length (collectAll o g)).
  { unfold c. rewrite (Permutation_length (aggregate_listed h o g)).
    rewrite !List.length_map. reflexivity. }
  split; [rewrite Ht, Hl; reflexivity|]. split; [exact Ht|].
  split; [apply group_counts|].
  rewrite Ht, Hl. unfold c, aggregate. cbv zeta. simpl openaiStatus. simpl geminiStatus.
  rewrite endpointCount_openai, endpointCount_gemini.
  rewrite collectAll_calls.
  pose proof (length_collect (callsOf o g) []) as H.
  unfold callsOf in H at 2. rewrite List.length_app, !List.length_map in H.
  simpl in H. lia.
Qed.

Lemma gpt4oOut_listed :
  In ("codex", Fixtures.gpt4oOut)
     (listed (providerModels
                (aggregate Sample.host Fixtures.openaiListing Fixtures.geminiListing))).
Proof. vm_compute. tauto. Qed.

Lemma catalogue_models_wellformed_witness :
  In ("codex", Fixtures.gpt4oOut)
     (listed (providerModels
                (aggregate Sample.host Fixtures.openaiListing Fixtures.geminiListing)))
  /\ outId Fixtures.gpt4oOut <> ""
  /\ In (outSources Fixtures.gpt4oOut) [["gemini"]; ["openai"]; ["gemini"; "openai"]].
Proof.
  split; [exact gpt4oOut_listed|].
  destruct (catalogue_models_wellformed Sample.host Fixtures.openaiListing
              Fixtures.geminiListing "codex" Fixtures.gpt4oOut gpt4oOut_listed)
    as [Hid [Hs _]].
  split; [exact Hid | exact Hs].
Defined.

(** A provider that has a group has an entry. *)
Lemma groupByProvider_keys_sound (entries : list (string * Entry)) (p : string) :
  In p (List.map fst (groupByProvider entries)) ->
  exists e : Entry, In e (List.map snd entries) /\ provider e = p.
Proof.
  unfold groupByProvider.
  assert (G : forall (es : list Entry) (b : list (string * list ModelOut)),
             In p (List.map fst
                     (fold_left
                        (fun byProvider item =>
                           let list := match mapGet byProvider (provider item) with
                                       | Some l => l
                                       | None => []
                                       end in
                           mapSet byProvider (provider item) (list ++ [modelOut item])%list)
                        es b)) ->
             In p (List.map fst b) \/ exists e : Entry, In e es /\ provider e = p).
  { induction es as [|e es IH]; intros b H; simpl in H; [left; exact H|].
    apply IH in H. destruct H as [H|[e' [He' Ep]]].
    - rewrite keys_mapSet in H.
      destruct (existsb (String.eqb (provider e)) (List.map fst b)); [left; exact H|].
      apply in_app_iff in H. destruct H as [H|[H|[]]]; [left; exact H|].
      right. exists e. split; [left; reflexivity | exact H].
    - right. exists e'. split; [right; exact He' | exact Ep]. }
  intros H. apply G in H. destruct H as [[]|H]. exact H.
Qed.

Lemma NoDup_map_keyed {A K : Type} (f : A -> K) (key : K -> string) (l : list A) :
  NoDup (List.map (fun a => key (f a)) l) -> NoDup (List.map f l).
Proof.
  induction l as [|a l IH]; simpl; intros H; [constructor|].
  inversion H as [|x xs Hx Hxs]; subst. constructor; [|apply IH; exact Hxs].
  intros Hin. apply Hx. apply in_map_iff in Hin. destruct Hin as [a' [E Ha']].
  apply in_map_iff. exists a'. split; [rewrite E; reflexivity | exact Ha'].
Qed.

(** X21: with a [localeCompare] that is total, the groups of the catalogue
    are in the order of [sortProviders] and no provider has two groups; no
    group is empty; the models of a group are in the order of their ids, and
    each of them comes from an entry of that provider; and no provider lists
    the same model id twice. *)
Theorem catalogue_groups (h : Host) (o g : Response) :
  (forall a b : string, 0 < localeCompare h a b -> localeCompare h b a <= 0) ->
  let c := aggregate h o g in
  NoDup (List.map groupProvider (providerModels c))
  /\ Sorted (fun a b => Health.sortProviders h a b <= 0)
            (List.map groupProvider (providerModels c))
  /\ (forall grp : ProviderModels,
        In grp (providerModels c) ->
        groupModels grp <> []
        /\ Sorted (fun a b => localeCompare h (outId a) (outId b) <= 0)
                  (groupModels grp)
        /\ (forall m : ModelOut,
              In m (groupModels grp) ->
              exists e : Entry,
                In e (List.map snd (collectAll o g))
                /\ provider e = groupProvider grp /\ m = modelOut e))
  /\ NoDup (List.map (fun pm => (fst pm, outId (snd pm))) (listed (providerModels c))).
Proof.
  intros Htotal c.
  destruct (groupByProvider_keys (collectAll o g)) as [Hnd _].
  assert (Ek : List.map groupProvider (providerModels c)
               = sort (Health.sortProviders h)
                      (List.map fst (groupByProvider (collectAll o g)))).
  { unfold c, aggregate. simpl providerModels. rewrite List.map_map. simpl.
    apply List.map_id. }
  split; [|split; [|split]].
  - rewrite Ek.
    apply (Permutation_NoDup (Permutation_sym (sort_Permutation _ _))). exact Hnd.
  - rewrite Ek. apply sort_Sorted. apply sortProviders_total. exact Htotal.
  - intros grp Hgrp. unfold c, aggregate in Hgrp. simpl providerModels in Hgrp.
    apply in_map_iff in Hgrp. destruct Hgrp as [p [Eg Hp]]. subst grp.
    simpl groupModels. simpl groupProvider.
    apply In_sort in Hp. rewrite groupByProvider_get.
    split; [|split].
    + apply groupByProvider_keys_sound in Hp. destruct Hp as [e [He Ep]].
      intros E.
      assert (Hin : In (modelOut e)
                       (sort (fun a b => localeCompare h (outId a) (outId b))
                             (List.map modelOut
                                (List.filter (fun e0 => (provider e0 =? p)%string)
                                             (List.map snd (collectAll o g)))))).
      { apply In_sort. apply in_map. apply filter_In. split; [exact He|].
        rewrite Ep. apply String.eqb_refl. }
      rewrite E in Hin. destruct Hin.
    + apply sort_Sorted. intros a b. apply Htotal.
    + intros m Hm. apply In_sort in Hm. apply in_map_iff in Hm.
      destruct Hm as [e [Em He]]. apply filter_In in He. destruct He as [He Ep].
      exists e. split; [exact He|]. split; [|symmetry; exact Em].
      apply String.eqb_eq. exact Ep.
  - apply (Permutation_NoDup
             (Permutation_sym
                (Permutation_map (fun pm => (fst pm, outId (snd pm)))
                                 (aggregate_listed h o g)))).
    rewrite !List.map_map. simpl.
    apply (NoDup_map_keyed
             (fun kv : string * Entry => (provider (snd kv), entryId (snd kv)))
             (fun pi => entryKey (fst pi) (snd pi))).
    simpl.
    rewrite <- (List.map_ext_in fst _ (collectAll o g)).
    + rewrite collectAll_calls. apply NoDup_keys_collect. constructor.
    + intros [k e] Hin. simpl.
      first [ apply (collectAll_keyed o g); exact Hin
            | symmetry; apply (collectAll_keyed o g); exact Hin ].
Qed.

Lemma catalogue_groups_witness :
  (forall a b : string,
      0 < localeCompare Sample.host a b -> localeCompare Sample.host b a <= 0)
  /\ NoDup (List.map groupProvider
              (providerModels
                 (aggregate Sample.host Fixtures.openaiListing Fixtures.geminiListing))).
Proof.
  split; [exact codeUnitCompare_total|].
  exact (proj1 (catalogue_groups Sample.host Fixtures.openaiListing Fixtures.geminiListing
                  codeUnitCompare_total)).
Defined.

End CatalogueFacts.

(** ** Actions: which backend acts *)

Section ActionModes.
Import JsString Js Proc Action Trace.
Variable cfg : Config.
Context {W : Type}.
Variable m : Machine W.

(** A dispatcher that calls [runCommand] at all returns what that one call
    resolves to. *)
Lemma dispatch_call (backend : string) (actions : list (string * list string))
    (action cmd : string) (args : SpawnArgs) (t : Z) :
  firstCall (dispatch backend actions action) = Some (cmd, args, t) ->
  dispatch backend actions action
  = RunCommand cmd args t (fun result => Ret (completed backend result)).
Proof.
  unfold dispatch. destruct (get actions action); simpl; intros H;
    [inversion H; reflexivity | inversion H; reflexivity | discriminate].
Qed.

Lemma dispatch_no_call (backend : string) (actions : list (string * list string))
    (action : string) :
  firstCall (dispatch backend actions action) = None ->
  dispatch backend actions action = Ret (unsupported backend).
Proof.
  unfold dispatch. destruct (get actions action); simpl; intros H;
    [discriminate | discriminate | reflexivity].
Qed.

(** X22: in automatic mode the compose command runs first.  If it exits with
    0 its result is returned and nothing else runs.  Otherwise the direct
    command runs next: if that exits with 0 the result is the direct one,
    marked [fallbackFrom: "compose"] with the compose error text; if not, the
    result is the compose one (not ok), marked [fallbackTried: "container"]
    with the direct error text.  The error text is the trimmed stderr, or
    else the trimmed stdout, or else a fixed text. *)
Theorem automatic_action_fallback (action : string) (w w1 w2 : W)
    (c1 c2 : string * SpawnArgs * Z) (r1 r2 : CommandResult) :
  DOCKER_MODE cfg <> "compose" ->
  DOCKER_MODE cfg <> "container" ->
  firstCall (runComposeAction cfg action) = Some c1 ->
  firstCall (runDirectContainerAction cfg action) = Some c2 ->
  exec m w (fst (fst c1)) (snd (fst c1)) (snd c1) = (Some r1, w1) ->
  exec m w1 (fst (fst c2)) (snd (fst c2)) (snd c2) = (Some r2, w2) ->
  let result := run m (runContainerAction cfg action) w in
  let trace := calls m (runContainerAction cfg action) w in
  if code r1 =? 0 then
    result = (Some (completed "compose" r1), w1) /\ trace = [c1]
  else
    trace = [c1; c2]
    /\ exists res : ActionResult,
        result = (Some res, w2)
        /\ ok res = (code r2 =? 0)
        /\ error res = None
        /\ if code r2 =? 0 then
             backend res = "container"
             /\ exitCode res = Some 0
             /\ out res = Some (trim (stdout r2))
             /\ err res = Some (trim (stderr r2))
             /\ fallbackFrom res = Some "compose"
             /\ fallbackTried res = None
             /\ fallbackError res
                = Some (trim (stderr r1) ||| (trim (stdout r1) ||| "compose action failed"))
           else
             backend res = "compose"
             /\ exitCode res = Some (code r1)
             /\ out res = Some (trim (stdout r1))
             /\ err res = Some (trim (stderr r1))
             /\ fallbackFrom res = None
             /\ fallbackTried res = Some "container"
             /\ fallbackError res
                = Some (trim (stderr r2) ||| (trim (stdout r2) ||| "container action failed")).
Proof.
  intros Hc Hd F1 F2 E1 E2.
  destruct c1 as [[cmd1 args1] t1]. destruct c2 as [[cmd2 args2] t2].
  simpl fst in E1, E2. simpl snd in E1, E2.
  apply dispatch_call in F1. apply dispatch_call in F2.
  unfold runContainerAction.
  destruct (String.eqb_spec (DOCKER_MODE cfg) "compose") as [|_]; [contradiction|].
  destruct (String.eqb_spec (DOCKER_MODE cfg) "container") as [|_]; [contradiction|].
  unfold runComposeAction, runDirectContainerAction in *.
  rewrite F1, F2. cbv zeta. simpl run. simpl calls. rewrite E1. simpl.
  destruct (code r1 =? 0) eqn:K1.
  - simpl. split; reflexivity.
  - simpl. rewrite E2. simpl.
    destruct (code r2 =? 0) eqn:K2; simpl.
    + split; [reflexivity|]. eexists. split; [reflexivity|]. simpl. rewrite ?K2.
      apply Z.eqb_eq in K2. rewrite ?K2. repeat split.
    + split; [reflexivity|]. eexists. split; [reflexivity|]. simpl. rewrite ?K1, ?K2.
      repeat split.
Qed.

(** X23: when the backend is forced ([DOCKER_MODE] is "compose" or
    "container"), at most one command runs, the result names that backend and
    carries no fallback field, and it is ok exactly when the exit code is 0,
    whatever the action and whatever the command answers. *)
Theorem forced_mode_action (action : string) (w w' : W) (res : ActionResult) :
  DOCKER_MODE cfg = "compose" \/ DOCKER_MODE cfg = "container" ->
  run m (runContainerAction cfg action) w = (Some res, w') ->
  backend res = DOCKER_MODE cfg
  /\ fallbackFrom res = None /\ fallbackTried res = None /\ fallbackError res = None
  /\ (List.length (calls m (runContainerAction cfg action) w) <= 1)%nat
  /\ (ok res = true <-> exitCode res = Some 0).
Proof.
  intros Hmode Hrun.
  assert (D : forall (b : string) (actions : list (string * list string)),
             run m (dispatch b actions action) w = (Some res, w') ->
             backend res = b
             /\ fallbackFrom res = None /\ fallbackTried res = None
             /\ fallbackError res = None
             /\ (List.length (calls m (dispatch b actions action) w) <= 1)%nat
             /\ (ok res = true <-> exitCode res = Some 0)).
  { intros b actions. unfold dispatch.
    destruct (get actions action); simpl;
      try (destruct (exec m w "docker" _ 120000) as [[r|] w0]; simpl);
      intros H; inversion H; subst; simpl; repeat split; try lia;
      try discriminate.
    all: try (intros K; apply Z.eqb_eq in K; rewrite K; reflexivity).
    all: try (intros K; inversion K as [K']; rewrite K'; reflexivity). }
  unfold runContainerAction in *.
  destruct Hmode as [E|E]; rewrite E in *; simpl in *; apply D; exact Hrun.
Qed.

End ActionModes.

Lemma automatic_action_fallback_witness :
  exists res : Action.ActionResult,
    Proc.run Sample.machine (Action.runContainerAction Sample.cfg "restart") tt
      = (Some res, tt)
    /\ Action.backend res = "container"
    /\ Action.fallbackFrom res = Some "compose"
    /\ Action.fallbackError res = Some "no configuration file provided: not found".
Proof.
  pose proof (automatic_action_fallback Sample.cfg Sample.machine "restart" tt tt tt
                _ _ _ _
                ltac:(discriminate) ltac:(discriminate)
                eq_refl eq_refl eq_refl eq_refl) as H.
  cbv zeta in H. simpl Z.eqb in H.
  destruct H as [_ [res [Hrun [_ [_ [Hb [_ [_ [_ [Hf [_ He]]]]]]]]]]].
  exists res. split; [exact Hrun|]. split; [exact Hb|]. split; [exact Hf | exact He].
Defined.

Lemma forced_mode_action_witness :
  Action.backend
    (Action.completed "container"
       {| Proc.code := 0; Proc.signal := None; Proc.timedOut := false;
          Proc.stdout := ""; Proc.stderr := "" |})
  = DOCKER_MODE Fixtures.containerCfg.
Proof.
  exact (proj1 (forced_mode_action Fixtures.containerCfg Fixtures.quietMachine "stop"
                  tt tt _ (or_intror eq_refl) eq_refl)).
Defined.

(** ** Request routing: who reaches what *)

Section RouterFacts.
Import JsString Router.
Variable cfg : Config.

Lemma prefix_append (a b s : string) :
  String.prefix (a ++ b) s = true -> String.prefix a s = true.
Proof.
  revert s. induction a as [|c a IH]; intros s H.
  - destruct s; reflexivity.
  - destruct s as [|d s]; simpl in *; [discriminate|].
    destruct (Ascii.ascii_dec c d); [apply IH; exact H | discriminate].
Qed.

Lemma startsWith_container_api (pathname : string) :
  startsWith pathname "/api/container/" = true -> startsWith pathname "/api/" = true.
Proof. unfold startsWith. apply (prefix_append "/api/" "container/"). Qed.

Lemma startsWith_eqb (pathname full : string) :
  startsWith full "/api/" = true ->
  startsWith pathname "/api/" = false -> (pathname =? full)%string = false.
Proof.
  intros Hf Hp. destruct (String.eqb_spec pathname full) as [E|E]; [|reflexivity].
  subst pathname. congruence.
Qed.

(** X24: the answer is 403 exactly for a path under "/api/" when remote
    access is off and the peer is not a loopback address; a path outside
    "/api/" is always served as a static file, whatever the method; and an
    action runs only for a POST under "/api/container/", from a loopback
    address or with remote access on, the action being the rest of the path,
    trimmed and in lower case. *)
Theorem route_access (allowRemote : bool) (reqMethod pathname addr : string)
    (containerQuery : option string) :
  let r := route cfg allowRemote reqMethod pathname addr containerQuery in
  (r = Forbidden
   <-> startsWith pathname "/api/" = true /\ allowRemote = false
       /\ ~ In addr ["127.0.0.1"; "::1"; "::ffff:127.0.0.1"])
  /\ (startsWith pathname "/api/" = false -> r = ServeStatic pathname)
  /\ (forall action : string,
        r = RunAction action ->
        reqMethod = "POST"
        /\ startsWith pathname "/api/container/" = true
        /\ action = toLowerCase (trim (slice 15 pathname))
        /\ (allowRemote = true \/ In addr ["127.0.0.1"; "::1"; "::ffff:127.0.0.1"])).
Proof.
  assert (Hloc : isLocalRequest addr = true
                 <-> In addr ["127.0.0.1"; "::1"; "::ffff:127.0.0.1"]).
  { unfold isLocalRequest. simpl.
    destruct (String.eqb_spec addr "127.0.0.1"); [subst; simpl; tauto|].
    destruct (String.eqb_spec addr "::1"); [subst; simpl; tauto|].
    destruct (String.eqb_spec addr "::ffff:127.0.0.1"); [subst; simpl; tauto|].
    simpl. split; [discriminate|]. intros [H|[H|[H|[]]]]; congruence. }
  assert (Hm : (reqMethod ||| "GET" =? "POST")%string = true -> reqMethod = "POST").
  { intros H. apply String.eqb_eq in H. destruct reqMethod; [discriminate | exact H]. }
  intros r. unfold route in r. subst r.
  destruct (startsWith pathname "/api/") eqn:Hapi.
  - destruct allowRemote; destruct (isLocalRequest addr) eqn:Hl; simpl.
    all: split; [|split; [discriminate|]].
    all: try (split; [|intros [_ [Ha Hn]]; first [discriminate Ha | exfalso; apply Hn, Hloc; reflexivity]]).
    all: try (split; [intros _|reflexivity]; split; [reflexivity|]; split; [reflexivity|];
              intros Hn; apply Hloc in Hn; congruence).
    all: try (intros H; exfalso; revert H;
              repeat match goal with
                     | |- context [if ?b then _ else _] => destruct b
                     end; discriminate).
    all: intros action;
      repeat match goal with
             | |- context [if (?m =? "GET")%string && ?b then _ else _] =>
                 destruct ((m =? "GET")%string && b)
             end; try discriminate;
      destruct ((reqMethod ||| "GET" =? "POST")%string) eqn:Hp; simpl;
      destruct (startsWith pathname "/api/container/") eqn:Hc; simpl;
      try discriminate;
      repeat match goal with
             | |- context [if ?b then _ else _] => destruct b
             end; try discriminate;
      intros H; inversion H; subst;
      (split; [apply Hm; reflexivity|]); (split; [reflexivity|]);
      (split; [reflexivity|]);
      first [ left; reflexivity | right; apply Hloc; reflexivity ].
  - simpl.
    assert (Hc : startsWith pathname "/api/container/" = false).
    { destruct (startsWith pathname "/api/container/") eqn:Hc; [|reflexivity].
      apply startsWith_container_api in Hc. congruence. }
    rewrite Hc.
    rewrite (startsWith_eqb pathname "/api/summary" eq_refl Hapi).
    rewrite (startsWith_eqb pathname "/api/auth-mechanisms" eq_refl Hapi).
    rewrite (startsWith_eqb pathname "/api/provider-models" eq_refl Hapi).
    rewrite (startsWith_eqb pathname "/api/logs/stream" eq_refl Hapi).
    rewrite (startsWith_eqb pathname "/api/healthz" eq_refl Hapi).
    rewrite !Bool.andb_false_r.
    split; [split; [discriminate | intros [H _]; discriminate H]|].
    split; [reflexivity|]. intros action H. discriminate H.
Qed.

End RouterFacts.

(** ** Labels of providers outside the table *)

Section LabelFacts.
Import JsString Js Labels.

Lemma lowerChar_upperWordChar (c : ascii) :
  lowerChar (upperWordChar c) = lowerChar c.
Proof.
  destruct c as [[] [] [] [] [] [] [] []]; reflexivity.
Qed.

Lemma capitalizeWords_facts (s : string) (afterWord : bool) :
  String.length (capitalizeWords afterWord s) = String.length s
  /\ toLowerCase (capitalizeWords afterWord s) = toLowerCase s.
Proof.
  revert afterWord. induction s as [|c s IH]; intros afterWord; simpl; [split; reflexivity|].
  destruct (IH (isWordChar c)) as [Hl Hc]. rewrite Hl.
  split; [reflexivity|]. unfold toLowerCase in *. simpl. rewrite Hc.
  destruct (isWordChar c && negb afterWord); [rewrite lowerChar_upperWordChar|]; reflexivity.
Qed.

Lemma capitalizeWords_keeps (p : ascii -> bool) (s : string) (afterWord : bool) :
  (forall c : ascii, p c = true -> p (upperWordChar c) = true) ->
  forallb p s = true -> forallb p (capitalizeWords afterWord s) = true.
Proof.
  intros Hp. revert afterWord. induction s as [|c s IH]; intros afterWord H; simpl;
    [reflexivity|].
  simpl in H. apply andb_prop in H. destruct H as [Hc Hs].
  rewrite (IH _ Hs), Bool.andb_true_r.
  destruct (isWordChar c && negb afterWord); [apply Hp|]; exact Hc.
Qed.

Lemma hyphensToSpaces_facts (s : string) :
  String.length (hyphensToSpaces s) = String.length s
  /\ forallb (fun c => negb (Ascii.eqb c "-"%char)) (hyphensToSpaces s) = true.
Proof.
  unfold hyphensToSpaces. induction s as [|c s [IHl IHf]]; simpl; [split; reflexivity|].
  rewrite IHl, IHf. split; [reflexivity|].
  destruct (Ascii.eqb c "-"%char) eqn:E; [reflexivity | rewrite E; reflexivity].
Qed.

(** X25: a provider that is no key of [PROVIDER_LABELS] and no member of
    [Object.prototype] is labelled with its own name: the label has the
    length of the name and no hyphen, and up to letter case it is the name
    with a space for every hyphen. *)
Theorem label_of_unlisted_provider (provider : string) :
  get PROVIDER_LABELS provider = Undefined ->
  exists text : string,
    formatProviderLabel provider = LabelText text
    /\ String.length text = String.length provider
    /\ forallb (fun c => negb (Ascii.eqb c "-"%char)) text = true
    /\ toLowerCase text = toLowerCase (hyphensToSpaces provider).
Proof.
  intros H. unfold formatProviderLabel. rewrite H.
  exists (capitalizeWords false (hyphensToSpaces provider)).
  destruct (capitalizeWords_facts (hyphensToSpaces provider) false) as [Hl Hc].
  destruct (hyphensToSpaces_facts provider) as [Hl' Hf].
  split; [reflexivity|]. split; [congruence|]. split; [|exact Hc].
  apply capitalizeWords_keeps; [|exact Hf].
  intros c. destruct c as [[] [] [] [] [] [] [] []]; vm_compute; intros K;
    first [reflexivity | discriminate K].
Qed.

Lemma label_of_unlisted_provider_witness :
  exists text : string,
    formatProviderLabel "azure-open-ai" = LabelText text
    /\ String.length text = 13%nat
    /\ toLowerCase text = "azure open ai".
Proof.
  destruct (label_of_unlisted_provider "azure-open-ai" eq_refl)
    as [text [Hf [Hl [_ Hc]]]].
  exists text. split; [exact Hf|]. split; [exact Hl | exact Hc].
Defined.

End LabelFacts.

(** ** Log stream: kinds and lines *)

Section LogsKindFacts.
Import JsString Logs Chars.
Variable toString_utf8 : Buffer -> string.

Lemma opened_steps (es : list Event) :
  List.forallb keepsOpen es = true ->
  linesOf (written (steps toString_utf8 opened es)) = completeLines (textOf toString_utf8 es)
  /\ buffer (steps toString_utf8 opened es) = pendingText (textOf toString_utf8 es)
  /\ ended (steps toString_utf8 opened es) = false.
Proof.
  intros Hopen.
  destruct (steps_framing toString_utf8 es opened eq_refl eq_refl Hopen) as [Hl [Hb He]].
  simpl in Hl, Hb. repeat split; assumption.
Qed.

(** X26: the stdout and stderr of the child share one buffer.  The lines a
    chunk completes go out under the kind of that chunk, including the text
    left pending by earlier chunks of the other stream; and when the child
    fails to start, the pending text is not sent at all: one [error] line is
    written and the stream is ended. *)
Theorem chunk_lines_take_its_kind (es : list Event) (chunk : Buffer) (msg : string) :
  List.forallb keepsOpen es = true ->
  let pending := pendingText (textOf toString_utf8 es) in
  written (steps toString_utf8 opened (es ++ [StdoutData chunk]))
  = (written (steps toString_utf8 opened es)
     ++ List.map (Data log) (completeLines (pending ++ toString_utf8 chunk)))%list
  /\ written (steps toString_utf8 opened (es ++ [StderrData chunk]))
     = (written (steps toString_utf8 opened es)
        ++ List.map (Data error) (completeLines (pending ++ toString_utf8 chunk)))%list
  /\ written (steps toString_utf8 opened (es ++ [ChildError msg]))
     = (written (steps toString_utf8 opened es)
        ++ [Data error ("failed to start docker logs stream: " ++ msg)])%list
  /\ ended (steps toString_utf8 opened (es ++ [ChildError msg])) = true.
Proof.
  intros Hopen pending. destruct (opened_steps es Hopen) as [_ [Hb He]].
  unfold pending. rewrite !steps_app. simpl steps. unfold step. rewrite He.
  destruct (flushChunk_spec toString_utf8 (steps toString_utf8 opened es) chunk log) as [Hl _].
  destruct (flushChunk_spec toString_utf8 (steps toString_utf8 opened es) chunk error) as [Hr _].
  rewrite Hl, Hr, Hb. repeat split.
Qed.

Lemma splitLF_notLF (s x : string) : In x (splitLF s) -> forallb notLF x = true.
Proof.
  revert x. induction s as [|c s IH]; intros x; simpl.
  - intros [H|[]]. subst x. reflexivity.
  - destruct (Ascii.eqb c LF) eqn:Ec.
    + intros [H|H]; [subst x; reflexivity | apply IH; exact H].
    + pose proof (splitLF_nonempty s) as Hne.
      destruct (splitLF s) as [|p ps]; [contradiction|].
      intros [H|H].
      * subst x. simpl. unfold notLF at 1. rewrite Ec. simpl.
        apply IH. left. reflexivity.
      * apply IH. right. exact H.
Qed.

Lemma stripCR_forallb (p : ascii -> bool) (s : string) :
  forallb p s = true -> forallb p (stripCR s) = true.
Proof.
  induction s as [|c s IH]; [reflexivity|].
  intros H. simpl in H. apply andb_prop in H. destruct H as [Hc Hs].
  destruct s as [|d s].
  - simpl. destruct (Ascii.eqb c CR); simpl; [reflexivity | rewrite Hc; reflexivity].
  - change (stripCR (String c (String d s))) with (String c (stripCR (String d s))).
    simpl forallb at 1. rewrite Hc. apply IH. exact Hs.
Qed.

Lemma In_mapInit {A : Type} (f : A -> A) (l : list A) (x : A) :
  In x (mapInit f l) -> In x l \/ exists y : A, In y l /\ x = f y.
Proof.
  induction l as [|a l IH]; [intros []|].
  destruct l as [|b l]; [simpl; tauto|].
  change (mapInit f (a :: b :: l)) with (f a :: mapInit f (b :: l)).
  intros [H|H].
  - right. exists a. split; [left; reflexivity | symmetry; exact H].
  - destruct (IH H) as [H'|[y [Hy E]]]; [left; right; exact H'|].
    right. exists y. split; [right; exact Hy | exact E].
Qed.

Lemma splitLines_notLF (s x : string) : In x (splitLines s) -> forallb notLF x = true.
Proof.
  unfold splitLines. intros H. apply In_mapInit in H.
  destruct H as [H|[y [Hy E]]].
  - apply (splitLF_notLF s). exact H.
  - subst x. apply stripCR_forallb. apply (splitLF_notLF s). exact Hy.
Qed.

Lemma trimStart_forallb (p : ascii -> bool) (s : string) :
  forallb p s = true -> forallb p (trimStart s) = true.
Proof.
  induction s as [|c s IH]; [reflexivity|].
  intros H. simpl. destruct (isWhiteSpace c); [|exact H].
  simpl in H. apply andb_prop in H. apply IH. tauto.
Qed.

Lemma trimEnd_forallb (p : ascii -> bool) (s : string) :
  forallb p s = true -> forallb p (trimEnd s) = true.
Proof.
  induction s as [|c s IH]; [reflexivity|].
  intros H. simpl in H. apply andb_prop in H. destruct H as [Hc Hs].
  simpl. specialize (IH Hs). destruct (trimEnd s) as [|d t].
  - destruct (isWhiteSpace c); simpl; [reflexivity | rewrite Hc; reflexivity].
  - simpl forallb at 1. rewrite Hc. exact IH.
Qed.

Lemma In_removelast {A : Type} (l : list A) (x : A) : In x (List.removelast l) -> In x l.
Proof.
  induction l as [|a l IH]; [intros []|].
  destruct l as [|b l]; [intros []|].
  change (List.removelast (a :: b :: l)) with (a :: List.removelast (b :: l)).
  intros [H|H]; [left; exact H | right; apply IH; exact H].
Qed.

Lemma In_last {A : Type} (l : list A) (d : A) : l <> [] -> In (List.last l d) l.
Proof.
  induction l as [|a l IH]; [congruence|]. intros _.
  destruct l as [|b l]; [left; reflexivity|].
  right. apply IH. discriminate.
Qed.

Lemma In_Data_linesOf (fs : list Frame) (kind : Kind) (line : string) :
  In (Data kind line) fs -> In line (linesOf fs).
Proof.
  unfold linesOf. intros H. apply in_flat_map. exists (Data kind line).
  split; [exact H | left; reflexivity].
Qed.

(** X27: whatever the child sends and however it is cut into chunks, no
    [data:] frame written up to and including the close of the child carries
    an empty line, and no [log] or [error] frame carries a line with a line
    feed in it. *)
Theorem log_lines_are_single_lines (es : list Event) (code : option Z)
    (kind : Kind) (line : string) :
  List.forallb keepsOpen es = true ->
  In (Data kind line) (written (steps toString_utf8 opened (es ++ [ChildClose code]))) ->
  line <> ""
  /\ (kind <> status -> forallb notLF line = true).
Proof.
  intros Hopen Hin. destruct (opened_steps es Hopen) as [Hl [Hb He]].
  rewrite steps_app in Hin. simpl steps in Hin. unfold step in Hin.
  rewrite He in Hin. unfold onClose in Hin. rewrite Hb in Hin.
  assert (Hw : In (Data kind line) (written (steps toString_utf8 opened es))
               \/ (truthy (trim (pendingText (textOf toString_utf8 es))) = true
                   /\ line = trim (pendingText (textOf toString_utf8 es)))
               \/ (kind = status
                   /\ exists t : string, line = "log stream ended" ++ t)).
  { destruct (truthy (trim (pendingText (textOf toString_utf8 es)))) eqn:Et; simpl in Hin;
      unfold writeLine in Hin; simpl in Hin;
      repeat (apply in_app_iff in Hin; destruct Hin as [Hin|Hin]);
      try (left; exact Hin); simpl in Hin.
    - destruct Hin as [Hin|[]]. inversion Hin. right. left. split; reflexivity.
    - destruct Hin as [Hin|[]]. inversion Hin. right. right.
      split; [reflexivity|]. eexists. reflexivity.
    - destruct Hin as [Hin|[]]. inversion Hin. right. right.
      split; [reflexivity|]. eexists. reflexivity. }
  destruct Hw as [Hw|[[Et El]|[Ek [t El]]]].
  - apply In_Data_linesOf in Hw. rewrite Hl in Hw.
    unfold completeLines in Hw. apply filter_In in Hw. destruct Hw as [Hw Ht].
    split; [apply truthy_true_iff; exact Ht|]. intros _.
    apply (splitLines_notLF (textOf toString_utf8 es)). apply In_removelast. exact Hw.
  - subst line. split; [apply truthy_true_iff; exact Et|]. intros _.
    unfold trim. apply trimEnd_forallb, trimStart_forallb.
    apply (splitLines_notLF (textOf toString_utf8 es)). unfold pendingText.
    apply In_last. unfold splitLines. apply mapInit_nonempty, splitLF_nonempty.
  - subst line. split; [discriminate | congruence].
Qed.

End LogsKindFacts.

Lemma chunk_lines_take_its_kind_witness :
  Logs.written
    (Logs.steps Sample.toString_utf8 Logs.opened
       [Logs.StdoutData (Sample.bytes "abc"); Logs.StderrData Sample.chunk2])
  = [Logs.Comment "connected"; Logs.Data Logs.error "abcf"].
Proof.
  exact (proj1 (proj2 (chunk_lines_take_its_kind Sample.toString_utf8
                         [Logs.StdoutData (Sample.bytes "abc")] Sample.chunk2 ""
                         eq_refl))).
Defined.

Lemma log_lines_are_single_lines_witness :
  List.forallb Logs.keepsOpen [Logs.StdoutData Sample.chunkPadded] = true
  /\ "de" <> ""
  /\ (Logs.log <> Logs.status -> JsString.forallb Chars.notLF "de" = true).
Proof.
  split; [reflexivity|].
  refine (log_lines_are_single_lines Sample.toString_utf8
            [Logs.StdoutData Sample.chunkPadded] (Some 0) Logs.log "de" eq_refl _).
  vm_compute. tauto.
Defined.

(** ** Counting list entries: what a configuration text gives *)

Section YamlFacts.
Import JsString Yaml YamlText.

Lemma length_append (a b : string) :
  String.length (a ++ b) = (String.length a + String.length b)%nat.
Proof. induction a as [|c a IH]; simpl; [reflexivity | rewrite IH; reflexivity]. Qed.

Lemma forallb_append (p : ascii -> bool) (a b : string) :
  forallb p (a ++ b) = forallb p a && forallb p b.
Proof.
  induction a as [|c a IH]; simpl; [reflexivity|].
  rewrite IH. apply Bool.andb_assoc.
Qed.

Lemma forallb_weaken (p q : ascii -> bool) (s : string) :
  (forall c : ascii, p c = true -> q c = true) ->
  forallb p s = true -> forallb q s = true.
Proof.
  intros Hpq. induction s as [|c s IH]; simpl; [reflexivity|].
  intros H. apply andb_prop in H. destruct H as [Hc Hs].
  rewrite (Hpq c Hc), (IH Hs). reflexivity.
Qed.

Lemma plainChar_facts (c : ascii) :
  plainChar c = true ->
  isWhiteSpace c = false /\ isQuote c = false /\ Ascii.eqb c ":" = false
  /\ Ascii.eqb c "#" = false /\ Ascii.eqb c "," = false
  /\ isLineTerminator c = false.
Proof.
  destruct c as [[] [] [] [] [] [] [] []]; vm_compute; intros H;
    first [discriminate H | repeat split].
Qed.

Lemma splitChar_nonempty (sep : ascii) (s : string) : splitChar sep s <> [].
Proof.
  destruct s as [|c s]; simpl; [discriminate|].
  destruct (Ascii.eqb c sep); [discriminate|].
  destruct (splitChar sep s); discriminate.
Qed.

(** The first piece of a text that has a separator after [s]. *)
Lemma splitChar_app (sep : ascii) (s t : string) :
  forallb (fun c => negb (Ascii.eqb c sep)) s = true ->
  splitChar sep (s ++ String sep t) = s :: splitChar sep t.
Proof.
  induction s as [|c s IH]; simpl; intros H.
  - rewrite Ascii.eqb_refl. reflexivity.
  - apply andb_prop in H. destruct H as [Hc Hs].
    apply Bool.negb_true_iff in Hc. rewrite Hc, (IH Hs). reflexivity.
Qed.

Lemma splitChar_none (sep : ascii) (s : string) :
  forallb (fun c => negb (Ascii.eqb c sep)) s = true -> splitChar sep s = [s].
Proof.
  induction s as [|c s IH]; simpl; intros H; [reflexivity|].
  apply andb_prop in H. destruct H as [Hc Hs].
  apply Bool.negb_true_iff in Hc. rewrite Hc, (IH Hs). reflexivity.
Qed.

Lemma trimStart_nowhite (s : string) :
  forallb (fun c => negb (isWhiteSpace c)) s = true -> trimStart s = s.
Proof.
  destruct s as [|c s]; simpl; [reflexivity|]. intros H.
  apply andb_prop in H. destruct H as [Hc _].
  apply Bool.negb_true_iff in Hc. rewrite Hc. reflexivity.
Qed.

Lemma trimEnd_nowhite (s : string) :
  forallb (fun c => negb (isWhiteSpace c)) s = true -> trimEnd s = s.
Proof.
  induction s as [|c s IH]; simpl; [reflexivity|]. intros H.
  apply andb_prop in H. destruct H as [Hc Hs].
  apply Bool.negb_true_iff in Hc. rewrite (IH Hs), Hc.
  destruct s; reflexivity.
Qed.

Lemma trim_nowhite (s : string) :
  forallb (fun c => negb (isWhiteSpace c)) s = true -> trim s = s.
Proof.
  intros H. unfold trim. rewrite (trimStart_nowhite s H). apply trimEnd_nowhite, H.
Qed.

Lemma plain_nowhite (s : string) :
  forallb plainChar s = true -> forallb (fun c => negb (isWhiteSpace c)) s = true.
Proof.
  apply forallb_weaken. intros c Hc. apply plainChar_facts in Hc.
  destruct Hc as [Hw _]. rewrite Hw. reflexivity.
Qed.

Lemma dropLastQuote_append (s : string) (q : ascii) :
  isQuote q = true -> dropLastQuote (s ++ String q EmptyString) = s.
Proof.
  intros Hq. induction s as [|c s IH]; simpl; [rewrite Hq; reflexivity|].
  rewrite IH. destruct s; reflexivity.
Qed.

Lemma dropLastQuote_noquote (s : string) :
  forallb (fun c => negb (isQuote c)) s = true -> dropLastQuote s = s.
Proof.
  induction s as [|c s IH]; simpl; [reflexivity|]. intros H.
  apply andb_prop in H. destruct H as [Hc Hs].
  apply Bool.negb_true_iff in Hc. rewrite (IH Hs), Hc. destruct s; reflexivity.
Qed.

Lemma stripQuotes_quoted (q : ascii) (item : string) :
  isQuote q = true -> stripQuotes (quoted q item) = item.
Proof.
  intros Hq. unfold stripQuotes, quoted. rewrite Hq. apply dropLastQuote_append, Hq.
Qed.

Lemma stripQuotes_plain (s : string) : forallb plainChar s = true -> stripQuotes s = s.
Proof.
  intros H.
  assert (Hn : forallb (fun c => negb (isQuote c)) s = true).
  { revert H. apply forallb_weaken. intros c Hc. apply plainChar_facts in Hc.
    destruct Hc as [_ [Hq _]]. rewrite Hq. reflexivity. }
  unfold stripQuotes. destruct s as [|c s]; [reflexivity|].
  pose proof Hn as Hn'. simpl in Hn'. apply andb_prop in Hn'. destruct Hn' as [Hc _].
  apply Bool.negb_true_iff in Hc. rewrite Hc. apply dropLastQuote_noquote, Hn.
Qed.

Lemma dropLast_append (s : string) (c : ascii) : dropLast (s ++ String c EmptyString) = s.
Proof.
  induction s as [|d s IH]; simpl; [reflexivity|].
  rewrite IH. destruct s; reflexivity.
Qed.

Lemma endsWithChar_append (s : string) (c : ascii) :
  endsWithChar (s ++ String c EmptyString) c = true.
Proof.
  induction s as [|d s IH]; simpl; [apply Ascii.eqb_refl|].
  rewrite IH. destruct s; reflexivity.
Qed.

Lemma tokenChar_facts (c : ascii) :
  tokenChar c = true ->
  isWhiteSpace c = false /\ Ascii.eqb c "#" = false /\ Ascii.eqb c "," = false.
Proof.
  unfold tokenChar. intros H. apply Bool.negb_true_iff in H.
  apply Bool.orb_false_iff in H. destruct H as [H H3].
  apply Bool.orb_false_iff in H. destruct H as [H1 H2]. repeat split; assumption.
Qed.

Lemma token_facts (w : string) :
  token w = true ->
  w <> ""
  /\ forallb (fun c => negb (isWhiteSpace c)) w = true
  /\ forallb (fun c => negb (Ascii.eqb c "#")) w = true
  /\ forallb (fun c => negb (Ascii.eqb c ",")) w = true.
Proof.
  unfold token. intros H. apply andb_prop in H. destruct H as [Ht Hf].
  split; [apply truthy_true_iff; exact Ht|].
  repeat split; revert Hf; apply forallb_weaken; intros c Hc;
    apply tokenChar_facts in Hc; destruct Hc as [H1 [H2 H3]];
    rewrite ?H1, ?H2, ?H3; reflexivity.
Qed.

Lemma concat_cons (sep x y : string) (l : list string) :
  String.concat sep (x :: y :: l) = x ++ sep ++ String.concat sep (y :: l).
Proof. reflexivity. Qed.

(** The pieces of a list written with ", " between its words. *)
Lemma splitChar_concat (w : string) (ws : list string) :
  List.Forall (fun x => token x = true) (w :: ws) ->
  splitChar "," (String.concat ", " (w :: ws))
  = w :: List.map (String " "%char) ws.
Proof.
  revert w. induction ws as [|w' ws IH]; intros w H.
  - simpl. apply splitChar_none. inversion H as [|x l Hx _]; subst.
    apply token_facts in Hx. tauto.
  - rewrite concat_cons. inversion H as [|x l Hx Hl]; subst.
    apply token_facts in Hx. destruct Hx as [_ [_ [_ Hc]]].
    change (", " ++ String.concat ", " (w' :: ws))
      with (String ","%char (String " "%char (String.concat ", " (w' :: ws)))).
    rewrite (splitChar_app _ _ _ Hc).
    change (splitChar "," (String " "%char (String.concat ", " (w' :: ws))))
      with (match splitChar "," (String.concat ", " (w' :: ws)) with
            | p :: ps => String " "%char p :: ps
            | [] => [String " "%char EmptyString]
            end).
    rewrite (IH w' Hl). reflexivity.
Qed.

Lemma concat_forallb (p : ascii -> bool) (ws : list string) :
  p ","%char = true -> p " "%char = true ->
  List.Forall (fun x => forallb p x = true) ws ->
  forallb p (String.concat ", " ws) = true.
Proof.
  intros Hc Hs H. induction H as [|w ws Hw Hws IH]; [reflexivity|].
  destruct ws as [|w' ws]; [exact Hw|].
  rewrite concat_cons, forallb_append, Hw. simpl. rewrite Hc, Hs. exact IH.
Qed.

Lemma concat_nonempty (w : string) (ws : list string) :
  w <> "" -> String.concat ", " (w :: ws) <> "".
Proof.
  intros Hw. destruct ws as [|w' ws]; [exact Hw|].
  rewrite concat_cons. destruct w; [congruence | discriminate].
Qed.

(** What [parseInlineList] does with a text between brackets that has no
    hash: the pieces between the commas, trimmed, without their quotes,
    those that are not empty. *)
Lemma parseInlineList_brackets (body : string) :
  body <> "" ->
  forallb (fun c => negb (Ascii.eqb c "#")) body = true ->
  parseInlineList ("[" ++ body ++ "]")
  = List.filter truthy
      (List.map (fun part => stripQuotes (trim part)) (splitChar "," body)).
Proof.
  intros Hne Hh.
  assert (Hhash : forallb (fun c => negb (Ascii.eqb c "#")) ("[" ++ body ++ "]") = true).
  { simpl. rewrite forallb_append, Hh. reflexivity. }
  assert (Ht : trim ("[" ++ body ++ "]") = "[" ++ body ++ "]").
  { unfold trim. simpl trimStart.
    change (String "["%char (body ++ "]")) with (String "["%char body ++ "]").
    rewrite trimEnd_append; [reflexivity | discriminate]. }
  assert (E1 : ("[" ++ body ++ "]" =? "")%string = false) by reflexivity.
  assert (E2 : ("[" ++ body ++ "]" =? "[]")%string = false).
  { apply String.eqb_neq. intros E. apply (f_equal String.length) in E.
    simpl in E. rewrite length_append in E. simpl in E.
    destruct body; [congruence | simpl in E; lia]. }
  assert (E3 : startsWith ("[" ++ body ++ "]") "[" = true).
  { unfold startsWith. simpl. destruct (body ++ "]"); reflexivity. }
  assert (E4 : endsWithChar ("[" ++ body ++ "]") "]" = true).
  { change ("[" ++ body ++ "]") with (String "["%char body ++ "]").
    apply endsWithChar_append. }
  assert (E5 : dropLast (slice 1 ("[" ++ body ++ "]")) = body).
  { change (slice 1 ("[" ++ body ++ "]")) with (body ++ "]"). apply dropLast_append. }
  unfold parseInlineList.
  set (text := "[" ++ body ++ "]") in *.
  rewrite (splitChar_none _ _ Hhash).
  change (List.hd "" [text]) with text.
  rewrite Ht, E1, E2, E3, E4, E5. reflexivity.
Qed.

Lemma parseInlineList_tokens (ws : list string) :
  List.Forall (fun x => token x = true) ws ->
  parseInlineList (inlineList ws) = List.filter truthy (List.map stripQuotes ws).
Proof.
  intros H. unfold inlineList. destruct ws as [|w ws]; [reflexivity|].
  assert (Hw : w <> "").
  { inversion H as [|x l Hx _]; subst. apply token_facts in Hx. tauto. }
  rewrite parseInlineList_brackets.
  - rewrite (splitChar_concat w ws H). simpl List.map.
    inversion H as [|x l Hx Hl]; subst.
    rewrite (trim_nowhite w) by (apply token_facts in Hx; tauto).
    f_equal. rewrite List.map_map.
    assert (Hm : List.map (fun x => stripQuotes (trim (String " "%char x))) ws
                 = List.map stripQuotes ws).
    { apply List.map_ext_in. intros x Hin.
      rewrite List.Forall_forall in Hl. specialize (Hl x Hin).
      apply token_facts in Hl. destruct Hl as [_ [Hl _]].
      unfold trim. simpl trimStart. fold (trim x). rewrite (trim_nowhite x Hl).
      reflexivity. }
    simpl. rewrite Hm. reflexivity.
  - apply concat_nonempty, Hw.
  - apply concat_forallb; [reflexivity | reflexivity|].
    revert H. apply List.Forall_impl. intros x Hx. apply token_facts in Hx. tauto.
Qed.

Lemma plain_facts (item : string) :
  plain item = true ->
  item <> "" /\ forallb plainChar item = true /\ token item = true.
Proof.
  unfold plain, token. intros H. apply andb_prop in H. destruct H as [Ht Hf].
  split; [apply truthy_true_iff; exact Ht|]. split; [exact Hf|].
  rewrite Ht. simpl. revert Hf. apply forallb_weaken.
  intros c. destruct c as [[] [] [] [] [] [] [] []]; vm_compute; intros K;
    first [reflexivity | discriminate K].
Qed.

Lemma quoted_token (q : ascii) (item : string) :
  isQuote q = true -> plain item = true -> token (quoted q item) = true.
Proof.
  intros Hq Hp. apply plain_facts in Hp. destruct Hp as [_ [_ Ht]].
  unfold token in *. apply andb_prop in Ht. destruct Ht as [_ Hf].
  assert (Hc : tokenChar q = true).
  { revert Hq. destruct q as [[] [] [] [] [] [] [] []]; vm_compute; intros K;
      first [reflexivity | discriminate K]. }
  unfold quoted. simpl. rewrite Hc, forallb_append, Hf. simpl. rewrite Hc. reflexivity.
Qed.

Lemma filter_truthy_plain (items : list string) :
  List.Forall (fun item => plain item = true) items ->
  List.filter truthy items = items.
Proof.
  intros H. induction H as [|x l Hx Hl IH]; [reflexivity|].
  simpl. unfold plain in Hx. apply andb_prop in Hx. destruct Hx as [Ht _].
  rewrite Ht, IH. reflexivity.
Qed.

Lemma trimEnd_space (x : string) : trimEnd (x ++ " ") = trimEnd x.
Proof.
  induction x as [|c x IH]; [reflexivity|].
  simpl append. simpl trimEnd. rewrite IH. reflexivity.
Qed.

Lemma parseInlineList_plain (items : list string) :
  List.Forall (fun item => plain item = true) items ->
  parseInlineList (inlineList items) = items.
Proof.
  intros H.
  assert (Ht : List.Forall (fun x => token x = true) items).
  { revert H. apply List.Forall_impl. intros x Hx. apply plain_facts in Hx. tauto. }
  assert (Hs : List.map stripQuotes items = items).
  { rewrite <- (List.map_id items) at 2. apply List.map_ext_in. intros x Hin.
    rewrite List.Forall_forall in H. specialize (H x Hin).
    apply plain_facts in H. apply stripQuotes_plain. tauto. }
  rewrite (parseInlineList_tokens items Ht), Hs. apply filter_truthy_plain, H.
Qed.

(** X28: a list written on one line is read back as it was written: for
    items without white space, quotes, colons, hashes, commas and brackets,
    [[a, b, c]] gives the items, with or without quotes around each of them,
    and also when a comment follows; whatever the value, no item that is
    returned is empty. *)
Theorem parseInlineList_roundtrip (items : list string) :
  List.Forall (fun item => plain item = true) items ->
  parseInlineList (inlineList items) = items
  /\ (forall q : ascii,
        isQuote q = true ->
        parseInlineList (inlineList (List.map (quoted q) items)) = items)
  /\ (forall comment : string,
        parseInlineList (inlineList items ++ " #" ++ comment) = items)
  /\ (forall value item : string, In item (parseInlineList value) -> item <> "").
Proof.
  intros H.
  assert (Ht : List.Forall (fun x => token x = true) items).
  { revert H. apply List.Forall_impl. intros x Hx. apply plain_facts in Hx. tauto. }
  pose proof (parseInlineList_plain items H) as R1.
  split; [exact R1|]. split; [|split].
  - intros q Hq. rewrite parseInlineList_tokens.
    + rewrite List.map_map.
      rewrite (List.map_ext _ (fun x => x) (fun x => stripQuotes_quoted q x Hq)).
      rewrite List.map_id. apply filter_truthy_plain, H.
    + apply List.Forall_forall. intros x Hin. apply in_map_iff in Hin.
      destruct Hin as [y [E Hy]]. subst x. apply quoted_token; [exact Hq|].
      rewrite List.Forall_forall in H. apply H. exact Hy.
  - intros comment. rewrite <- R1 at 2.
    assert (Hh : forallb (fun c => negb (Ascii.eqb c "#")) (inlineList items) = true).
    { unfold inlineList. simpl. rewrite forallb_append. simpl.
      rewrite Bool.andb_true_r. apply concat_forallb; [reflexivity | reflexivity|].
      revert Ht. apply List.Forall_impl. intros x Hx. apply token_facts in Hx. tauto. }
    assert (E : trim (inlineList items ++ " ") = trim (inlineList items)).
    { unfold trim, inlineList. simpl trimStart.
      change (String "["%char ((String.concat ", " items ++ "]") ++ " "))
        with (String "["%char (String.concat ", " items ++ "]") ++ " ").
      apply trimEnd_space. }
    assert (E1 : List.hd "" (splitChar "#" (inlineList items ++ " #" ++ comment))
                 = inlineList items ++ " ").
    { change (inlineList items ++ " #" ++ comment)
        with (inlineList items ++ String " "%char (String "#"%char comment)).
      replace (inlineList items ++ String " "%char (String "#"%char comment))
        with ((inlineList items ++ " ") ++ String "#"%char comment)
        by (rewrite append_assoc; reflexivity).
      rewrite splitChar_app by (rewrite forallb_append, Hh; reflexivity).
      reflexivity. }
    assert (E2 : List.hd "" (splitChar "#" (inlineList items)) = inlineList items).
    { rewrite (splitChar_none _ _ Hh). reflexivity. }
    unfold parseInlineList. rewrite E1, E2, E. reflexivity.
  - intros value item. unfold parseInlineList.
    destruct (_ || _); [intros []|].
    destruct (_ && _); intros Hin; apply filter_In in Hin;
      apply truthy_true_iff; tauto.
Qed.

Lemma cut_app (sep : ascii) (s t : string) :
  forallb (fun c => negb (Ascii.eqb c sep)) s = true ->
  cut sep (s ++ String sep t) = Some (s, t).
Proof.
  induction s as [|c s IH]; simpl; intros H.
  - rewrite Ascii.eqb_refl. reflexivity.
  - apply andb_prop in H. destruct H as [Hc Hs].
    apply Bool.negb_true_iff in Hc. rewrite Hc, (IH Hs). reflexivity.
Qed.

Lemma indentOf_pad (pad rest : string) (c : ascii) :
  forallb isWhiteSpace pad = true -> isWhiteSpace c = false ->
  indentOf (pad ++ String c rest) = String.length pad
  /\ trimStart (pad ++ String c rest) = String c rest.
Proof.
  intros Hp Hc. induction pad as [|d pad IH]; simpl.
  - rewrite Hc. split; reflexivity.
  - simpl in Hp. apply andb_prop in Hp. destruct Hp as [Hd Hp].
    rewrite Hd. destruct (IH Hp) as [Hi Ht]. rewrite Hi, Ht. split; reflexivity.
Qed.

(** The line of a plain key is read as that key, with what follows the colon
    as its value. *)
Lemma key_line (key tail : string) :
  plain key = true ->
  forallb (fun c => negb (isLineTerminator c)) (trimStart tail) = true ->
  isComment (key ++ String ":"%char tail) = false
  /\ matchKeyLine (key ++ String ":"%char tail)
     = Some {| indent := 0; rawKey := key; rawValue := trimStart tail |}
  /\ trim key = key.
Proof.
  intros Hk Ht. apply plain_facts in Hk. destruct Hk as [Hne [Hp _]].
  destruct key as [|c k]; [congruence|].
  pose proof Hp as Hp'. simpl in Hp'. apply andb_prop in Hp'. destruct Hp' as [Hc Hks].
  apply plainChar_facts in Hc. destruct Hc as [Hw [_ [Hcol [Hhash _]]]].
  assert (Hcut : cut ":" (k ++ String ":"%char tail) = Some (k, tail)).
  { apply cut_app. revert Hks. apply forallb_weaken. intros d Hd.
    apply plainChar_facts in Hd. destruct Hd as [_ [_ [Hd _]]]. rewrite Hd. reflexivity. }
  split; [|split].
  - unfold isComment. simpl. rewrite Hw. exact Hhash.
  - unfold matchKeyLine. simpl indentOf. rewrite Hw. simpl slice. cbv iota beta.
    rewrite Hcol, Hhash. simpl. rewrite Hcut, Ht. reflexivity.
  - apply trim_nowhite, plain_nowhite, Hp.
Qed.

Lemma findSection_skip (key line : string) (rest : list string) :
  lineKey line <> Some key -> findSection key (line :: rest) = findSection key rest.
Proof.
  unfold lineKey. simpl. destruct (isComment line); [reflexivity|].
  destruct (matchKeyLine line) as [m|]; [|reflexivity].
  destruct (String.eqb_spec (trim (rawKey m)) key) as [E|E]; [|reflexivity].
  intros H. exfalso. apply H. rewrite E. reflexivity.
Qed.

Lemma findSection_before (key : string) (before rest : list string) :
  (forall line : string, In line before -> lineKey line <> Some key) ->
  findSection key (before ++ rest) = findSection key rest.
Proof.
  induction before as [|l before IH]; intros H; [reflexivity|].
  simpl app. rewrite findSection_skip by (apply H; left; reflexivity).
  apply IH. intros line Hin. apply H. right. exact Hin.
Qed.

Lemma trimStart_twice (s : string) : trimStart (trimStart s) = trimStart s.
Proof.
  induction s as [|c s IH]; [reflexivity|].
  simpl. destruct (isWhiteSpace c) eqn:E; [exact IH|]. simpl. rewrite E. reflexivity.
Qed.

Lemma findSection_key (key tail : string) (rest : list string) :
  plain key = true ->
  forallb (fun c => negb (isLineTerminator c)) (trimStart tail) = true ->
  findSection key ((key ++ String ":"%char tail) :: rest)
  = {| inlineValue := trim tail; block := takeBlock 0 rest |}.
Proof.
  intros Hk Ht. destruct (key_line key tail Hk Ht) as [Hc [Hm Htrim]].
  simpl. rewrite Hc, Hm. simpl. rewrite Htrim, String.eqb_refl. simpl.
  unfold trim. rewrite trimStart_twice. reflexivity.
Qed.

Lemma takeBlock_app (k : nat) (ls after : list string) :
  (forall line : string,
      In line ls ->
      trim line = "" \/ isComment line = true \/ (k < indentOf line)%nat) ->
  takeBlock k (ls ++ after) = (ls ++ takeBlock k after)%list.
Proof.
  induction ls as [|l ls IH]; intros H; [reflexivity|].
  simpl. rewrite IH by (intros line Hin; apply H; right; exact Hin).
  destruct (H l (or_introl eq_refl)) as [E|[E|E]].
  - rewrite E. reflexivity.
  - rewrite E, Bool.orb_true_r. reflexivity.
  - destruct ((trim l =? "")%string || isComment l); [reflexivity|].
    destruct (Nat.leb_spec (indentOf l) k); [lia | reflexivity].
Qed.

Lemma takeBlock_stop (k : nat) (after : list string) :
  match after with
  | [] => True
  | line :: _ => trim line <> "" /\ isComment line = false /\ (indentOf line <= k)%nat
  end ->
  takeBlock k after = [].
Proof.
  destruct after as [|l after]; [reflexivity|]. intros [Ht [Hc Hi]]. simpl.
  destruct (String.eqb_spec (trim l) ""); [contradiction|]. rewrite Hc. simpl.
  destruct (Nat.leb_spec (indentOf l) k); [reflexivity | lia].
Qed.

Lemma item_line (pad rest : string) :
  forallb isWhiteSpace pad = true ->
  indentOf (pad ++ "-" ++ rest) = String.length pad
  /\ listItemIndent (pad ++ "-" ++ rest) = Some (String.length pad)
  /\ isComment (pad ++ "-" ++ rest) = false
  /\ trim (pad ++ "-" ++ rest) <> "".
Proof.
  intros Hp.
  destruct (indentOf_pad pad rest "-"%char Hp eq_refl) as [Hi Ht].
  change (pad ++ "-" ++ rest) with (pad ++ String "-"%char rest).
  split; [exact Hi|]. split; [|split].
  - unfold listItemIndent. rewrite Ht, Hi. reflexivity.
  - unfold isComment. rewrite Ht. reflexivity.
  - unfold trim. rewrite Ht.
    destruct (trimEnd_head "-"%char rest eq_refl) as [t Et]. rewrite Et. discriminate.
Qed.

(** A line that belongs to an item is no item of the list itself. *)
Lemma continuation_line (p : nat) (line : string) :
  trim line = "" \/ isComment line = true \/ (p < indentOf line)%nat ->
  listItemIndent line = None
  \/ exists i : nat, listItemIndent line = Some i /\ i <> p.
Proof.
  unfold listItemIndent, isComment, trim. intros [H|[H|H]].
  - left. destruct (trimStart_head line) as [E|[c [t [E Hc]]]]; rewrite E in *;
      [reflexivity|].
    destruct (trimEnd_head c t Hc) as [t' Et]. rewrite Et in H. discriminate.
  - left. destruct (trimStart line) as [|c t]; [reflexivity|].
    apply Ascii.eqb_eq in H. subst c. reflexivity.
  - destruct (trimStart line) as [|c t]; [left; reflexivity|].
    destruct (Ascii.eqb c "-"); [|left; reflexivity].
    right. exists (indentOf line). split; [reflexivity | lia].
Qed.

Lemma countStep_continuations (p : nat) (n : Z) (conts : list string) :
  (forall c : string,
      In c conts -> trim c = "" \/ isComment c = true \/ (p < indentOf c)%nat) ->
  fold_left countStep conts (Z.of_nat p, n) = (Z.of_nat p, n).
Proof.
  induction conts as [|c conts IH]; intros H; [reflexivity|].
  change (fold_left countStep (c :: conts) (Z.of_nat p, n))
    with (fold_left countStep conts (countStep (Z.of_nat p, n) c)).
  assert (E : countStep (Z.of_nat p, n) c = (Z.of_nat p, n)).
  { unfold countStep.
    destruct (continuation_line p c (H c (or_introl eq_refl))) as [E|[i [E Hi]]];
      rewrite E; [reflexivity|].
    destruct (Z.eqb_spec (Z.of_nat p) (-1)); [lia|].
    destruct (Z.eqb_spec (Z.of_nat i) (Z.of_nat p)); [lia | reflexivity]. }
  rewrite E. apply IH. intros c' Hin. apply H. right. exact Hin.
Qed.

Lemma countStep_item (pad rest : string) (listIndent n : Z) :
  forallb isWhiteSpace pad = true ->
  listIndent = -1 \/ listIndent = Z.of_nat (String.length pad) ->
  countStep (listIndent, n) (pad ++ "-" ++ rest) = (Z.of_nat (String.length pad), n + 1).
Proof.
  intros Hp Hl. unfold countStep.
  destruct (item_line pad rest Hp) as [_ [E _]]. rewrite E.
  destruct Hl as [Hl|Hl]; subst listIndent; [reflexivity|].
  destruct (Z.eqb_spec (Z.of_nat (String.length pad)) (-1)); [lia|].
  rewrite Z.eqb_refl. reflexivity.
Qed.

Lemma countStep_items (pad : string) (items : list (string * list string))
    (listIndent n : Z) :
  forallb isWhiteSpace pad = true ->
  (forall (item : string * list string) (c : string),
      In item items -> In c (snd item) ->
      trim c = "" \/ isComment c = true \/ (String.length pad < indentOf c)%nat) ->
  listIndent = -1 \/ listIndent = Z.of_nat (String.length pad) ->
  snd (fold_left countStep (blockLines pad items) (listIndent, n))
  = n + Z.of_nat (List.length items).
Proof.
  intros Hp. revert listIndent n.
  induction items as [|item items IH]; intros listIndent n Hc Hl.
  - simpl. lia.
  - change (blockLines pad (item :: items))
      with ((pad ++ "-" ++ fst item) :: (snd item ++ blockLines pad items)%list).
    change (fold_left countStep
              ((pad ++ "-" ++ fst item) :: (snd item ++ blockLines pad items)%list)
              (listIndent, n))
      with (fold_left countStep (snd item ++ blockLines pad items)%list
              (countStep (listIndent, n) (pad ++ "-" ++ fst item))).
    rewrite (countStep_item pad (fst item) listIndent n Hp Hl).
    rewrite List.fold_left_app.
    rewrite countStep_continuations
      by (intros c Hin; apply (Hc item c); [left; reflexivity | exact Hin]).
    rewrite IH; [|intros it c Hit; apply Hc; right; exact Hit | right; reflexivity].
    simpl List.length. lia.
Qed.

(** X29: a list written as a block under its key is counted item by item.
    When the lines of the text are: lines that are not read as the key, the
    line of the key, the item lines (white space, a hyphen, the item), each
    followed by lines that are blank, comments or indented deeper than the
    items, and then nothing or a line that is not indented, the count is the
    number of items - unless the items are not indented at all: a list
    written at the indentation of its key is not seen and counts 0. *)
Theorem block_list_count (text key pad : string) (before after : list string)
    (items : list (string * list string)) :
  plain key = true ->
  forallb isWhiteSpace pad = true ->
  splitLines text
  = (before ++ (key ++ ":")%string :: blockLines pad items ++ after)%list ->
  (forall line : string, In line before -> lineKey line <> Some key) ->
  (forall (item : string * list string) (c : string),
      In item items -> In c (snd item) ->
      trim c = "" \/ isComment c = true \/ (String.length pad < indentOf c)%nat) ->
  match after with
  | [] => True
  | line :: _ => trim line <> "" /\ isComment line = false /\ indentOf line = 0%nat
  end ->
  getYamlSectionLines text key
  = {| inlineValue := "";
       block := if (pad =? "")%string then [] else blockLines pad items |}
  /\ countYamlListEntries text key
     = if (pad =? "")%string then 0 else Z.of_nat (List.length items).
Proof.
  intros Hk Hp Hlines Hbefore Hconts Hafter.
  assert (Hstop : takeBlock 0 after = []).
  { apply takeBlock_stop. destruct after as [|l after]; [exact I|].
    destruct Hafter as [H1 [H2 H3]]. repeat split; try assumption. lia. }
  assert (Hsec : getYamlSectionLines text key
                 = {| inlineValue := "";
                      block := if (pad =? "")%string then []
                               else blockLines pad items |}).
  { unfold getYamlSectionLines. rewrite Hlines.
    rewrite (findSection_before key before _ Hbefore).
    change (key ++ ":") with (key ++ String ":"%char "").
    rewrite (findSection_key key "" _ Hk eq_refl).
    change (trim "") with "". f_equal.
    destruct (String.eqb_spec pad "") as [E|E].
    - subst pad. destruct items as [|item items]; [exact Hstop|].
      unfold blockLines. simpl flat_map. simpl app.
      destruct (item_line "" (fst item) eq_refl) as [Hi [_ [Hc Ht]]].
      simpl append in *. simpl takeBlock.
      destruct (String.eqb_spec (trim (String "-"%char (fst item))) "");
        [contradiction|].
      rewrite Hc. simpl. reflexivity.
    - rewrite takeBlock_app, Hstop, List.app_nil_r; [reflexivity|].
      intros line Hin. unfold blockLines in Hin. apply in_flat_map in Hin.
      destruct Hin as [item [Hitem [Hin|Hin]]].
      + subst line. right. right.
        destruct (item_line pad (fst item) Hp) as [Hi _]. rewrite Hi.
        destruct pad; [congruence | simpl; lia].
      + destruct (Hconts item line Hitem Hin) as [H|[H|H]]; [tauto | tauto|].
        right. right. lia. }
  split; [exact Hsec|].
  unfold countYamlListEntries. rewrite Hsec. cbn [inlineValue block].
  change (truthy "") with false. cbv iota.
  destruct (pad =? "")%string; [reflexivity|].
  rewrite (countStep_items pad items (-1) 0 Hp Hconts (or_introl eq_refl)). lia.
Qed.

(** X30: a list written on the line of its key is counted by its items: when
    the first line read as the key is [key: [a, b, c]], the count is the
    number of items, whatever follows. *)
Theorem inline_list_count (text key : string) (before after : list string)
    (items : list string) :
  plain key = true ->
  List.Forall (fun item => plain item = true) items ->
  splitLines text
  = (before ++ (key ++ ": " ++ inlineList items)%string :: after)%list ->
  (forall line : string, In line before -> lineKey line <> Some key) ->
  inlineValue (getYamlSectionLines text key) = inlineList items
  /\ countYamlListEntries text key = Z.of_nat (List.length items).
Proof.
  intros Hk Hitems Hlines Hbefore.
  assert (Ht : List.Forall (fun x => token x = true) items).
  { revert Hitems. apply List.Forall_impl. intros x Hx. apply plain_facts in Hx. tauto. }
  assert (Hterm : forallb (fun c => negb (isLineTerminator c)) (inlineList items) = true).
  { unfold inlineList. simpl. rewrite forallb_append. simpl.
    rewrite Bool.andb_true_r. apply concat_forallb; [reflexivity | reflexivity|].
    revert Ht. apply List.Forall_impl. intros x Hx. apply token_facts in Hx.
    destruct Hx as [_ [Hx _]]. revert Hx. apply forallb_weaken.
    intros c. destruct c as [[] [] [] [] [] [] [] []]; vm_compute; intros K;
      first [reflexivity | discriminate K]. }
  assert (Htrim : trim (String " "%char (inlineList items)) = inlineList items).
  { unfold trim, inlineList. simpl trimStart.
    change (String "["%char (String.concat ", " items ++ "]"))
      with (String "["%char (String.concat ", " items) ++ "]").
    rewrite trimEnd_append; [reflexivity | discriminate]. }
  assert (Hsec : getYamlSectionLines text key
                 = {| inlineValue := inlineList items; block := takeBlock 0 after |}).
  { unfold getYamlSectionLines. rewrite Hlines.
    rewrite (findSection_before key before _ Hbefore).
    change (key ++ ": " ++ inlineList items)
      with (key ++ String ":"%char (String " "%char (inlineList items))).
    rewrite (findSection_key key (String " "%char (inlineList items)) _ Hk);
      [rewrite Htrim; reflexivity | exact Hterm]. }
  rewrite Hsec. split; [reflexivity|].
  unfold countYamlListEntries. rewrite Hsec. simpl inlineValue.
  assert (Htruthy : truthy (inlineList items) = true) by reflexivity.
  rewrite Htruthy.
  rewrite (parseInlineList_plain items Hitems). reflexivity.
Qed.

End YamlFacts.

Lemma parseInlineList_roundtrip_witness :
  Yaml.parseInlineList "[k1, k2]" = ["k1"; "k2"].
Proof.
  refine (proj1 (parseInlineList_roundtrip ["k1"; "k2"] _)).
  repeat constructor.
Defined.

Lemma block_list_count_witness :
  Yaml.countYamlListEntries Fixtures.configText "claude-api-key" = 2.
Proof.
  refine (proj2 (block_list_count Fixtures.configText "claude-api-key" "  "
                   (firstn 5 Fixtures.configLines)
                   (skipn 10 Fixtures.configLines ++ [""])
                   [ (" api-key: sk-1", ["    models:"; "      - sonnet"]);
                     (" api-key: sk-2", []) ]
                   eq_refl eq_refl eq_refl _ _ _)).
  - intros line Hin. simpl in Hin.
    repeat (destruct Hin as [Hin|Hin]; [subst line; vm_compute; discriminate|]).
    destruct Hin.
  - intros item c Hitem Hc. simpl in Hitem.
    destruct Hitem as [Hitem|[Hitem|[]]]; subst item; simpl in Hc.
    + destruct Hc as [Hc|[Hc|[]]]; subst c; right; right; vm_compute; lia.
    + destruct Hc.
  - vm_compute. repeat split. discriminate.
Defined.

Lemma inline_list_count_witness :
  Yaml.countYamlListEntries Fixtures.configText "gemini-api-key" = 3.
Proof.
  refine (proj2 (inline_list_count Fixtures.configText "gemini-api-key"
                   (firstn 10 Fixtures.configLines)
                   (skipn 11 Fixtures.configLines ++ [""])
                   ["g1"; "g2"; "g3"] eq_refl _ eq_refl _)).
  - repeat constructor.
  - intros line Hin. simpl in Hin.
    repeat (destruct Hin as [Hin|Hin]; [subst line; vm_compute; discriminate|]).
    destruct Hin.
Defined.
